(** * Contacts backend: authentication lifecycle, cache keys and birthday
      queries.

    A shallow embedding of the Python sources [src/auth/auth.py],
    [src/cache/token_cache.py], [src/cache/contacts_cache.py],
    [src/repository/users.py], [src/repository/contacts.py],
    [src/services/users.py] and [src/services/contacts.py].

    Conventions.
    - A coroutine is modelled as a computation in the monad [M]: it takes the
      world (the two SQL tables, the Redis keyspace, the mail outbox and the
      log of executed SQL statements) and returns a result together with the
      world it leaves behind.  A raised exception keeps the world reached at
      the point of the [raise] (commits and Redis writes are not undone).
    - Python [str] values are [string]s of bytes (the UTF-8 encoding);
      [str.strip] and [str.lower] are modelled on ASCII text, bytes above 127
      are left alone.
    - Third-party libraries (python-jose, passlib's bcrypt handler, the JSON
      encoder of FastAPI) are section variables; [JoseModel] gives a symbolic
      instance used to evaluate the code on concrete inputs. *)

From Stdlib Require Import ZArith List String Ascii Lia Bool.
From Stdlib Require Import DecimalString DecimalZ.
From stdpp Require Import base gmap strings list sorting.

Open Scope string_scope.
Open Scope Z_scope.

(* ===================================================================== *)
(** ** Python runtime: exceptions, results, the world monad               *)
(* ===================================================================== *)

Module Py.

(** The exception classes raised or caught by the modelled code. *)
Inductive exn : Type :=
| ValueError (msg : string)
| HTTPException (status_code : Z) (detail : string)
| JWTError (msg : string)
| KeyError (key : string)
| AttributeError (msg : string)
| MultipleResultsFound
| UnknownHashError
| JSONDecodeError
| RequestValidationError (loc : string).

Inductive result (A : Type) : Type :=
| Ok (a : A)
| Raise (e : exn).
Arguments Ok {A} a.
Arguments Raise {A} e.

(** JSON values: the claims of a token and the documents kept in the cache. *)
#[warnings="-register-all"]
Inductive json : Type :=
| JNull
| JBool (b : bool)
| JInt (z : Z)
| JStr (s : string)
| JArr (l : list json)
| JObj (l : list (string * json)).

(** [x != "literal"] for a value taken out of a decoded JSON document. *)
Definition ne_str (v : json) (s : string) : bool :=
  match v with
  | JStr t => negb (String.eqb t s)
  | _ => true
  end.

(** Truth value of a JSON value, as tested by [if not x]. *)
Definition truthy (v : json) : bool :=
  match v with
  | JNull => false
  | JBool b => b
  | JInt z => negb (z =? 0)
  | JStr s => negb (String.eqb s "")
  | JArr l => match l with [] => false | _ => true end
  | JObj l => match l with [] => false | _ => true end
  end.

(** A [dict] with string keys. *)
Abbreviation dict := (gmap string json).

(** [d.get(k)]: [None] (JSON null) when the key is absent. *)
Definition dict_get (d : dict) (k : string) : json :=
  match d !! k with
  | Some v => v
  | None => JNull
  end.

(** [d[k]]: raises [KeyError] when the key is absent. *)
Definition dict_item (d : dict) (k : string) : result json :=
  match d !! k with
  | Some v => Ok v
  | None => Raise (KeyError k)
  end.

(** *** ASCII text

    Text is modelled on ASCII: on strings of ASCII characters [lower] and
    [strip] are Python's.  Python also folds non-ASCII letters and strips
    non-ASCII white space; such text is outside this model. *)

Definition code (c : ascii) : Z := Z.of_N (N_of_ascii c).

(** [str.isspace] on ASCII: TAB, LF, VT, FF, CR, FS, GS, RS, US and space. *)
Definition is_space (c : ascii) : bool :=
  let n := code c in
  ((9 <=? n) && (n <=? 13)) || ((28 <=? n) && (n <=? 32)).

Definition is_upper (c : ascii) : bool :=
  let n := code c in (65 <=? n) && (n <=? 90).

Definition lower_char (c : ascii) : ascii :=
  if is_upper c then ascii_of_N (N_of_ascii c + 32) else c.

(** [s.lower()] *)
Fixpoint lower (s : string) : string :=
  match s with
  | EmptyString => EmptyString
  | String c s' => String (lower_char c) (lower s')
  end.

(** [s.lstrip()] *)
Fixpoint lstrip (s : string) : string :=
  match s with
  | EmptyString => EmptyString
  | String c s' => if is_space c then lstrip s' else s
  end.

(** [s.rstrip()] *)
Fixpoint rstrip (s : string) : string :=
  match s with
  | EmptyString => EmptyString
  | String c s' =>
      let r := rstrip s' in
      if is_space c && String.eqb r "" then "" else String c r
  end.

(** [s.strip()] *)
Definition strip (s : string) : string := rstrip (lstrip s).

(** [str(n)] for an [int]. *)
Definition str (z : Z) : string := NilZero.string_of_int (Z.to_int z).

(** [s.startswith(p)] *)
Fixpoint startswith (p s : string) : bool :=
  match p, s with
  | EmptyString, _ => true
  | String a p', String b s' => Ascii.eqb a b && startswith p' s'
  | String _ _, EmptyString => false
  end.

(** Lexicographic [<=] on [str] (by code point). *)
Fixpoint str_leb (a b : string) : bool :=
  match a, b with
  | EmptyString, _ => true
  | String _ _, EmptyString => false
  | String x a', String y b' =>
      if code x <? code y then true
      else if code y <? code x then false
      else str_leb a' b'
  end.

End Py.
Export Py.

(* ===================================================================== *)
(** ** Database rows ([src/database/models.py])                           *)
(* ===================================================================== *)

(** A calendar date, [datetime.date]. *)
Record date : Type := mkDate { year : Z; month : Z; day : Z }.

Module User.
Record t : Type := mk {
  id : Z;
  username : string;
  email : string;
  password_hash : string;
  refresh_token : option string;
  avatar : option string;
  public_id : option string;
  confirmed : bool;
  role : string
}.

Definition with_refresh_token (u : t) (tok : option string) : t :=
  mk (id u) (username u) (email u) (password_hash u) tok
     (avatar u) (public_id u) (confirmed u) (role u).

Definition with_password_hash (u : t) (h : string) : t :=
  mk (id u) (username u) (email u) h (refresh_token u)
     (avatar u) (public_id u) (confirmed u) (role u).

Definition with_confirmed (u : t) (b : bool) : t :=
  mk (id u) (username u) (email u) (password_hash u) (refresh_token u)
     (avatar u) (public_id u) b (role u).
End User.

Module Contact.
Record t : Type := mk {
  id : Z;
  first_name : string;
  last_name : string;
  email : string;
  phone : string;
  birthday : option date;
  extra_info : option string;
  user_id : Z
}.
End Contact.

(* ===================================================================== *)
(** ** The world and the coroutine monad                                  *)
(* ===================================================================== *)

(** A Redis entry: the value and the absolute time at which it expires
    ([None] for a key without TTL). *)
Record entry : Type := mkEntry { value : string; expire_at : option Z }.

(** SQL statements issued by the contacts repository, as logged. *)
Inductive sql : Type :=
| SqlGetContact (contact_id owner : Z)
| SqlDeleteContact (contact_id : Z)
| SqlSearch (first_name last_name email : option string) (skip limit owner : Z)
| SqlBirthdays (start_key end_key : string) (owner : Z).

Record world : Type := mkWorld {
  users : list User.t;
  contacts : list Contact.t;
  redis : gmap string entry;
  outbox : list (string * string);
  sql_log : list sql
}.

Definition set_users (us : list User.t) (w : world) : world :=
  mkWorld us (contacts w) (redis w) (outbox w) (sql_log w).
Definition set_contacts (cs : list Contact.t) (w : world) : world :=
  mkWorld (users w) cs (redis w) (outbox w) (sql_log w).
Definition set_redis (r : gmap string entry) (w : world) : world :=
  mkWorld (users w) (contacts w) r (outbox w) (sql_log w).
Definition set_outbox (o : list (string * string)) (w : world) : world :=
  mkWorld (users w) (contacts w) (redis w) o (sql_log w).
Definition set_sql_log (l : list sql) (w : world) : world :=
  mkWorld (users w) (contacts w) (redis w) (outbox w) l.

(** A coroutine returning an [A]. *)
Definition M (A : Type) : Type := world -> result A * world.

Definition ret {A} (a : A) : M A := fun w => (Ok a, w).
Definition raise {A} (e : exn) : M A := fun w => (Raise e, w).
Definition bind {A B} (c : M A) (k : A -> M B) : M B :=
  fun w =>
    match c w with
    | (Ok a, w') => k a w'
    | (Raise e, w') => (Raise e, w')
    end.
(** Lift a pure computation that may raise. *)
Definition lift {A} (r : result A) : M A := fun w => (r, w).
Definition get_world : M world := fun w => (Ok w, w).
Definition modify (f : world -> world) : M unit := fun w => (Ok tt, f w).

Declare Scope py_scope.
Delimit Scope py_scope with py.
Notation "'let*' x ':=' c 'in' k" := (bind c (fun x => k))
  (at level 10, x name, c at level 100, k at level 200) : py_scope.
Notation "c ';;;' k" := (bind c (fun _ => k))
  (at level 100, k at level 200, right associativity) : py_scope.
Open Scope py_scope.

(* ===================================================================== *)
(** ** Redis client ([redis.asyncio]) with per-key expiry                 *)
(* ===================================================================== *)

Module Redis.

(** An entry is visible up to and including its expiry time: Redis drops a
    key once the clock has passed it. *)
Definition alive (now : Z) (e : entry) : bool :=
  match expire_at e with
  | None => true
  | Some t => now <=? t
  end.

Definition lookup (now : Z) (r : gmap string entry) (k : string) : option string :=
  match r !! k with
  | Some e => if alive now e then Some (value e) else None
  | None => None
  end.

(** [await r.get(key)] *)
Definition get (now : Z) (k : string) : M (option string) :=
  fun w => (Ok (lookup now (redis w) k), w).

(** [await r.exists(key)]: the number of keys that exist. *)
Definition exists_ (now : Z) (k : string) : M Z :=
  fun w => (Ok (match lookup now (redis w) k with Some _ => 1 | None => 0 end), w).

(** [await r.set(key, value, ex=seconds)] *)
Definition set (now : Z) (k v : string) (ex : Z) : M unit :=
  modify (fun w => set_redis (<[k := mkEntry v (Some (now + ex))]> (redis w)) w).

(** [await r.setex(key, seconds, value)] *)
Definition setex (now : Z) (k : string) (seconds : Z) (v : string) : M unit :=
  set now k v seconds.

(** [await r.delete(key)] *)
Definition delete (k : string) : M unit :=
  modify (fun w => set_redis (base.delete k (redis w)) w).

End Redis.

(* ===================================================================== *)
(** ** Configuration ([src/conf/config.py])                               *)
(* ===================================================================== *)

Record Settings : Type := mkSettings {
  JWT_SECRET : string;
  JWT_ALGORITHM : string;
  JWT_EXPIRATION_SECONDS : Z;
  JWT_REFRESH_EXPIRATION_SECONDS : Z;
  RESET_TOKEN_EXPIRATION_SECONDS : Z
}.

(** The third-party functions the code calls.
    - [jwt_encode claims key algorithm] is [jose.jwt.encode];
    - [jwt_decode token key algorithms now] is [jose.jwt.decode] called at
      time [now]; [None] stands for a raised [JWTError] (bad signature,
      expired signature, malformed claims);
    - [bcrypt_hash] and [bcrypt_verify] are the bcrypt handler behind
      passlib's [CryptContext]. *)
Record Libs : Type := mkLibs {
  jwt_encode : dict -> string -> string -> string;
  jwt_decode : string -> string -> list string -> Z -> option dict;
  bcrypt_hash : string -> string;
  bcrypt_verify : string -> string -> result bool
}.

(* ===================================================================== *)
(** ** User repository ([src/repository/users.py])                        *)
(* ===================================================================== *)

Module UserRepository.

(** [Result.scalar_one_or_none()] *)
Definition scalar_one_or_none {A} (rows : list A) : result (option A) :=
  match rows with
  | [] => Ok None
  | [x] => Ok (Some x)
  | _ :: _ :: _ => Raise MultipleResultsFound
  end.

(** [select(User).where(User.email == email.strip().lower())] *)
Definition get_user_by_email (email : string) : M (option User.t) :=
  fun w =>
    (scalar_one_or_none
       (List.filter (fun u => String.eqb (User.email u) (lower (strip email)))
                    (users w)), w).

(** [select(User).where(User.id == user_id)] *)
Definition get_user_by_id (user_id : Z) : M (option User.t) :=
  fun w =>
    (scalar_one_or_none
       (List.filter (fun u => Z.eqb (User.id u) user_id) (users w)), w).

(** [select(User).where(User.refresh_token == refresh_token)] *)
Definition get_user_by_refresh_token (refresh_token : string) : M (option User.t) :=
  fun w =>
    (scalar_one_or_none
       (List.filter
          (fun u => match User.refresh_token u with
                    | Some t => String.eqb t refresh_token
                    | None => false
                    end)
          (users w)), w).

(** [update(User).where(User.email == user_email).values(refresh_token=...)] *)
Definition set_refresh_token (user_email : string) (refresh_token : option string)
  : M unit :=
  modify (fun w =>
    set_users
      (map (fun u => if String.eqb (User.email u) user_email
                     then User.with_refresh_token u refresh_token else u)
           (users w)) w).

(** [user = get_user_by_email(email); user.confirmed = True; commit] *)
Definition confirmed_email (email : string) : M unit :=
  let* user := get_user_by_email email in
  match user with
  | None => raise (AttributeError "'NoneType' object has no attribute 'confirmed'")
  | Some u =>
      modify (fun w =>
        set_users
          (map (fun v => if Z.eqb (User.id v) (User.id u)
                         then User.with_confirmed v true else v)
               (users w)) w)
  end.

(** [update(User).where(User.email == email)
       .values(password_hash=..., refresh_token=None).returning(User)] *)
Definition set_password_hash (email password_hash : string) : M (option User.t) :=
  let upd u :=
    User.with_refresh_token (User.with_password_hash u password_hash) None in
  let* w := get_world in
  let hit u := String.eqb (User.email u) email in
  modify (set_users (map (fun u => if hit u then upd u else u) (users w)));;;
  lift (scalar_one_or_none (map upd (List.filter hit (users w)))).

End UserRepository.

(* ===================================================================== *)
(** ** Tokens and password hashes ([src/auth/auth.py])                    *)
(* ===================================================================== *)

Module Auth.

Definition RESET_TOKEN_TYPE : string := "password_reset".
Definition ACCESS_TOKEN_TYPE : string := "access".
Definition REFRESH_TOKEN_TYPE : string := "refresh".

Section WithLibs.
Variable settings : Settings.
Variable lib : Libs.

(** *** [class Hash] *)

(** The identifying prefixes of passlib's bcrypt handler. *)
Definition bcrypt_idents : list string := ["$2$"; "$2a$"; "$2x$"; "$2y$"; "$2b$"].

(** [CryptContext(schemes=["bcrypt"]).verify(secret, hash)]: the context first
    identifies the scheme of [hash] by its prefix; a hash that no configured
    scheme claims raises [UnknownHashError]; otherwise the bcrypt handler
    decides (and may itself raise on a malformed bcrypt string). *)
Definition bcrypt_identify (hash : string) : bool :=
  existsb (fun p => startswith p hash) bcrypt_idents.

Definition pwd_context_verify (secret hash : string) : result bool :=
  if bcrypt_identify hash
  then bcrypt_verify lib secret hash
  else Raise UnknownHashError.

Definition verify_password (plain_password hashed_password : string) : result bool :=
  pwd_context_verify plain_password hashed_password.

Definition get_password_hash (password : string) : string :=
  bcrypt_hash lib password.

(** *** Token creation *)

(** [payload = {**data, "iat": now, "exp": now + expires_delta,
                "token_type": token_type}] *)
Definition create_token (now : Z) (data : dict) (expires_delta : Z)
    (token_type : string) : string :=
  let payload :=
    <["token_type" := JStr token_type]>
      (<["exp" := JInt (now + expires_delta)]> (<["iat" := JInt now]> data)) in
  jwt_encode lib payload (JWT_SECRET settings) (JWT_ALGORITHM settings).

Definition create_access_token (now : Z) (data : dict) (expires_delta : option Z)
  : string :=
  let exp_td := match expires_delta with
                | Some d => d
                | None => JWT_EXPIRATION_SECONDS settings
                end in
  create_token now data exp_td "access".

Definition create_refresh_token (now : Z) (data : dict) (expires_delta : option Z)
  : string :=
  let exp_td := match expires_delta with
                | Some d => d
                | None => JWT_REFRESH_EXPIRATION_SECONDS settings
                end in
  create_token now data exp_td "refresh".

(** Valid for seven days; the claims of [data] are kept as they are. *)
Definition create_email_token (now : Z) (data : dict) : string :=
  let to_encode :=
    <["exp" := JInt (now + 7 * 86400)]> (<["iat" := JInt now]> data) in
  jwt_encode lib to_encode (JWT_SECRET settings) (JWT_ALGORITHM settings).

Definition create_reset_token (now : Z) (payload : dict) (expires_seconds : Z)
  : string :=
  let to_encode :=
    <["token_type" := JStr RESET_TOKEN_TYPE]>
      (<["exp" := JInt (now + expires_seconds)]> (<["iat" := JInt now]> payload)) in
  jwt_encode lib to_encode (JWT_SECRET settings) "HS256".

(** *** Token decoding *)

(** [jwt.decode(...)], raising [JWTError] on failure. *)
Definition jose_decode (now : Z) (token : string) (algorithms : list string)
  : result dict :=
  match jwt_decode lib token (JWT_SECRET settings) algorithms now with
  | Some payload => Ok payload
  | None => Raise (JWTError "Signature verification failed.")
  end.

Definition decode_refresh_token (now : Z) (refresh_token : string) : result dict :=
  jose_decode now refresh_token [JWT_ALGORITHM settings].

Definition decode_reset_token (now : Z) (token : string) : result dict :=
  match jose_decode now token ["HS256"] with
  | Ok data =>
      if ne_str (dict_get data "token_type") RESET_TOKEN_TYPE
      then Raise (JWTError "Invalid token type")
      else Ok data
  | Raise e => Raise e
  end.

(** The [try: ... except JWTError: raise HTTPException(400, "Invalid token")]
    of [get_email_from_token]. *)
Definition get_email_from_token (now : Z) (token : string) : result json :=
  match jose_decode now token [JWT_ALGORITHM settings] with
  | Ok payload =>
      match dict_get payload "sub" with
      | JNull => Raise (HTTPException 400 "Invalid token")
      | email => Ok email
      end
  | Raise (JWTError _) => Raise (HTTPException 400 "Invalid token")
  | Raise e => Raise e
  end.

(** [email.strip()] on a value that came out of a token: only a [str] has
    the method. *)
Definition as_str (v : json) : result string :=
  match v with
  | JStr s => Ok s
  | _ => Raise (AttributeError "object has no attribute 'strip'")
  end.

Definition cred_exc : exn := HTTPException 401 "Could not validate credentials".

Definition get_current_user (now : Z) (token : string) : M User.t :=
  match jose_decode now token [JWT_ALGORITHM settings] with
  | Raise (JWTError _) => raise cred_exc
  | Raise e => raise e
  | Ok payload =>
      if ne_str (dict_get payload "token_type") "access" then raise cred_exc
      else
        let subject_email := dict_get payload "sub" in
        if negb (truthy subject_email) then raise cred_exc
        else
          let* email := lift (as_str subject_email) in
          let* user := UserRepository.get_user_by_email email in
          match user with
          | None => raise cred_exc
          | Some u => ret u
          end
  end.

End WithLibs.
End Auth.

(* ===================================================================== *)
(** ** Refresh tokens in Redis ([src/cache/token_cache.py])               *)
(* ===================================================================== *)

Module TokenCache.

Definition _rt_key (token : string) : string := "rt:" +:+ token.

Definition save_refresh_token (settings : Settings) (now : Z) (token email : string)
  : M unit :=
  Redis.set now (_rt_key token) email (JWT_REFRESH_EXPIRATION_SECONDS settings).

Definition is_refresh_token_active (now : Z) (token : string) : M bool :=
  let* n := Redis.exists_ now (_rt_key token) in
  ret (n =? 1).

End TokenCache.

(* ===================================================================== *)
(** ** User service ([src/services/users.py])                             *)
(* ===================================================================== *)

Module UserService.

Record TokenModel : Type := mkTokenModel {
  access_token : string;
  refresh_token : string;
  token_type : string
}.

(** [TokenModel(access_token=..., refresh_token=...)], [token_type] defaults
    to ["bearer"]. *)
Definition token_model (access refresh : string) : TokenModel :=
  mkTokenModel access refresh "bearer".

Definition pr_key (token : string) : string := "pr:" +:+ token.

Definition invalid_refresh : exn := ValueError "Invalid or expired refresh token".
Definition invalid_reset : exn := HTTPException 400 "Invalid or expired reset token".
Definition user_not_found : exn := HTTPException 404 "User not found".

Section WithLibs.
Variable settings : Settings.
Variable lib : Libs.

(** [try: decode_refresh_token(t) except JWTError: raise ValueError(...)] *)
Definition try_decode_refresh (now : Z) (refresh_token : string) : M dict :=
  match Auth.decode_refresh_token settings lib now refresh_token with
  | Ok payload => ret payload
  | Raise (JWTError _) => raise invalid_refresh
  | Raise e => raise e
  end.

Definition login_by_email (now : Z) (email password : string) : M TokenModel :=
  let email := lower (strip email) in
  let* user := UserRepository.get_user_by_email email in
  match user with
  | None => raise (ValueError "Invalid credentials")
  | Some u =>
      let* ok := lift (Auth.verify_password lib password (User.password_hash u)) in
      if negb ok then raise (ValueError "Invalid credentials")
      else if negb (User.confirmed u) then raise (ValueError "Email not confirmed")
      else
        let sub : dict := {["sub" := JStr (User.email u)]} in
        let access :=
          Auth.create_access_token settings lib now sub
            (Some (JWT_EXPIRATION_SECONDS settings)) in
        let refresh :=
          Auth.create_refresh_token settings lib now sub
            (Some (JWT_REFRESH_EXPIRATION_SECONDS settings)) in
        UserRepository.set_refresh_token (User.email u) (Some refresh);;;
        TokenCache.save_refresh_token settings now refresh (User.email u);;;
        ret (token_model access refresh)
  end.

Definition refresh_access_token (now : Z) (refresh_token : string) : M TokenModel :=
  let* active_in_redis := TokenCache.is_refresh_token_active now refresh_token in
  let* user :=
    if active_in_redis : bool then
      let* payload := try_decode_refresh now refresh_token in
      let* sub := lift (dict_item payload "sub") in
      let* email := lift (Auth.as_str sub) in
      let* user := UserRepository.get_user_by_email email in
      match user with
      | None => raise invalid_refresh
      | Some u => ret u
      end
    else
      let* user := UserRepository.get_user_by_refresh_token refresh_token in
      match user with
      | None => raise invalid_refresh
      | Some u =>
          let* payload := try_decode_refresh now refresh_token in
          if ne_str (dict_get payload "token_type") "refresh"
             || ne_str (dict_get payload "sub") (User.email u)
          then raise invalid_refresh
          else
            TokenCache.save_refresh_token settings now refresh_token (User.email u);;;
            ret u
      end in
  let access :=
    Auth.create_access_token settings lib now {["sub" := JStr (User.email user)]}
      (Some (JWT_EXPIRATION_SECONDS settings)) in
  ret (token_model access refresh_token).

Definition logout (user_email : string) : M unit :=
  UserRepository.set_refresh_token user_email None.

(** [mailer.send_password_reset_email(email, token)]: the message is queued. *)
Definition send_password_reset_email (email token : string) : M unit :=
  modify (fun w => set_outbox (outbox w ++ [(email, token)]) w).

Definition request_password_reset (now : Z) (email : string) : M unit :=
  let* user := UserRepository.get_user_by_email (lower (strip email)) in
  match user with
  | None => ret tt
  | Some u =>
      let token :=
        Auth.create_reset_token settings lib now {["sub" := JStr (User.email u)]}
          (RESET_TOKEN_EXPIRATION_SECONDS settings) in
      Redis.setex now (pr_key token) (15 * 60) (User.email u);;;
      send_password_reset_email (User.email u) token
  end.

(** The Redis client decodes responses, so the [isinstance(email, bytes)]
    branch is not taken. *)
Definition reset_password (now : Z) (token new_password : string) : M unit :=
  let* stored := Redis.get now (pr_key token) in
  match stored with
  | None => raise invalid_reset
  | Some email =>
      if String.eqb email "" then raise invalid_reset
      else
        match Auth.decode_reset_token settings lib now token with
        | Raise (JWTError _) => raise invalid_reset
        | Raise e => raise e
        | Ok payload =>
            if ne_str (dict_get payload "token_type") "password_reset"
               || ne_str (dict_get payload "sub") email
            then raise invalid_reset
            else
              let* user := UserRepository.get_user_by_email email in
              match user with
              | None =>
                  Redis.delete (pr_key token);;;
                  raise user_not_found
              | Some u =>
                  let new_hash := Auth.get_password_hash lib new_password in
                  let* _ := UserRepository.set_password_hash (User.email u) new_hash in
                  UserRepository.set_refresh_token email None;;;
                  Redis.delete (pr_key token)
              end
        end
  end.

End WithLibs.
End UserService.

(* ===================================================================== *)
(** ** A symbolic instance of the libraries                               *)
(* ===================================================================== *)

(** Signatures are ideal: a token verifies under a key exactly when it is one
    of the tokens signed with that key.  Used to run the code on concrete
    inputs; the general theorems quantify over every [Libs]. *)
Module JoseModel.

Record signed : Type := mkSigned {
  s_token : string;
  s_key : string;
  s_alg : string;
  s_claims : dict
}.

Definition claim_text (claims : dict) (k : string) : string :=
  match claims !! k with
  | Some (JStr s) => s
  | Some (JInt z) => str z
  | _ => ""
  end.

(** The text of a token: algorithm, claims and the key it is bound to. *)
Definition encode (claims : dict) (key alg : string) : string :=
  alg +:+ "." +:+ claim_text claims "sub" +:+ "," +:+ claim_text claims "token_type"
      +:+ "," +:+ claim_text claims "iat" +:+ "," +:+ claim_text claims "exp"
      +:+ "." +:+ key.

Definition sign (claims : dict) (key alg : string) : signed :=
  mkSigned (encode claims key alg) key alg claims.

(** Signature, algorithm and expiry are verified together; python-jose
    rejects a token whose [exp] lies before the current time. *)
Definition decode (issued : list signed) (token key : string)
    (algorithms : list string) (now : Z) : option dict :=
  match List.find (fun s => String.eqb (s_token s) token) issued with
  | None => None
  | Some s =>
      if String.eqb (s_key s) key && existsb (String.eqb (s_alg s)) algorithms
      then match s_claims s !! "exp" with
           | Some (JInt e) => if e <? now then None else Some (s_claims s)
           | Some _ => None
           | None => Some (s_claims s)
           end
      else None
  end.

(** A stand-in for bcrypt: the digest is the tagged password. *)
Definition hash (password : string) : string := "$2b$" +:+ password.
Definition verify (secret digest : string) : result bool :=
  Ok (String.eqb digest (hash secret)).

Definition libs (issued : list signed) : Libs :=
  mkLibs encode (decode issued) hash verify.

Definition settings : Settings := mkSettings "testsecret" "HS256" 3600 86400 900.

(** The claims of a token minted by [create_token] at time [iat]. *)
Definition claims (sub typ : string) (iat ttl : Z) : dict :=
  <["token_type" := JStr typ]>
    (<["exp" := JInt (iat + ttl)]> (<["iat" := JInt iat]> {["sub" := JStr sub]})).

End JoseModel.

(* ===================================================================== *)
(** ** SHA-1 ([hashlib.sha1]) on byte strings                             *)
(* ===================================================================== *)

Module Sha1.

Definition mask32 (x : Z) : Z := Z.land x 0xFFFFFFFF.
Definition add32 (a b : Z) : Z := mask32 (a + b).
Definition rotl (n x : Z) : Z :=
  mask32 (Z.lor (Z.shiftl x n) (Z.shiftr x (32 - n))).
Definition not32 (x : Z) : Z := Z.lxor x 0xFFFFFFFF.

Definition bytes_of_string (s : string) : list Z :=
  map code (list_ascii_of_string s).

(** The [n] low bytes of [x], most significant first. *)
Fixpoint be_bytes (n : nat) (x : Z) : list Z :=
  match n with
  | O => []
  | S n' => be_bytes n' (Z.shiftr x 8) ++ [Z.land x 255]
  end.

(** Message padding: a 1 bit, zeros, and the bit length on 64 bits. *)
Definition pad (msg : list Z) : list Z :=
  let l := Z.of_nat (length msg) in
  msg ++ [128] ++ repeat 0 (Z.to_nat ((55 - l) mod 64)) ++ be_bytes 8 (8 * l).

Fixpoint words (bs : list Z) : list Z :=
  match bs with
  | a :: b :: c :: d :: r =>
      Z.lor (Z.shiftl a 24) (Z.lor (Z.shiftl b 16) (Z.lor (Z.shiftl c 8) d))
        :: words r
  | _ => []
  end.

(** Message schedule: [n] more words after the ones in [w]. *)
Fixpoint extend (n : nat) (w : list Z) : list Z :=
  match n with
  | O => w
  | S n' =>
      let i := length w in
      let g k := nth (i - k) w 0 in
      extend n' (w ++ [rotl 1 (Z.lxor (Z.lxor (g 3%nat) (g 8%nat))
                                      (Z.lxor (g 14%nat) (g 16%nat)))])
  end.

Record regs : Type := mkRegs { ra : Z; rb : Z; rc : Z; rd : Z; re : Z }.

Definition round (i : nat) (wi : Z) (r : regs) : regs :=
  let '(mkRegs a b c d e) := r in
  let '(f, k) :=
    if (i <? 20)%nat then
      (Z.lor (Z.land b c) (Z.land (not32 b) d), 0x5A827999)
    else if (i <? 40)%nat then
      (Z.lxor (Z.lxor b c) d, 0x6ED9EBA1)
    else if (i <? 60)%nat then
      (Z.lor (Z.lor (Z.land b c) (Z.land b d)) (Z.land c d), 0x8F1BBCDC)
    else
      (Z.lxor (Z.lxor b c) d, 0xCA62C1D6) in
  let temp := add32 (add32 (add32 (add32 (rotl 5 a) f) e) k) wi in
  mkRegs temp a (rotl 30 b) c d.

Fixpoint rounds (i : nat) (w : list Z) (r : regs) : regs :=
  match w with
  | [] => r
  | wi :: w' => rounds (S i) w' (round i wi r)
  end.

Definition process_block (h : regs) (block : list Z) : regs :=
  let w := extend 64 (words block) in
  let r := rounds 0 w h in
  mkRegs (add32 (ra h) (ra r)) (add32 (rb h) (rb r)) (add32 (rc h) (rc r))
         (add32 (rd h) (rd r)) (add32 (re h) (re r)).

Fixpoint blocks (n : nat) (h : regs) (bs : list Z) : regs :=
  match n with
  | O => h
  | S n' => blocks n' (process_block h (firstn 64 bs)) (skipn 64 bs)
  end.

Definition init : regs :=
  mkRegs 0x67452301 0xEFCDAB89 0x98BADCFE 0x10325476 0xC3D2E1F0.

Definition digest (msg : list Z) : list Z :=
  let p := pad msg in
  let h := blocks (length p / 64) init p in
  be_bytes 4 (ra h) ++ be_bytes 4 (rb h) ++ be_bytes 4 (rc h)
    ++ be_bytes 4 (rd h) ++ be_bytes 4 (re h).

Definition hex_digit (n : Z) : ascii :=
  if n <? 10 then ascii_of_N (Z.to_N (48 + n)) else ascii_of_N (Z.to_N (87 + n)).

Fixpoint hex (bs : list Z) : string :=
  match bs with
  | [] => ""
  | b :: r => String (hex_digit (b / 16)) (String (hex_digit (b mod 16)) (hex r))
  end.

(** [sha1(data).hexdigest()] *)
Definition hexdigest (data : string) : string := hex (digest (bytes_of_string data)).

End Sha1.

(* ===================================================================== *)
(** ** Cache keys and cached documents ([src/cache/contacts_cache.py])    *)
(* ===================================================================== *)

(** What the contacts code takes from outside:
    - [json_loads] is [json.loads], [None] standing for [JSONDecodeError];
    - [dumps_contacts] is [json.dumps(jsonable_encoder(contacts))];
    - [ilike value pattern] is the SQL operator [value ILIKE pattern]. *)
Record Engine : Type := mkEngine {
  json_loads : string -> option json;
  dumps_contacts : list Contact.t -> string;
  ilike : string -> string -> bool
}.

Module ContactsCache.

Definition SEARCH_TTL : Z := 60.
Definition BIRTHDAYS_TTL : Z := 600.

(** [(s or "").strip().lower()] *)
Definition _norm (s : option string) : string :=
  lower (strip (match s with Some t => t | None => "" end)).

Definition quote : ascii := "034"%char.
Definition backslash : ascii := "092"%char.

(** The replacement of one character by [json.encoder.py_encode_basestring]:
    quote, backslash and the control characters are escaped. *)
Definition escape_char (c : ascii) : string :=
  let n := code c in
  if n =? 34 then String backslash (String quote "")
  else if n =? 92 then String backslash (String backslash "")
  else if n =? 8 then String backslash "b"
  else if n =? 12 then String backslash "f"
  else if n =? 10 then String backslash "n"
  else if n =? 13 then String backslash "r"
  else if n =? 9 then String backslash "t"
  else if n <? 32 then
    String backslash
      ("u00" +:+ String (Sha1.hex_digit (n / 16)) (String (Sha1.hex_digit (n mod 16)) ""))
  else String c "".

Fixpoint escape (s : string) : string :=
  match s with
  | EmptyString => ""
  | String c s' => escape_char c +:+ escape s'
  end.

(** [json.dumps(s, ensure_ascii=False)] for a [str]. *)
Definition dumps_str (s : string) : string :=
  String quote (escape s) +:+ String quote "".

(** [json.dumps({"fn": .., "ln": .., "em": .., "s": .., "l": ..},
                separators=(",", ":"), ensure_ascii=False)] *)
Definition dumps_payload (fn ln em : string) (s l : Z) : string :=
  "{" +:+ dumps_str "fn" +:+ ":" +:+ dumps_str fn
      +:+ "," +:+ dumps_str "ln" +:+ ":" +:+ dumps_str ln
      +:+ "," +:+ dumps_str "em" +:+ ":" +:+ dumps_str em
      +:+ "," +:+ dumps_str "s" +:+ ":" +:+ str s
      +:+ "," +:+ dumps_str "l" +:+ ":" +:+ str l +:+ "}".

Definition search_payload (first_name last_name email : option string)
    (skip limit : Z) : string :=
  dumps_payload (_norm first_name) (_norm last_name) (_norm email) skip limit.

Definition make_search_key (user_id : Z) (first_name last_name email : option string)
    (skip limit : Z) : string :=
  let payload := search_payload first_name last_name email skip limit in
  let digest := Sha1.hexdigest payload in
  "contacts:search:" +:+ str user_id +:+ ":" +:+ digest.

Definition make_birthdays_key (user_id days_ahead : Z) : string :=
  "contacts:birthdays:" +:+ str user_id +:+ ":" +:+ str days_ahead.

Section WithEngine.
Variable eng : Engine.

(** [json.loads(data)] *)
Definition loads (data : string) : M json :=
  match json_loads eng data with
  | Some v => ret v
  | None => raise JSONDecodeError
  end.

(** Returns [None] when the key is absent, expired or holds an empty string. *)
Definition get_search_contacts (now : Z) (key : string) : M (option json) :=
  let* data := Redis.get now key in
  match data with
  | None => ret None
  | Some d =>
      if String.eqb d "" then ret None
      else let* v := loads d in
           ret (match v with JNull => None | _ => Some v end)
  end.

Definition set_search_contacts (now : Z) (key : string) (contacts : list Contact.t)
    (ttl : Z) : M unit :=
  Redis.set now key (dumps_contacts eng contacts) ttl.

Definition get_birthdays (now : Z) (key : string) : M (option json) :=
  let* data := Redis.get now key in
  match data with
  | None => ret None
  | Some d =>
      if String.eqb d "" then ret None
      else let* v := loads d in
           ret (match v with JNull => None | _ => Some v end)
  end.

Definition set_birthdays (now : Z) (key : string) (contacts : list Contact.t) : M unit :=
  Redis.set now key (dumps_contacts eng contacts) BIRTHDAYS_TTL.

End WithEngine.
End ContactsCache.

(* ===================================================================== *)
(** ** Calendar dates ([datetime.date], [timedelta], [strftime])          *)
(* ===================================================================== *)

Module Dates.

Definition is_leap (y : Z) : bool :=
  (y mod 4 =? 0) && (negb (y mod 100 =? 0) || (y mod 400 =? 0)).

Definition days_in_month (y m : Z) : Z :=
  if m =? 2 then (if is_leap y then 29 else 28)
  else if (m =? 4) || (m =? 6) || (m =? 9) || (m =? 11) then 30
  else 31.

Definition valid (d : date) : Prop :=
  1 <= year d /\ 1 <= month d <= 12 /\ 1 <= day d <= days_in_month (year d) (month d).

Definition next_day (d : date) : date :=
  if day d <? days_in_month (year d) (month d)
  then mkDate (year d) (month d) (day d + 1)
  else if month d <? 12 then mkDate (year d) (month d + 1) 1
  else mkDate (year d + 1) 1 1.

(** [d + timedelta(days=n)] for [n >= 0]. *)
Definition add_days (d : date) (n : Z) : date :=
  Nat.iter (Z.to_nat n) next_day d.

Definition two_digits (n : Z) : string :=
  if n <? 10 then "0" +:+ str n else str n.

(** [d.strftime("%m%d")], also [to_char(d, 'MMDD')] in SQL. *)
Definition mmdd (d : date) : string := two_digits (month d) +:+ two_digits (day d).

End Dates.

(* ===================================================================== *)
(** ** Contact repository ([src/repository/contacts.py])                  *)
(* ===================================================================== *)

Module ContactRepository.

Definition log (q : sql) : M unit :=
  modify (fun w => set_sql_log (sql_log w ++ [q]) w).

(** [select(Contact).filter_by(id=contact_id, user_id=user.id)] *)
Definition get_contact_by_id (contact_id : Z) (user : User.t) : M (option Contact.t) :=
  log (SqlGetContact contact_id (User.id user));;;
  let* w := get_world in
  lift (UserRepository.scalar_one_or_none
          (List.filter
             (fun c => (Contact.id c =? contact_id) && (Contact.user_id c =? User.id user))
             (contacts w))).

(** [await self.db.delete(contact)]: the row with that primary key goes. *)
Definition delete_row (c : Contact.t) : M unit :=
  log (SqlDeleteContact (Contact.id c));;;
  modify (fun w =>
    set_contacts (List.filter (fun x => negb (Contact.id x =? Contact.id c)) (contacts w)) w).

Definition remove_contact (contact_id : Z) (user : User.t) : M (option Contact.t) :=
  let* contact := get_contact_by_id contact_id user in
  match contact with
  | None => ret None
  | Some c => delete_row c;;; ret (Some c)
  end.

(** [if x:] for an optional [str]. *)
Definition given (s : option string) : bool :=
  match s with
  | Some t => negb (String.eqb t "")
  | None => false
  end.

Definition pattern (s : option string) : string :=
  "%" +:+ strip (match s with Some t => t | None => "" end) +:+ "%".

Definition search_contacts (eng : Engine) (first_name last_name email : option string)
    (skip limit : Z) (user : User.t) : M (list Contact.t) :=
  log (SqlSearch first_name last_name email skip limit (User.id user));;;
  let* w := get_world in
  let cond c :=
    (Contact.user_id c =? User.id user)
    && (negb (given first_name) || ilike eng (Contact.first_name c) (pattern first_name))
    && (negb (given last_name) || ilike eng (Contact.last_name c) (pattern last_name))
    && (negb (given email) || ilike eng (Contact.email c) (pattern email)) in
  ret (firstn (Z.to_nat limit) (skipn (Z.to_nat skip) (List.filter cond (contacts w)))).

(** [to_char(Contact.birthday, 'MMDD')] for a row whose birthday is set. *)
Definition key (c : Contact.t) : string :=
  match Contact.birthday c with
  | Some d => Dates.mmdd d
  | None => ""
  end.

(** The [WHERE] clause on the month-day key. *)
Definition in_window (start_key end_key k : string) : bool :=
  if str_leb start_key end_key
  then str_leb start_key k && str_leb k end_key
  else str_leb start_key k || str_leb k end_key.

(** [ORDER BY key]: rows in ascending key order. *)
Fixpoint insert_by_key (c : Contact.t) (l : list Contact.t) : list Contact.t :=
  match l with
  | [] => [c]
  | x :: r => if str_leb (key c) (key x) then c :: l else x :: insert_by_key c r
  end.

Definition order_by_key (l : list Contact.t) : list Contact.t :=
  fold_right insert_by_key [] l.

Definition birthday_rows (today : date) (days : Z) (user : User.t)
    (table : list Contact.t) : list Contact.t :=
  let end_ := Dates.add_days today days in
  let start_key := Dates.mmdd today in
  let end_key := Dates.mmdd end_ in
  order_by_key
    (List.filter
       (fun c =>
          (Contact.user_id c =? User.id user)
          && match Contact.birthday c with Some _ => true | None => false end
          && in_window start_key end_key (key c))
       table).

(** [today] is [date.today()]. *)
Definition upcoming_birthdays (today : date) (days : Z) (user : User.t)
  : M (list Contact.t) :=
  log (SqlBirthdays (Dates.mmdd today) (Dates.mmdd (Dates.add_days today days))
         (User.id user));;;
  let* w := get_world in
  ret (birthday_rows today days user (contacts w)).

End ContactRepository.

(* ===================================================================== *)
(** ** Contact service ([src/services/contacts.py])                       *)
(* ===================================================================== *)

Module ContactService.

(** What a cached read returns: the document found in the cache, or the rows
    the repository produced. *)
Inductive found : Type :=
| Cached (doc : json)
| Rows (rows : list Contact.t).

Section WithEngine.
Variable eng : Engine.

Definition remove_contact (contact_id : Z) (user : User.t) : M bool :=
  let* _ := ContactRepository.remove_contact contact_id user in
  ret true.

Definition search_contacts (now : Z) (first_name last_name email : option string)
    (skip limit : Z) (user : User.t) : M found :=
  let key :=
    ContactsCache.make_search_key (User.id user) first_name last_name email skip limit in
  let* cached := ContactsCache.get_search_contacts eng now key in
  match cached with
  | Some doc => ret (Cached doc)
  | None =>
      let* result :=
        ContactRepository.search_contacts eng first_name last_name email skip limit user in
      ContactsCache.set_search_contacts eng now key result ContactsCache.SEARCH_TTL;;;
      ret (Rows result)
  end.

Definition upcoming_birthdays (now : Z) (today : date) (days_ahead : Z) (user : User.t)
  : M found :=
  let key := ContactsCache.make_birthdays_key (User.id user) days_ahead in
  let* cached := ContactsCache.get_birthdays eng now key in
  match cached with
  | Some doc => ret (Cached doc)
  | None =>
      let* result := ContactRepository.upcoming_birthdays today days_ahead user in
      ContactsCache.set_birthdays eng now key result;;;
      ret (Rows result)
  end.

End WithEngine.
End ContactService.

(* ===================================================================== *)
(** ** Scenario data                                                      *)
(* ===================================================================== *)

Module Scenario.
Import JoseModel.

Definition alice : User.t :=
  User.mk 1 "alice" "alice@example.com" (hash "old-password") None None None true "user".

Definition access_claims : dict := claims "alice@example.com" "access" 1000 3600.
Definition refresh_claims : dict := claims "alice@example.com" "refresh" 1000 86400.
Definition reset_claims : dict := claims "alice@example.com" "password_reset" 2000 900.
Definition ghost_reset_claims : dict := claims "ghost@example.com" "password_reset" 2000 900.

Definition access_tok : string := encode access_claims "testsecret" "HS256".
Definition refresh_tok : string := encode refresh_claims "testsecret" "HS256".
Definition reset_tok : string := encode reset_claims "testsecret" "HS256".
Definition ghost_reset_tok : string := encode ghost_reset_claims "testsecret" "HS256".

(** Every token signed with the process secret in the scenarios. *)
Definition issued : list signed :=
  [ sign access_claims "testsecret" "HS256";
    sign refresh_claims "testsecret" "HS256";
    sign reset_claims "testsecret" "HS256";
    sign ghost_reset_claims "testsecret" "HS256" ].

Definition lib : Libs := libs issued.

(** Alice is registered and confirmed; nothing else exists. *)
Definition w0 : world := mkWorld [alice] [] ∅ [] [].

Definition bob : User.t :=
  User.mk 2 "bob" "bob@example.com" (hash "bobs-password") None None None true "user".

Definition contact (id : Z) (first last : string) (birthday : option date) (owner : Z)
  : Contact.t :=
  Contact.mk id first last (lower first +:+ "@example.com") "555-0100" birthday None owner.

Definition carol := contact 1 "Carol" "Jones" (Some (mkDate 1990 1 2)) 1.
Definition dave := contact 2 "Dave" "Smith" (Some (mkDate 1985 12 20)) 1.
Definition erin := contact 3 "Erin" "Brown" (Some (mkDate 2001 6 5)) 1.
Definition frank := contact 4 "Frank" "Green" (Some (mkDate 1977 6 9)) 1.
Definition grace := contact 5 "Grace" "Hall" (Some (mkDate 1990 1 2)) 2.
Definition heidi := contact 6 "Heidi" "King" None 1.
Definition ivan := contact 7 "Ivan" "Long" (Some (mkDate 1969 11 3)) 1.
Definition judy := contact 8 "Judy" "Moss" (Some (mkDate 1999 12 25)) 1.

Definition address_book : list Contact.t :=
  [carol; dave; erin; frank; grace; heidi; ivan; judy].

(** Alice and Bob with their contacts; Redis is empty. *)
Definition wc : world := mkWorld [alice; bob] address_book ∅ [] [].

(** A stand-in for the JSON codec and the SQL engine: a cached document is
    the list of the ids of the rows; [ILIKE] is a case-insensitive substring
    test on a pattern of the shape [%text%]. *)
Fixpoint join_ids (l : list Contact.t) : string :=
  match l with
  | [] => ""
  | [c] => str (Contact.id c)
  | c :: r => str (Contact.id c) +:+ "," +:+ join_ids r
  end.

Definition dumps (l : list Contact.t) : string := "[" +:+ join_ids l +:+ "]".

Definition loads (s : string) : option json :=
  if String.eqb s "null" then Some JNull
  else if startswith "[" s then Some (JArr [JStr s])
  else None.

Fixpoint contains (p s : string) : bool :=
  startswith p s
  || match s with
     | EmptyString => false
     | String _ s' => contains p s'
     end.

Fixpoint drop_last (s : string) : string :=
  match s with
  | EmptyString => ""
  | String c EmptyString => ""
  | String c s' => String c (drop_last s')
  end.

Definition like (v p : string) : bool :=
  match p with
  | EmptyString => false
  | String _ p' => contains (lower (drop_last p')) (lower v)
  end.

Definition eng : Engine := mkEngine loads dumps like.

(** *** Worlds of the runs *)

Definition alice_email : string := "alice@example.com".

(** Redis holds a live [rt:] entry for Alice's access token. *)
Definition w_rt_access : world :=
  set_redis
    {[ TokenCache._rt_key access_tok := mkEntry "alice@example.com" (Some 87400) ]} w0.

(** A live reset entry for a user who is not in the table. *)
Definition w_ghost : world :=
  set_redis
    {[ UserService.pr_key ghost_reset_tok := mkEntry "ghost@example.com" (Some 2900) ]}
    w0.

(** Alice has asked for a reset: the entry of her token is live. *)
Definition w_reset : world :=
  set_redis {[ UserService.pr_key reset_tok := mkEntry alice_email (Some 2900) ]} w0.

Definition w_reset_done : world :=
  snd (UserService.reset_password JoseModel.settings Scenario.lib 2100 reset_tok
         "new-password" w_reset).

(** Login, reset request, reset; and a logout after the login. *)
Definition after_login : world :=
  snd (UserService.login_by_email JoseModel.settings Scenario.lib 1000
         " Alice@Example.com " "old-password" w0).

Definition after_request : world :=
  snd (UserService.request_password_reset JoseModel.settings Scenario.lib 2000
         alice_email after_login).

Definition after_reset : world :=
  snd (UserService.reset_password JoseModel.settings Scenario.lib 2100 reset_tok
         "new-password" after_request).

Definition after_logout : world :=
  snd (UserService.logout alice_email after_login).

(** Alice's search for "car" at time 100 on an empty cache, then again at
    time 130 with different spelling; and her birthday list. *)
Definition w_searched : world :=
  snd (ContactService.search_contacts eng 100 (Some " car ") None None 0 100
         alice wc).

End Scenario.

(* ===================================================================== *)
(** ** Vocabulary of the statements                                       *)
(* ===================================================================== *)

Module Spec.

(** The statement that a failed confirm leaves the user table and the reset
    entry of the token as they were. *)
Definition failed_confirm_changes_nothing (settings : Settings) (lib : Libs) : Prop :=
  forall now token pw w e w',
    UserService.reset_password settings lib now token pw w = (Raise e, w') ->
    users w' = users w
    /\ redis w' !! UserService.pr_key token = redis w !! UserService.pr_key token.

(** The statement that verification answers [False] instead of raising. *)
Definition verify_total (lib : Libs) : Prop :=
  forall plain digest, exists b, Auth.verify_password lib plain digest = Ok b.

(** A cache entry the reader accepts: non-empty text that parses to a
    document other than [null]. *)
Definition usable (eng : Engine) (data : string) (doc : json) : Prop :=
  data <> "" /\ json_loads eng data = Some doc /\ doc <> JNull.

(** Every character of a text passes a test. *)
Fixpoint all_chars (P : ascii -> bool) (s : string) : bool :=
  match s with
  | EmptyString => true
  | String c s' => P c && all_chars P s'
  end.

Definition is_num_char (c : ascii) : bool :=
  ((48 <=? code c) && (code c <=? 57)) || (code c =? 45).

(** Two texts that agree letter by letter up to case. *)
Inductive same_letters : string -> string -> Prop :=
| sl_nil : same_letters "" ""
| sl_cons c d s t :
    c = d \/ lower_char c = d \/ lower_char d = c ->
    same_letters s t -> same_letters (String c s) (String d t).

(** Optional filters that differ only by leading or trailing white space, by
    letter case, or by being absent instead of empty. *)
Inductive same_filter : option string -> option string -> Prop :=
| sf_refl a : same_filter a a
| sf_sym a b : same_filter a b -> same_filter b a
| sf_trans a b c : same_filter a b -> same_filter b c -> same_filter a c
| sf_absent : same_filter None (Some "")
| sf_space s l r :
    all_chars is_space l = true -> all_chars is_space r = true ->
    same_filter (Some s) (Some (l +:+ s +:+ r))
| sf_case s t : same_letters s t -> same_filter (Some s) (Some t).

Definition is_byte (b : Z) : Prop := 0 <= b < 256.

(** A list of bytes read as a number, least significant byte first. *)
Fixpoint le_num (bs : list Z) : Z :=
  match bs with
  | [] => 0
  | b :: r => b + 256 * le_num r
  end.

(** The SHA-1 digest of the search payload of a page, as a number. *)
Definition page_digest (fn ln em : option string) (limit skip : Z) : Z :=
  le_num (Sha1.digest
            (Sha1.bytes_of_string (ContactsCache.search_payload fn ln em skip limit))).

(** Ascending order of the month-day keys of two rows. *)
Definition key_le (a b : Contact.t) : Prop := str_leb (ContactRepository.key a) (ContactRepository.key b) = true.

(** Calendar positions: days before a month, day of the year, length of a
    year, and the month-day of a date as a number. *)
Definition cum (leap : bool) (m : Z) : Z :=
  match m with
  | 1 => 0 | 2 => 31 | 3 => 59 | 4 => 90 | 5 => 120 | 6 => 151
  | 7 => 181 | 8 => 212 | 9 => 243 | 10 => 273 | 11 => 304 | _ => 334
  end + (if leap && (3 <=? m) then 1 else 0).

Definition doy (d : date) : Z := cum (Dates.is_leap (year d)) (month d) + day d.

Definition ylen (y : Z) : Z := if Dates.is_leap y then 366 else 365.

Definition nkey (d : date) : Z := 100 * month d + day d.

(** Every month-day pair up to 12-31, and the check that the order of the
    four-character keys is the order of the numbers. *)
Definition md_range : list (Z * Z) :=
  list_prod (map Z.of_nat (seq 1 12)) (map Z.of_nat (seq 1 31)).

Definition md_date (p : Z * Z) : date := mkDate 2000 (fst p) (snd p).

Definition mmdd_check : bool :=
  forallb
    (fun p =>
       forallb
         (fun q =>
            Bool.eqb (str_leb (Dates.mmdd (md_date p)) (Dates.mmdd (md_date q)))
                     (nkey (md_date p) <=? nkey (md_date q)))
         md_range)
    md_range.

End Spec.

(* ===================================================================== *)
(** ** Registration, confirmation and roles                               *)
(* ===================================================================== *)

(** [class UserRole(StrEnum)] ([src/auth/roles.py]). *)
Inductive UserRole : Type := ADMIN | USER.

Definition role_value (r : UserRole) : string :=
  match r with
  | ADMIN => "admin"
  | USER => "user"
  end.

(** [class UserModel] ([src/schemas.py]): the registration form. *)
Record UserModel : Type := mkUserModel {
  um_username : string;
  um_password : string;
  um_email : string
}.

(** The rest of [src/repository/users.py]. *)
Module UserRepositoryExt.

(** The key the database gives to a new row: one that no row has. *)
Definition fresh_id (us : list User.t) : Z :=
  1 + fold_right Z.max 0 (map User.id us).

Definition with_role (u : User.t) (r : string) : User.t :=
  User.mk (User.id u) (User.username u) (User.email u) (User.password_hash u)
    (User.refresh_token u) (User.avatar u) (User.public_id u) (User.confirmed u) r.

(** [User(username=username.strip(), email=email.strip().lower(), ...)];
    the commit fails with [IntegrityError] when the username or the email is
    taken (both columns are unique), which is rolled back and reported as
    [ValueError("User already exists")].  A new row is unconfirmed, has the
    role ["user"] and no refresh token. *)
Definition create_user (username email password_hash : string) : M User.t :=
  let* w := get_world in
  let user :=
    User.mk (fresh_id (users w)) (strip username) (lower (strip email)) password_hash
      None None None false (role_value USER) in
  if existsb (fun u => String.eqb (User.email u) (User.email user)
                       || String.eqb (User.username u) (User.username user))
             (users w)
  then raise (ValueError "User already exists")
  else modify (set_users (users w ++ [user]));;; ret user.

(** [update(User).where(User.id == user_id).values(role=role)], then
    [get_user_by_id]. *)
Definition set_role (user_id : Z) (role : string) : M (option User.t) :=
  modify (fun w =>
    set_users
      (map (fun u => if Z.eqb (User.id u) user_id then with_role u role else u)
           (users w)) w);;;
  UserRepository.get_user_by_id user_id.

End UserRepositoryExt.

(** The rest of [src/services/users.py].  [model_validate] stands for
    [UserResponse.model_validate], which may reject a row. *)
Module UserServiceExt.

Section WithLibs.
Variable lib : Libs.
Variable Response : Type.
Variable model_validate : User.t -> result Response.

Definition create_user (body : UserModel) : M Response :=
  let email := lower (strip (um_email body)) in
  let username := strip (um_username body) in
  let* existing := UserRepository.get_user_by_email email in
  match existing with
  | Some _ => raise (ValueError "User already exists")
  | None =>
      let pwd_hash := Auth.get_password_hash lib (um_password body) in
      let* user := UserRepositoryExt.create_user username email pwd_hash in
      lift (model_validate user)
  end.

Definition get_user_by_email (email : string) : M (option Response) :=
  let* user := UserRepository.get_user_by_email email in
  match user with
  | Some u => let* r := lift (model_validate u) in ret (Some r)
  | None => ret None
  end.

End WithLibs.

Definition confirmed_email (email : string) : M unit :=
  UserRepository.confirmed_email email.

(** [actor] is not read by the function. *)
Definition change_user_role (target_user_id : Z) (new_role : UserRole)
  : M (option User.t) :=
  let* user := UserRepository.get_user_by_id target_user_id in
  match user with
  | None => raise (HTTPException 404 "User not found")
  | Some u =>
      if String.eqb (User.role u) (role_value new_role) then ret (Some u)
      else UserRepositoryExt.set_role (User.id u) (role_value new_role)
  end.

End UserServiceExt.

(** [src/auth/deps.py] *)
Module Deps.

Definition admin_required (current_user : User.t) : M User.t :=
  if negb (String.eqb (User.role current_user) (role_value ADMIN))
  then raise (HTTPException 403 "Admins only")
  else ret current_user.

End Deps.

(** The rest of [src/repository/contacts.py] that reads the table. *)
Module ContactRepositoryExt.

(** [select(Contact).where(Contact.user_id == user.id).offset(skip).limit(limit)];
    rows come in table order. *)
Definition get_contacts (user : User.t) (skip limit : Z) : M (list Contact.t) :=
  let* w := get_world in
  ret (firstn (Z.to_nat limit)
         (skipn (Z.to_nat skip)
            (List.filter (fun c => Contact.user_id c =? User.id user) (contacts w)))).

End ContactRepositoryExt.

(** Request handlers of [src/api/users.py] and [src/api/contacts.py]; the
    bearer token is resolved by [get_current_user] before the body runs. *)
Module Api.

Section WithLibs.
Variable settings : Settings.
Variable lib : Libs.

(** [PATCH /users/{user_id}/role] *)
Definition change_role (now : Z) (token : string) (role : UserRole) (user_id : Z)
  : M (option User.t) :=
  let* current_user := Auth.get_current_user settings lib now token in
  let* _ := Deps.admin_required current_user in
  UserServiceExt.change_user_role user_id role.

(** [DELETE /contacts/{contact_id}].  The dependencies are solved first,
    then [contact_id: int = Path(..., ge=1)] is validated: a value below 1
    is refused with [RequestValidationError] (status 422) before the body
    runs. *)
Definition remove_contact (now : Z) (token : string) (contact_id : Z) : M unit :=
  let* user := Auth.get_current_user settings lib now token in
  if contact_id <? 1 then raise (RequestValidationError "path.contact_id")
  else
    let* ok := ContactService.remove_contact contact_id user in
    if negb ok then raise (HTTPException 404 "Contact not found")
    else ret tt.

End WithLibs.
End Api.

(* ===================================================================== *)
(** ** Vocabulary of the account and registration properties           *)
(* ===================================================================== *)

Module SpecExt.
(** The identity columns of the user table: key, username and email. *)
Definition identities (w : world) : list (Z * string * string) :=
  map (fun u => (User.id u, User.username u, User.email u)) (users w).

(** An email in the form the registration stores: trimmed and lower-case. *)
Definition normal (email : string) : Prop := lower (strip email) = email.

(** The claims a refresh token of an account carries: the type
    ["refresh"] and a normalised email as subject. *)
Definition refresh_claims_ok (p : dict) : Prop :=
  dict_get p "token_type" = JStr "refresh"
  /\ exists s, dict_get p "sub" = JStr s /\ normal s.

(** Every token kept under [rt:] is a refresh token: whenever the JWT
    library verifies it, these are its claims. *)
Definition rt_sound (settings : Settings) (lib : Libs) (w : world) : Prop :=
  forall t ent now p,
    redis w !! TokenCache._rt_key t = Some ent ->
    Auth.decode_refresh_token settings lib now t = Ok p ->
    refresh_claims_ok p.

(** The rows that hold a given refresh token. *)
Definition holders (token : string) (w : world) : list User.t :=
  List.filter
    (fun u => match User.refresh_token u with
              | Some t => String.eqb t token
              | None => false
              end)
    (users w).

(** What is required of the JWT library for the code to keep [rt_sound]:
    the claims of a token do not depend on the time it is verified at, and
    a token minted by [create_refresh_token] for a normalised email
    verifies, if at all, as a refresh token. *)
Definition codec_stable (settings : Settings) (lib : Libs) : Prop :=
  forall t now now' p p',
    Auth.decode_refresh_token settings lib now t = Ok p ->
    Auth.decode_refresh_token settings lib now' t = Ok p' ->
    p = p'.

Definition codec_mints_refresh (settings : Settings) (lib : Libs) : Prop :=
  forall now now' e p,
    normal e ->
    Auth.decode_refresh_token settings lib now'
      (Auth.create_refresh_token settings lib now {["sub" := JStr e]}
         (Some (JWT_REFRESH_EXPIRATION_SECONDS settings))) = Ok p ->
    refresh_claims_ok p.

(** The emails of the user table are stored trimmed and lower-case. *)
Definition emails_normal (w : world) : Prop :=
  Forall (fun u => normal (User.email u)) (users w).

(** Clearing the stored refresh token of the rows of one email. *)
Definition clear_token (email : string) (u : User.t) : User.t :=
  if String.eqb (User.email u) email then User.with_refresh_token u None else u.

(** The row of an account after a password reset. *)
Definition reset_row (email hash : string) (u : User.t) : User.t :=
  if String.eqb (User.email u) email
  then User.with_refresh_token (User.with_password_hash u hash) None else u.
End SpecExt.

Module SpecExt2.
Import SpecExt.
(** A user table as the schema wants it: keys, emails and usernames are
    unique and every email is stored trimmed and lower-case. *)
Definition wellformed (us : list User.t) : Prop :=
  List.NoDup (map User.id us)
  /\ List.NoDup (map User.email us)
  /\ List.NoDup (map User.username us)
  /\ Forall (fun u => normal (User.email u)) us.

(** The row a registration inserts. *)
Definition new_row (lib : Libs) (us : list User.t) (body : UserModel) : User.t :=
  User.mk (UserRepositoryExt.fresh_id us) (strip (um_username body))
    (lower (strip (um_email body))) (Auth.get_password_hash lib (um_password body))
    None None None false "user".

Definition confirm_row (id : Z) (u : User.t) : User.t :=
  if Z.eqb (User.id u) id then User.with_confirmed u true else u.
End SpecExt2.

(* ===================================================================== *)
(** ** Further scenario worlds                                         *)
(* ===================================================================== *)

Module ScenarioExt.
Import Scenario JoseModel.

(** Zoe has registered but not confirmed her email. *)
Definition zoe : User.t :=
  User.mk 3 "zoe" "zoe@example.com" (hash "zoe-pass") None None None false "user".

Definition w_zoe : world := mkWorld [alice; zoe] [] ∅ [] [].

(** Alice's row holds her refresh token, Redis holds nothing. *)
Definition w_row : world :=
  mkWorld [User.with_refresh_token alice (Some refresh_tok)] [] ∅ [] [].

(** Alice's row holds her refresh token and a reset of hers is pending. *)
Definition w_row_reset : world :=
  set_redis {[ UserService.pr_key reset_tok := mkEntry alice_email (Some 2900) ]} w_row.

(** A registration form with untidy spelling. *)
Definition zed_form : UserModel := mkUserModel " zed " "zed-pass" " Zed@Example.COM ".
Definition alice_again : UserModel := mkUserModel "alice2" "pw" " ALICE@example.com".

(** The response model keeps the row. *)
Definition keep (u : User.t) : result User.t := Ok u.

End ScenarioExt.

(* ===================================================================== *)
(** * Properties                                                          *)
(* ===================================================================== *)

(** Running monadic code: expose the binds and split on what they scrutinise. *)
Ltac unfold_m :=
  unfold bind, ret, raise, lift, modify, get_world in *.

Ltac step_match :=
  match goal with
  | H : context [match ?x with _ => _ end] |- _ =>
      let E := fresh "E" in destruct x eqn:E
  | |- context [match ?x with _ => _ end] =>
      let E := fresh "E" in destruct x eqn:E
  end.

Ltac run_m := unfold_m; repeat (step_match; simpl in *; try congruence).

(* ===================================================================== *)
(** ** Token decoding                                                     *)
(* ===================================================================== *)

Module TokenTheory.
Import Scenario JoseModel Spec.

Section Generic.
Variable settings : Settings.
Variable lib : Libs.

(** A token that [decode_reset_token] returns carries the reset type. *)
Lemma decode_reset_token_checks_type now token data :
  Auth.decode_reset_token settings lib now token = Ok data ->
  dict_get data "token_type" = JStr "password_reset".
Proof.
  unfold Auth.decode_reset_token, Auth.RESET_TOKEN_TYPE.
  destruct (Auth.jose_decode settings lib now token ["HS256"]) as [d|e]; [|discriminate].
  destruct (ne_str (dict_get d "token_type") "password_reset") eqn:E; [discriminate|].
  intros [= <-]. unfold ne_str in E.
  destruct (dict_get d "token_type"); try discriminate.
  apply negb_false_iff, String.eqb_eq in E. now subst.
Qed.

(** A caller identified by [get_current_user] presented an access token. *)
Lemma get_current_user_checks_type now token w u w' :
  Auth.get_current_user settings lib now token w = (Ok u, w') ->
  exists payload,
    Auth.jose_decode settings lib now token [JWT_ALGORITHM settings] = Ok payload
    /\ dict_get payload "token_type" = JStr "access".
Proof.
  unfold Auth.get_current_user.
  destruct (Auth.jose_decode settings lib now token [JWT_ALGORITHM settings])
    as [p|e] eqn:D.
  - destruct (ne_str (dict_get p "token_type") "access") eqn:E.
    + unfold raise. discriminate.
    + intros _. exists p. split; [reflexivity|].
      unfold ne_str in E. destruct (dict_get p "token_type"); try discriminate.
      apply negb_false_iff, String.eqb_eq in E. now subst.
  - destruct e; unfold raise; discriminate.
Qed.

(** [decode_refresh_token] returns whatever claims the codec verifies: the
    type tag plays no part. *)
Lemma decode_refresh_token_unchecked now token payload :
  jwt_decode lib token (JWT_SECRET settings) [JWT_ALGORITHM settings] now = Some payload ->
  Auth.decode_refresh_token settings lib now token = Ok payload.
Proof.
  intros H. unfold Auth.decode_refresh_token, Auth.jose_decode. now rewrite H.
Qed.

End Generic.

(** C1 (defect). A validly signed, unexpired access token is accepted by
    [decode_refresh_token], which returns its claims although their
    [token_type] is ["access"]; [get_email_from_token] accepts the same
    access token, and a password-reset token, where an email-confirmation
    token is expected.  Only [decode_reset_token] rejects it. *)
Theorem decode_accepts_foreign_token_type :
  Auth.decode_refresh_token settings lib 1500 access_tok = Ok access_claims
  /\ dict_get access_claims "token_type" = JStr "access"
  /\ Auth.get_email_from_token settings lib 1500 access_tok
     = Ok (JStr "alice@example.com")
  /\ Auth.get_email_from_token settings lib 2100 reset_tok
     = Ok (JStr "alice@example.com")
  /\ Auth.decode_reset_token settings lib 1500 access_tok
     = Raise (JWTError "Invalid token type").
Proof. repeat split; vm_compute; reflexivity. Qed.

End TokenTheory.

(* ===================================================================== *)
(** ** Refresh-token rotation                                             *)
(* ===================================================================== *)

Module RotationTheory.
Import Scenario JoseModel Spec.

Section Generic.
Variable settings : Settings.
Variable lib : Libs.

(** A failed rotation leaves the world as it was. *)
Lemma refresh_failure_frame now token w e w' :
  UserService.refresh_access_token settings lib now token w = (Raise e, w') ->
  w' = w.
Proof.
  unfold UserService.refresh_access_token, TokenCache.is_refresh_token_active,
    Redis.exists_, UserService.try_decode_refresh,
    UserRepository.get_user_by_email, UserRepository.get_user_by_refresh_token,
    TokenCache.save_refresh_token, Redis.set.
  intros H. run_m.
Qed.

(** On the fallback path (token not live in Redis) a rotation succeeds only
    for the token stored on a user row, of type refresh, whose subject is
    that user's email; the token is then registered in Redis again. *)
Lemma refresh_fallback_checked now token w tm w' :
  Redis.lookup now (redis w) (TokenCache._rt_key token) = None ->
  UserService.refresh_access_token settings lib now token w = (Ok tm, w') ->
  exists u payload,
    UserRepository.get_user_by_refresh_token token w = (Ok (Some u), w)
    /\ Auth.decode_refresh_token settings lib now token = Ok payload
    /\ dict_get payload "token_type" = JStr "refresh"
    /\ dict_get payload "sub" = JStr (User.email u)
    /\ w' = set_redis
              (<[TokenCache._rt_key token :=
                   mkEntry (User.email u)
                     (Some (now + JWT_REFRESH_EXPIRATION_SECONDS settings))]> (redis w)) w.
Proof.
  intros Hdead.
  unfold UserService.refresh_access_token, TokenCache.is_refresh_token_active,
    Redis.exists_, UserService.try_decode_refresh,
    UserRepository.get_user_by_refresh_token,
    TokenCache.save_refresh_token, Redis.set.
  unfold_m. rewrite Hdead. simpl.
  destruct (UserRepository.scalar_one_or_none _) as [[u|]|e] eqn:Hu;
    try discriminate.
  destruct (Auth.decode_refresh_token settings lib now token) as [p|e] eqn:Hd.
  2:{ destruct e; simpl; intros; discriminate. }
  simpl.
  destruct (ne_str (dict_get p "token_type") "refresh") eqn:Ht; [discriminate|].
  destruct (ne_str (dict_get p "sub") (User.email u)) eqn:Hs; [discriminate|].
  simpl. intros H. inversion H; subst. exists u, p.
  unfold ne_str in Ht, Hs.
  destruct (dict_get p "token_type"); try discriminate.
  destruct (dict_get p "sub"); try discriminate.
  apply negb_false_iff, String.eqb_eq in Ht, Hs. subst. auto.
Qed.

End Generic.

(** The Redis path itself only decodes the token: in a Redis that holds an
    access token under [rt:] (an entry no writer of the code stores) the
    rotation would succeed and mint a new access token. *)
Lemma fast_path_relies_on_stored_tokens :
  dict_get access_claims "token_type" = JStr "access"
  /\ UserService.refresh_access_token settings lib 1500 access_tok w_rt_access
     = (Ok (UserService.token_model
              (JoseModel.encode (claims "alice@example.com" "access" 1500 3600)
                 "testsecret" "HS256")
              access_tok),
        w_rt_access).
Proof. split; vm_compute; reflexivity. Qed.

End RotationTheory.

(* ===================================================================== *)
(** ** Password reset and logout                                          *)
(* ===================================================================== *)

Module ResetTheory.
Import Scenario JoseModel Spec.

Lemma scalar_one_inv {A} (l : list A) (x : A) :
  UserRepository.scalar_one_or_none l = Ok (Some x) -> l = [x].
Proof.
  destruct l as [|a [|b l]]; simpl; intros H; try discriminate.
  now inversion H.
Qed.

Lemma filter_singleton_holds {A} (f : A -> bool) (l : list A) (x : A) :
  List.filter f l = [x] -> f x = true.
Proof.
  intros H.
  assert (In x (List.filter f l)) as Hin by (rewrite H; now left).
  now apply filter_In in Hin.
Qed.

(** The row found by email is the only row the password update touches. *)
Lemma set_password_hash_found email h w u :
  UserRepository.get_user_by_email email w = (Ok (Some u), w) ->
  exists r,
    UserRepository.set_password_hash (User.email u) h w
    = (Ok r,
       set_users
         (map (fun v => if String.eqb (User.email v) (User.email u)
                        then User.with_refresh_token (User.with_password_hash v h) None
                        else v)
              (users w)) w).
Proof.
  unfold UserRepository.get_user_by_email. intros H.
  assert (UserRepository.scalar_one_or_none
            (List.filter (fun v => String.eqb (User.email v) (lower (strip email)))
               (users w)) = Ok (Some u)) as Hs by now inversion H.
  apply scalar_one_inv in Hs.
  pose proof (filter_singleton_holds _ _ _ Hs) as Hu. simpl in Hu.
  apply String.eqb_eq in Hu.
  unfold UserRepository.set_password_hash. unfold_m. simpl.
  rewrite Hu, Hs. simpl. eexists. reflexivity.
Qed.

Section Generic.
Variable settings : Settings.
Variable lib : Libs.

(** The outcome of a confirm whose Redis entry is absent, expired or empty. *)
Lemma reset_password_absent now token pw w :
  Redis.lookup now (redis w) (UserService.pr_key token) = None ->
  UserService.reset_password settings lib now token pw w
  = (Raise UserService.invalid_reset, w).
Proof.
  intros H. unfold UserService.reset_password, Redis.get. unfold_m.
  now rewrite H.
Qed.

(** What a successful confirm does to the world. *)
Lemma reset_password_success now token pw w w' :
  UserService.reset_password settings lib now token pw w = (Ok tt, w') ->
  exists email,
    Redis.lookup now (redis w) (UserService.pr_key token) = Some email
    /\ redis w' = base.delete (UserService.pr_key token) (redis w)
    /\ contacts w' = contacts w /\ outbox w' = outbox w /\ sql_log w' = sql_log w.
Proof.
  unfold UserService.reset_password, Redis.get. unfold_m.
  destruct (Redis.lookup now (redis w) (UserService.pr_key token)) as [email|];
    [|discriminate].
  destruct (String.eqb email ""); [discriminate|].
  destruct (Auth.decode_reset_token settings lib now token) as [p|e].
  2:{ destruct e; discriminate. }
  destruct (_ || _); [discriminate|].
  destruct (UserRepository.get_user_by_email email w) as [[[u|]|e] w1] eqn:Hu.
  - assert (w1 = w) as ->
      by (unfold UserRepository.get_user_by_email in Hu; now inversion Hu).
    destruct (set_password_hash_found email (Auth.get_password_hash lib pw) w u Hu)
      as [r Hr].
    rewrite Hr. unfold UserRepository.set_refresh_token, Redis.delete. unfold_m.
    simpl. intros H. inversion H; subst; clear H. exists email. auto.
  - unfold Redis.delete. unfold_m. discriminate.
  - discriminate.
Qed.

(** C3 (amended). A failed confirm never touches the user table.  The world
    is left exactly as it was on every failure except user-not-found, where
    the reset entry of the token has been deleted from Redis before the
    exception is raised. *)
Theorem reset_password_failure_frame now token pw w e w' :
  UserService.reset_password settings lib now token pw w = (Raise e, w') ->
  users w' = users w
  /\ (e <> UserService.user_not_found -> w' = w)
  /\ (e = UserService.user_not_found ->
      w' = set_redis (base.delete (UserService.pr_key token) (redis w)) w).
Proof.
  unfold UserService.reset_password, Redis.get. unfold_m.
  destruct (Redis.lookup now (redis w) (UserService.pr_key token)) as [email|].
  2:{ intros H; inversion H; subst. repeat split; auto. discriminate. }
  destruct (String.eqb email "").
  { intros H; inversion H; subst. repeat split; auto. discriminate. }
  destruct (Auth.decode_reset_token settings lib now token) as [p|e0] eqn:Hd.
  2:{ unfold Auth.decode_reset_token, Auth.jose_decode in Hd.
      destruct (jwt_decode lib token (JWT_SECRET settings) ["HS256"] now).
      - destruct (ne_str _ _); inversion Hd; subst.
        intros H; inversion H; subst. repeat split; auto. discriminate.
      - inversion Hd; subst.
        intros H; inversion H; subst. repeat split; auto. discriminate. }
  destruct (_ || _).
  { intros H; inversion H; subst. repeat split; auto. discriminate. }
  destruct (UserRepository.get_user_by_email email w) as [[[u|]|e1] w1] eqn:Hu.
  - assert (w1 = w) as ->
      by (unfold UserRepository.get_user_by_email in Hu; now inversion Hu).
    destruct (set_password_hash_found email (Auth.get_password_hash lib pw) w u Hu)
      as [r Hr].
    rewrite Hr. unfold UserRepository.set_refresh_token, Redis.delete. unfold_m.
    simpl. discriminate.
  - assert (w1 = w) as ->
      by (unfold UserRepository.get_user_by_email in Hu; now inversion Hu).
    unfold Redis.delete. unfold_m. simpl.
    intros H; inversion H; subst. repeat split; auto. intros Hne. now elim Hne.
  - assert (w1 = w /\ e1 = MultipleResultsFound) as [-> ->].
    { unfold UserRepository.get_user_by_email in Hu.
      inversion Hu as [[Hs Hw]].
      split; [reflexivity|].
      destruct (List.filter _ (users w)) as [|a [|b l]]; simpl in Hs;
        now inversion Hs. }
    intros H; inversion H; subst. repeat split; auto. discriminate.
Qed.

(** C5. Once a confirm with a token has succeeded, every later confirm with
    the same token, at any time and with any new password, fails with
    "Invalid or expired reset token" and changes nothing. *)
Theorem reset_password_single_use now token pw w w' :
  UserService.reset_password settings lib now token pw w = (Ok tt, w') ->
  forall now' pw',
    UserService.reset_password settings lib now' token pw' w'
    = (Raise UserService.invalid_reset, w').
Proof.
  intros H now' pw'.
  destruct (reset_password_success _ _ _ _ _ H) as (email & _ & Hr & _).
  apply reset_password_absent.
  unfold Redis.lookup. rewrite Hr, lookup_delete_eq. reflexivity.
Qed.

(** Logout writes the user table only. *)
Lemma logout_frame user_email w :
  exists w', UserService.logout user_email w = (Ok tt, w')
    /\ redis w' = redis w
    /\ users w' = map (fun u => if String.eqb (User.email u) user_email
                                then User.with_refresh_token u None else u) (users w).
Proof.
  unfold UserService.logout, UserRepository.set_refresh_token. unfold_m.
  eexists. split; [reflexivity|]. simpl. auto.
Qed.

(** Keys of the two namespaces never coincide. *)
Lemma rt_key_not_pr_key t t' : TokenCache._rt_key t <> UserService.pr_key t'.
Proof. unfold TokenCache._rt_key, UserService.pr_key. discriminate. Qed.

(** A successful confirm leaves every [rt:] entry in Redis. *)
Lemma reset_password_keeps_rt now token pw w w' t :
  UserService.reset_password settings lib now token pw w = (Ok tt, w') ->
  redis w' !! TokenCache._rt_key t = redis w !! TokenCache._rt_key t.
Proof.
  intros H. destruct (reset_password_success _ _ _ _ _ H) as (email & _ & Hr & _).
  rewrite Hr. apply lookup_delete_ne. intros E. symmetry in E.
  now apply rt_key_not_pr_key in E.
Qed.

End Generic.

(** *** Concrete runs *)

(** C3 (as stated) fails: when the subject of a valid reset token is not in
    the user table, the confirm raises "User not found" after deleting the
    reset entry. *)
Lemma failed_confirm_deletes_entry :
  ~ failed_confirm_changes_nothing JoseModel.settings Scenario.lib.
Proof.
  intros Hc.
  destruct (Hc 2100 ghost_reset_tok "new-password" w_ghost
              UserService.user_not_found
              (set_redis (base.delete (UserService.pr_key ghost_reset_tok)
                            (redis w_ghost)) w_ghost))
    as [_ H].
  - vm_compute. reflexivity.
  - vm_compute in H. discriminate.
Qed.

Lemma reset_password_failure_frame_witness :
  UserService.reset_password JoseModel.settings Scenario.lib 2100 ghost_reset_tok
    "new-password" w_ghost
  = (Raise UserService.user_not_found,
     set_redis (base.delete (UserService.pr_key ghost_reset_tok) (redis w_ghost)) w_ghost)
  /\ users (set_redis (base.delete (UserService.pr_key ghost_reset_tok) (redis w_ghost))
              w_ghost) = users w_ghost.
Proof.
  assert (UserService.reset_password JoseModel.settings Scenario.lib 2100
            ghost_reset_tok "new-password" w_ghost
          = (Raise UserService.user_not_found,
             set_redis (base.delete (UserService.pr_key ghost_reset_tok)
                          (redis w_ghost)) w_ghost)) as H
    by (vm_compute; reflexivity).
  split; [exact H|].
  exact (proj1 (reset_password_failure_frame JoseModel.settings Scenario.lib 2100
                  ghost_reset_tok "new-password" w_ghost _ _ H)).
Defined.

Lemma reset_password_single_use_witness :
  UserService.reset_password JoseModel.settings Scenario.lib 2100 reset_tok
    "new-password" w_reset = (Ok tt, w_reset_done)
  /\ forall now' pw',
       UserService.reset_password JoseModel.settings Scenario.lib now' reset_tok pw'
         w_reset_done
       = (Raise UserService.invalid_reset, w_reset_done).
Proof.
  assert (UserService.reset_password JoseModel.settings Scenario.lib 2100 reset_tok
            "new-password" w_reset = (Ok tt, w_reset_done)) as H
    by (vm_compute; reflexivity).
  split; [exact H|].
  exact (reset_password_single_use JoseModel.settings Scenario.lib 2100 reset_tok
           "new-password" w_reset w_reset_done H).
Defined.

(** *** Login, reset request, reset, then the old refresh token *)

(** C4 (defect). Alice logs in, asks for a password reset and confirms it.
    The confirm succeeds, replaces the hash and clears the refresh token on
    her row, but the [rt:] entry of the refresh token issued at login is
    still live in Redis, and a rotation with that old refresh token
    succeeds afterwards.  (After a logout the entry is equally still live.) *)
Theorem password_reset_keeps_refresh_session :
  fst (UserService.login_by_email JoseModel.settings Scenario.lib 1000
         " Alice@Example.com " "old-password" w0)
  = Ok (UserService.token_model access_tok refresh_tok)
  /\ outbox after_request = [(alice_email, reset_tok)]
  /\ fst (UserService.reset_password JoseModel.settings Scenario.lib 2100 reset_tok
            "new-password" after_request) = Ok tt
  /\ map User.refresh_token (users after_reset) = [None]
  /\ map User.password_hash (users after_reset) = [JoseModel.hash "new-password"]
  /\ Redis.lookup 2200 (redis after_reset) (UserService.pr_key reset_tok) = None
  /\ Redis.lookup 2200 (redis after_reset) (TokenCache._rt_key refresh_tok)
     = Some alice_email
  /\ fst (UserService.refresh_access_token JoseModel.settings Scenario.lib 2200
            refresh_tok after_reset)
     = Ok (UserService.token_model
             (JoseModel.encode (claims alice_email "access" 2200 3600)
                "testsecret" "HS256")
             refresh_tok)
  /\ Redis.lookup 1100 (redis after_logout) (TokenCache._rt_key refresh_tok)
     = Some alice_email.
Proof. repeat split; vm_compute; reflexivity. Qed.

End ResetTheory.

(* ===================================================================== *)
(** ** Credential hasher                                                  *)
(* ===================================================================== *)

Module HasherTheory.
Import Spec.

(** C9 (as stated) fails: a digest that is not a bcrypt string makes
    [verify_password] raise. *)
Lemma verify_password_raises_on_unknown_hash :
  Auth.verify_password Scenario.lib "S3cret!" "not-a-bcrypt-digest"
  = Raise UnknownHashError
  /\ ~ verify_total Scenario.lib.
Proof.
  split; [reflexivity|].
  intros H. destruct (H "S3cret!" "not-a-bcrypt-digest") as [b Hb].
  vm_compute in Hb. discriminate.
Qed.

(** C9 (amended). [verify_password] has no handler of its own: for a digest
    that the context does not identify as bcrypt it raises
    [UnknownHashError] whatever the plaintext, and for an identified digest
    its outcome, value or exception, is the bcrypt handler's. *)
Theorem verify_password_outcome (lib : Libs) (plain digest : string) :
  (Auth.bcrypt_identify digest = false ->
   Auth.verify_password lib plain digest = Raise UnknownHashError)
  /\ (Auth.bcrypt_identify digest = true ->
      Auth.verify_password lib plain digest = bcrypt_verify lib plain digest).
Proof.
  unfold Auth.verify_password, Auth.pwd_context_verify.
  split; intros ->; reflexivity.
Qed.

Lemma verify_password_outcome_witness :
  Auth.verify_password Scenario.lib "S3cret!" "not-a-bcrypt-digest"
  = Raise UnknownHashError
  /\ Auth.verify_password Scenario.lib "S3cret!" (JoseModel.hash "S3cret!") = Ok true
  /\ Auth.verify_password Scenario.lib "wrong" (JoseModel.hash "S3cret!") = Ok false.
Proof.
  split; [|split].
  - apply (proj1 (verify_password_outcome Scenario.lib "S3cret!" "not-a-bcrypt-digest")).
    reflexivity.
  - rewrite (proj2 (verify_password_outcome Scenario.lib "S3cret!"
                      (JoseModel.hash "S3cret!"))); reflexivity.
  - rewrite (proj2 (verify_password_outcome Scenario.lib "wrong"
                      (JoseModel.hash "S3cret!"))); reflexivity.
Defined.

End HasherTheory.

(* ===================================================================== *)
(** ** Contact removal                                                    *)
(* ===================================================================== *)

Module RemovalTheory.
Import Spec.

Lemma at_most_one_by_id (l : list Contact.t) (cid : Z) (g : Contact.t -> bool) :
  List.NoDup (map Contact.id l) ->
  (length (List.filter (fun c => Z.eqb (Contact.id c) cid && g c) l) <= 1)%nat.
Proof.
  induction l as [|a l IH]; simpl; intros Hnd; [lia|].
  inversion Hnd as [|? ? Hnotin Hnd']; subst.
  destruct (Contact.id a =? cid) eqn:Ea; simpl; [|auto].
  destruct (g a); simpl; [|auto].
  assert (List.filter (fun c => (Contact.id c =? cid) && g c) l = []) as ->.
  { apply Z.eqb_eq in Ea.
    destruct (List.filter _ l) as [|b r] eqn:F; [reflexivity|exfalso].
    assert (In b (List.filter (fun c => (Contact.id c =? cid) && g c) l)) as Hb
      by (rewrite F; now left).
    apply filter_In in Hb. destruct Hb as [Hin Hb].
    apply andb_true_iff in Hb. destruct Hb as [Hb _]. apply Z.eqb_eq in Hb.
    apply Hnotin. rewrite Ea, <- Hb. now apply in_map. }
  simpl. lia.
Qed.

Lemma unique_by_id (l : list Contact.t) (a b : Contact.t) :
  List.NoDup (map Contact.id l) -> In a l -> In b l -> Contact.id a = Contact.id b -> a = b.
Proof.
  induction l as [|x l IH]; simpl; intros Hnd Ha Hb E; [contradiction|].
  inversion Hnd as [|? ? Hnotin Hnd']; subst.
  destruct Ha as [->|Ha], Hb as [->|Hb]; auto.
  - exfalso. apply Hnotin. rewrite E. now apply in_map.
  - exfalso. apply Hnotin. rewrite <- E. now apply in_map.
Qed.

(** C10. With contact ids unique (the primary key), removing contact
    [contact_id] on behalf of [user] returns [True] whether or not the user
    owns such a contact; the rows of every other owner are all still in the
    table, and rows are only ever taken away. *)
Theorem remove_contact_always_true (contact_id : Z) (user : User.t) (w : world) :
  List.NoDup (map Contact.id (contacts w)) ->
  exists w',
    ContactService.remove_contact contact_id user w = (Ok true, w')
    /\ (forall c, In c (contacts w) -> Contact.user_id c <> User.id user ->
                  In c (contacts w'))
    /\ (forall c, In c (contacts w') -> In c (contacts w))
    /\ (forall c, In c (contacts w) ->
                  Contact.id c <> contact_id -> In c (contacts w'))
    /\ users w' = users w /\ redis w' = redis w.
Proof.
  intros Hnd.
  unfold ContactService.remove_contact, ContactRepository.remove_contact,
    ContactRepository.get_contact_by_id, ContactRepository.delete_row,
    ContactRepository.log.
  unfold_m. simpl.
  pose proof (at_most_one_by_id (contacts w) contact_id
                (fun c => Contact.user_id c =? User.id user) Hnd) as Hlen.
  destruct (List.filter _ (contacts w)) as [|c [|c2 r]] eqn:F; simpl in *; try lia.
  - eexists. split; [reflexivity|]. simpl. auto.
  - assert (In c (List.filter
                    (fun c => (Contact.id c =? contact_id)
                              && (Contact.user_id c =? User.id user)) (contacts w)))
      as Hc by (rewrite F; now left).
    apply filter_In in Hc. destruct Hc as [Hcin Hc].
    apply andb_true_iff in Hc. destruct Hc as [Hid Hown].
    apply Z.eqb_eq in Hid, Hown.
    eexists. split; [reflexivity|]. simpl.
    repeat split; auto.
    + intros x Hx Hne. apply filter_In. split; [assumption|].
      apply negb_true_iff, Z.eqb_neq. intros E.
      assert (x = c) by (eapply unique_by_id; eauto). subst. contradiction.
    + intros x Hx. apply filter_In in Hx. tauto.
    + intros x Hx Hne. apply filter_In. split; [assumption|].
      apply negb_true_iff, Z.eqb_neq. congruence.
Qed.

Lemma remove_contact_always_true_witness :
  List.NoDup (map Contact.id (contacts Scenario.wc))
  /\ (exists w', ContactService.remove_contact 5 Scenario.alice Scenario.wc = (Ok true, w')
                 /\ In Scenario.grace (contacts w'))
  /\ (exists w', ContactService.remove_contact 1 Scenario.alice Scenario.wc = (Ok true, w')
                 /\ In Scenario.grace (contacts w')).
Proof.
  assert (List.NoDup (map Contact.id (contacts Scenario.wc))) as Hnd.
  { simpl. repeat constructor; simpl; intuition discriminate. }
  split; [exact Hnd|]. split.
  - destruct (remove_contact_always_true 5 Scenario.alice Scenario.wc Hnd)
      as (w' & Hrun & Hothers & _).
    exists w'. split; [exact Hrun|].
    apply Hothers; [simpl; tauto | discriminate].
  - destruct (remove_contact_always_true 1 Scenario.alice Scenario.wc Hnd)
      as (w' & Hrun & Hothers & _).
    exists w'. split; [exact Hrun|].
    apply Hothers; [simpl; tauto | discriminate].
Defined.

(** Removing one of her own contacts takes exactly that row away, and asking
    for a contact of Bob's leaves the table as it is. *)
Example remove_contact_runs :
  map Contact.id
      (contacts (snd (ContactService.remove_contact 1 Scenario.alice Scenario.wc)))
  = [2; 3; 4; 5; 6; 7; 8]
  /\ contacts (snd (ContactService.remove_contact 5 Scenario.alice Scenario.wc))
     = Scenario.address_book.
Proof. split; vm_compute; reflexivity. Qed.

End RemovalTheory.

(* ===================================================================== *)
(** ** Read-through query cache                                           *)
(* ===================================================================== *)

Module QueryCacheTheory.
Import Spec.

Section Generic.
Variable eng : Engine.

Lemma get_cached_hit now key w data doc :
  Redis.lookup now (redis w) key = Some data -> usable eng data doc ->
  ContactsCache.get_search_contacts eng now key w = (Ok (Some doc), w)
  /\ ContactsCache.get_birthdays eng now key w = (Ok (Some doc), w).
Proof.
  intros Hl (Hne & Hp & Hnn).
  unfold ContactsCache.get_search_contacts, ContactsCache.get_birthdays,
    ContactsCache.loads, Redis.get.
  unfold_m. rewrite Hl.
  apply String.eqb_neq in Hne. rewrite Hne, Hp.
  destruct doc; try (split; reflexivity). congruence.
Qed.

Lemma get_cached_miss now key w :
  Redis.lookup now (redis w) key = None ->
  ContactsCache.get_search_contacts eng now key w = (Ok None, w)
  /\ ContactsCache.get_birthdays eng now key w = (Ok None, w).
Proof.
  intros Hl.
  unfold ContactsCache.get_search_contacts, ContactsCache.get_birthdays, Redis.get.
  unfold_m. rewrite Hl. split; reflexivity.
Qed.

(** What a stored entry gives back later: the text until the TTL has run
    out, nothing afterwards. *)
Lemma lookup_after_set now now' key v ttl (r : gmap string entry) :
  Redis.lookup now' (<[key := mkEntry v (Some (now + ttl))]> r) key
  = if now' <=? now + ttl then Some v else None.
Proof.
  unfold Redis.lookup. rewrite lookup_insert_eq. reflexivity.
Qed.

(** C8. A search or birthday request looks its key up in Redis.  On a hit
    the cached document is returned and the world is untouched (no SQL
    statement is logged).  On a miss the repository query runs once, its
    rows are stored under the key with a TTL of 60 seconds (search) or 600
    seconds (birthdays), and the rows are returned. *)
Theorem read_through_cache (now : Z) (today : date)
    (first_name last_name email : option string) (skip limit days_ahead : Z)
    (user : User.t) (w : world) :
  let skey := ContactsCache.make_search_key (User.id user) first_name last_name
                email skip limit in
  let bkey := ContactsCache.make_birthdays_key (User.id user) days_ahead in
  (forall data doc,
      Redis.lookup now (redis w) skey = Some data -> usable eng data doc ->
      ContactService.search_contacts eng now first_name last_name email skip limit
        user w = (Ok (ContactService.Cached doc), w))
  /\ (Redis.lookup now (redis w) skey = None ->
      exists rows w1,
        ContactRepository.search_contacts eng first_name last_name email skip
          limit user w = (Ok rows, w1)
        /\ sql_log w1
           = (sql_log w
                ++ [SqlSearch first_name last_name email skip limit (User.id user)])%list
        /\ ContactService.search_contacts eng now first_name last_name email skip
             limit user w
           = (Ok (ContactService.Rows rows),
              set_redis (<[skey := mkEntry (dumps_contacts eng rows) (Some (now + 60))]>
                           (redis w)) w1))
  /\ (forall data doc,
      Redis.lookup now (redis w) bkey = Some data -> usable eng data doc ->
      ContactService.upcoming_birthdays eng now today days_ahead user w
      = (Ok (ContactService.Cached doc), w))
  /\ (Redis.lookup now (redis w) bkey = None ->
      exists rows w1,
        ContactRepository.upcoming_birthdays today days_ahead user w = (Ok rows, w1)
        /\ sql_log w1
           = (sql_log w
                ++ [SqlBirthdays (Dates.mmdd today)
                      (Dates.mmdd (Dates.add_days today days_ahead))
                      (User.id user)])%list
        /\ ContactService.upcoming_birthdays eng now today days_ahead user w
           = (Ok (ContactService.Rows rows),
              set_redis (<[bkey := mkEntry (dumps_contacts eng rows) (Some (now + 600))]>
                           (redis w)) w1)).
Proof.
  intros skey bkey. repeat split.
  - intros data doc Hl Hu.
    unfold ContactService.search_contacts. fold skey. unfold bind.
    now rewrite (proj1 (get_cached_hit _ _ _ _ _ Hl Hu)).
  - intros Hl.
    unfold ContactService.search_contacts. fold skey. unfold bind at 1.
    rewrite (proj1 (get_cached_miss _ _ _ Hl)).
    unfold ContactRepository.search_contacts, ContactRepository.log,
      ContactsCache.set_search_contacts, Redis.set, ContactsCache.SEARCH_TTL.
    unfold_m. simpl. eexists _, _. repeat split.
  - intros data doc Hl Hu.
    unfold ContactService.upcoming_birthdays. fold bkey. unfold bind.
    now rewrite (proj2 (get_cached_hit _ _ _ _ _ Hl Hu)).
  - intros Hl.
    unfold ContactService.upcoming_birthdays. fold bkey. unfold bind at 1.
    rewrite (proj2 (get_cached_miss _ _ _ Hl)).
    unfold ContactRepository.upcoming_birthdays, ContactRepository.log,
      ContactsCache.set_birthdays, Redis.set, ContactsCache.BIRTHDAYS_TTL.
    unfold_m. simpl. eexists _, _. repeat split.
Qed.

End Generic.

Lemma read_through_cache_witness :
  (exists rows w1,
      ContactRepository.search_contacts Scenario.eng (Some " car ") None None 0 100
        Scenario.alice Scenario.wc = (Ok rows, w1)
      /\ sql_log w1 = [SqlSearch (Some " car ") None None 0 100 1]
      /\ ContactService.search_contacts Scenario.eng 100 (Some " car ") None None 0 100
           Scenario.alice Scenario.wc
         = (Ok (ContactService.Rows rows),
            set_redis
              (<[ContactsCache.make_search_key 1 (Some " car ") None None 0 100 :=
                   mkEntry (dumps_contacts Scenario.eng rows) (Some (100 + 60))]>
                 (redis Scenario.wc)) w1))
  /\ ContactService.search_contacts Scenario.eng 130 (Some "CAR") None None 0 100
       Scenario.alice Scenario.w_searched
     = (Ok (ContactService.Cached (JArr [JStr "[1]"])), Scenario.w_searched)
  /\ (exists rows w1,
        ContactRepository.upcoming_birthdays (mkDate 2026 6 1) 7 Scenario.alice
          Scenario.w_searched = (Ok rows, w1)
        /\ sql_log w1 = (sql_log Scenario.w_searched ++ [SqlBirthdays "0601" "0608" 1])%list
        /\ ContactService.upcoming_birthdays Scenario.eng 130 (mkDate 2026 6 1) 7
             Scenario.alice Scenario.w_searched
           = (Ok (ContactService.Rows rows),
              set_redis
                (<[ContactsCache.make_birthdays_key 1 7 :=
                     mkEntry (dumps_contacts Scenario.eng rows) (Some (130 + 600))]>
                   (redis Scenario.w_searched)) w1)).
Proof.
  split; [|split].
  - apply (proj1 (proj2 (read_through_cache Scenario.eng 100 (mkDate 2026 6 1)
                           (Some " car ") None None 0 100 7 Scenario.alice Scenario.wc))).
    vm_compute. reflexivity.
  - apply (proj1 (read_through_cache Scenario.eng 130 (mkDate 2026 6 1)
                    (Some "CAR") None None 0 100 7 Scenario.alice Scenario.w_searched) "[1]").
    + vm_compute. reflexivity.
    + repeat split; discriminate.
  - apply (proj2 (proj2 (proj2 (read_through_cache Scenario.eng 130 (mkDate 2026 6 1)
                                  (Some "CAR") None None 0 100 7 Scenario.alice
                                  Scenario.w_searched)))).
    vm_compute. reflexivity.
Defined.

End QueryCacheTheory.

(* ===================================================================== *)
(** ** Cache keys                                                         *)
(* ===================================================================== *)

Module CacheKeyTheory.
Import Spec.

(** *** Text lemmas *)

Lemma append_cons (c : ascii) (a b : string) : String c a +:+ b = String c (a +:+ b).
Proof. reflexivity. Qed.

Lemma append_nil (b : string) : "" +:+ b = b.
Proof. reflexivity. Qed.

Ltac sapp := rewrite ?append_cons, ?append_nil in *; simpl in *.

Lemma append_assoc (a b c : string) : (a +:+ b) +:+ c = a +:+ (b +:+ c).
Proof. induction a as [|x a IH]; sapp; [reflexivity|now rewrite IH]. Qed.

Lemma startswith_append (p x : string) : startswith p (p +:+ x) = true.
Proof.
  induction p as [|c p IH]; sapp; [reflexivity|].
  now rewrite Ascii.eqb_refl.
Qed.

Lemma append_inv_head (a x y : string) : a +:+ x = a +:+ y -> x = y.
Proof.
  induction a as [|c a IH]; sapp; intros H; [assumption|].
  inversion H. auto.
Qed.

(** Two texts free of [c] that are followed by [c] and agree as a whole
    agree piecewise. *)
Lemma split_at (c : ascii) (a b x y : string) :
  all_chars (fun d => negb (Ascii.eqb d c)) a = true ->
  all_chars (fun d => negb (Ascii.eqb d c)) b = true ->
  a +:+ String c x = b +:+ String c y -> a = b /\ x = y.
Proof.
  revert b. induction a as [|p a IH]; intros [|q b]; sapp; intros Ha Hb H.
  - inversion H. auto.
  - inversion H; subst. rewrite Ascii.eqb_refl in Hb. discriminate.
  - inversion H; subst. rewrite Ascii.eqb_refl in Ha. discriminate.
  - apply andb_true_iff in Ha, Hb. destruct Ha as [_ Ha], Hb as [_ Hb].
    inversion H; subst. destruct (IH b Ha Hb H2) as [-> ->]. auto.
Qed.

Lemma all_chars_impl (P Q : ascii -> bool) (s : string) :
  (forall c, P c = true -> Q c = true) -> all_chars P s = true -> all_chars Q s = true.
Proof.
  intros HPQ. induction s as [|c s IH]; simpl; [auto|].
  intros H. apply andb_true_iff in H. destruct H as [Hc Hs].
  rewrite (HPQ c Hc), (IH Hs). reflexivity.
Qed.

Lemma uint_all_digits (d : Decimal.uint) :
  all_chars is_num_char (NilEmpty.string_of_uint d) = true.
Proof. induction d; simpl; auto. Qed.

Lemma str_all_digits (z : Z) : all_chars is_num_char (str z) = true.
Proof.
  unfold str, NilZero.string_of_int, NilZero.string_of_uint.
  destruct (Z.to_int z) as [d|d]; destruct d; simpl; auto using uint_all_digits.
Qed.

Lemma str_free_of (c : ascii) (z : Z) :
  is_num_char c = false ->
  all_chars (fun d => negb (Ascii.eqb d c)) (str z) = true.
Proof.
  intros Hc. apply (all_chars_impl is_num_char); [|apply str_all_digits].
  intros d Hd. apply negb_true_iff, Ascii.eqb_neq. intros ->. congruence.
Qed.

Lemma str_inj (a b : Z) : str a = str b -> a = b.
Proof.
  unfold str. intros H. apply DecimalZ.to_int_inj.
  assert (forall z, NilZero.int_of_string (NilZero.string_of_int (Z.to_int z))
                    = Some (Z.to_int z)) as Hround.
  { intros z. apply NilZero.isi; destruct z; simpl; try discriminate;
      intros E; inversion E as [E'];
      now apply DecimalPos.Unsigned.to_uint_nonnil in E'. }
  pose proof (Hround a) as Ha. rewrite H, Hround in Ha. now inversion Ha.
Qed.

(** [str a] followed by [c] determines [a] when [c] is not a digit or sign. *)
Lemma str_then (c : ascii) (a b : Z) (x y : string) :
  is_num_char c = false ->
  str a +:+ String c x = str b +:+ String c y -> a = b /\ x = y.
Proof.
  intros Hc H.
  destruct (split_at c _ _ _ _ (str_free_of c a Hc) (str_free_of c b Hc) H) as [E ->].
  split; [now apply str_inj|reflexivity].
Qed.

(** *** Case and white space *)

Lemma is_space_lower_char (c : ascii) : is_space (lower_char c) = is_space c.
Proof. destruct c as [[] [] [] [] [] [] [] []]; reflexivity. Qed.

Lemma lower_char_idem (c : ascii) : lower_char (lower_char c) = lower_char c.
Proof. destruct c as [[] [] [] [] [] [] [] []]; reflexivity. Qed.

Lemma lower_empty (s : string) : String.eqb (lower s) "" = String.eqb s "".
Proof. destruct s; reflexivity. Qed.

Lemma lstrip_lower (s : string) : lstrip (lower s) = lower (lstrip s).
Proof.
  induction s as [|c s IH]; simpl; [reflexivity|].
  rewrite is_space_lower_char. destruct (is_space c); [assumption|reflexivity].
Qed.

Lemma rstrip_lower (s : string) : rstrip (lower s) = lower (rstrip s).
Proof.
  induction s as [|c s IH]; simpl; [reflexivity|].
  rewrite is_space_lower_char, IH, lower_empty.
  destruct (is_space c && String.eqb (rstrip s) ""); reflexivity.
Qed.

Lemma strip_lower (s : string) : strip (lower s) = lower (strip s).
Proof. unfold strip. now rewrite lstrip_lower, rstrip_lower. Qed.

Lemma lstrip_rstrip (s : string) : lstrip (rstrip s) = rstrip (lstrip s).
Proof.
  induction s as [|c s IH]; simpl; [reflexivity|].
  destruct (is_space c) eqn:Ec; simpl.
  - destruct (String.eqb (rstrip s) "") eqn:Er; simpl.
    + apply String.eqb_eq in Er. rewrite <- IH, Er. reflexivity.
    + rewrite Ec. assumption.
  - rewrite Ec. reflexivity.
Qed.

Lemma lstrip_spaces (l s : string) :
  all_chars is_space l = true -> lstrip (l +:+ s) = lstrip s.
Proof.
  induction l as [|c l IH]; sapp; [reflexivity|].
  intros H. apply andb_true_iff in H. destruct H as [-> Hl]. auto.
Qed.

Lemma rstrip_spaces_only (r : string) : all_chars is_space r = true -> rstrip r = "".
Proof.
  induction r as [|c r IH]; simpl; [reflexivity|].
  intros H. apply andb_true_iff in H. destruct H as [-> Hr].
  rewrite (IH Hr). reflexivity.
Qed.

Lemma rstrip_spaces (s r : string) :
  all_chars is_space r = true -> rstrip (s +:+ r) = rstrip s.
Proof.
  intros Hr. induction s as [|c s IH]; sapp.
  - now apply rstrip_spaces_only.
  - now rewrite IH.
Qed.

Lemma strip_spaces (l s r : string) :
  all_chars is_space l = true -> all_chars is_space r = true ->
  strip (l +:+ s +:+ r) = strip s.
Proof.
  intros Hl Hr. unfold strip.
  rewrite (lstrip_spaces l _ Hl), <- !lstrip_rstrip, (rstrip_spaces s r Hr).
  reflexivity.
Qed.

(** *** Filters that differ only in presentation *)

Lemma same_letters_lower (s t : string) : same_letters s t -> lower s = lower t.
Proof.
  induction 1 as [|c d s t Hcd _ IH]; simpl; [reflexivity|].
  rewrite IH. f_equal.
  destruct Hcd as [->|[<-|<-]]; auto using lower_char_idem.
Qed.

Lemma same_filter_norm (a b : option string) :
  same_filter a b -> ContactsCache._norm a = ContactsCache._norm b.
Proof.
  induction 1 as [a|a b _ IH|a b c _ IH1 _ IH2| |s l r Hl Hr|s t Hst];
    unfold ContactsCache._norm in *.
  - reflexivity.
  - now symmetry.
  - now rewrite IH1.
  - reflexivity.
  - now rewrite (strip_spaces l s r Hl Hr).
  - rewrite <- !strip_lower. now rewrite (same_letters_lower s t Hst).
Qed.

(** *** The key *)

Lemma search_payload_inj_page fn ln em skip limit skip' limit' :
  ContactsCache.search_payload fn ln em skip limit
  = ContactsCache.search_payload fn ln em skip' limit' ->
  skip = skip' /\ limit = limit'.
Proof.
  unfold ContactsCache.search_payload, ContactsCache.dumps_payload. intros H.
  repeat apply append_inv_head in H.
  change ("," +:+ ?x) with (String "," x) in H.
  apply str_then in H; [|reflexivity]. destruct H as [-> H].
  repeat apply append_inv_head in H.
  change "}" with (String "}" "") in H.
  apply str_then in H; [|reflexivity]. destruct H as [-> _]. auto.
Qed.

Lemma search_key_owner uid uid' fn ln em skip limit fn' ln' em' skip' limit' :
  ContactsCache.make_search_key uid fn ln em skip limit
  = ContactsCache.make_search_key uid' fn' ln' em' skip' limit' ->
  uid = uid'.
Proof.
  unfold ContactsCache.make_search_key. intros H.
  apply append_inv_head in H.
  change (":" +:+ ?x) with (String ":" x) in H.
  apply str_then in H; [|reflexivity]. tauto.
Qed.

Lemma search_key_digest uid fn ln em skip limit fn' ln' em' skip' limit' :
  ContactsCache.make_search_key uid fn ln em skip limit
  = ContactsCache.make_search_key uid fn' ln' em' skip' limit' ->
  Sha1.hexdigest (ContactsCache.search_payload fn ln em skip limit)
  = Sha1.hexdigest (ContactsCache.search_payload fn' ln' em' skip' limit').
Proof.
  unfold ContactsCache.make_search_key. intros H.
  now repeat apply append_inv_head in H.
Qed.

(** *** Counting digests *)

Lemma bounded_search (P : nat -> Prop) (n : nat) :
  (forall i, P i \/ ~ P i) ->
  (exists i, (i <= n)%nat /\ P i) \/ (forall i, (i <= n)%nat -> ~ P i).
Proof.
  intros D. induction n as [|n IH].
  - destruct (D 0%nat) as [H|H].
    + left. exists 0%nat. split; [lia|assumption].
    + right. intros i Hi. replace i with 0%nat by lia. assumption.
  - destruct IH as [(i & Hi & Pi)|No].
    + left. exists i. split; [lia|assumption].
    + destruct (D (S n)) as [H|H].
      * left. exists (S n). split; [lia|assumption].
      * right. intros i Hi. destruct (Nat.eq_dec i (S n)) as [->|Hne]; [assumption|].
        apply No. lia.
Qed.

(** [n + 1] numbers below [n] cannot all be different. *)
Lemma pigeonhole (n : nat) (f : nat -> Z) :
  (forall i, (i <= n)%nat -> 0 <= f i < Z.of_nat n) ->
  exists i j, (i < j <= n)%nat /\ f i = f j.
Proof.
  revert f. induction n as [|n IH]; intros f Hf.
  - specialize (Hf 0%nat ltac:(lia)). lia.
  - destruct (bounded_search (fun i => f i = f (S n)) n) as [(i & Hi & E)|No].
    { intros i. cbv beta. destruct (Z.eq_dec (f i) (f (S n))); auto. }
    + exists i, (S n). split; [lia|assumption].
    + destruct (IH (fun i => if f i <? f (S n) then f i else f i - 1))
        as (i & j & Hij & E).
      * intros i Hi. cbv beta.
        pose proof (Hf i ltac:(lia)). pose proof (Hf (S n) ltac:(lia)).
        pose proof (No i Hi). cbv beta in *.
        destruct (Z.ltb_spec (f i) (f (S n))); lia.
      * exists i, j. split; [lia|]. cbv beta in E.
        pose proof (No i ltac:(lia)). pose proof (No j ltac:(lia)). cbv beta in *.
        destruct (Z.ltb_spec (f i) (f (S n))), (Z.ltb_spec (f j) (f (S n))); lia.
Qed.

Lemma pigeonhole_Z (B : Z) (f : Z -> Z) :
  0 <= B -> (forall k, 0 <= k <= B -> 0 <= f k < B) ->
  exists a b, 0 <= a < b /\ b <= B /\ f a = f b.
Proof.
  intros HB Hf.
  destruct (pigeonhole (Z.to_nat B) (fun i => f (Z.of_nat i))) as (i & j & Hij & E).
  - intros i Hi. rewrite Z2Nat.id by assumption. apply Hf. lia.
  - exists (Z.of_nat i), (Z.of_nat j). split; [lia|]. split; [lia|assumption].
Qed.

Lemma be_bytes_spec (n : nat) (x : Z) :
  length (Sha1.be_bytes n x) = n /\ Forall is_byte (Sha1.be_bytes n x).
Proof.
  revert x. induction n as [|n IH]; intros x; simpl.
  - split; [reflexivity|constructor].
  - destruct (IH (Z.shiftr x 8)) as [Hl Hb]. split.
    + rewrite length_app, Hl. simpl. lia.
    + apply Forall_app. split; [assumption|]. constructor; [|constructor].
      unfold is_byte. change 255 with (Z.ones 8). rewrite Z.land_ones by lia.
      apply Z.mod_pos_bound. reflexivity.
Qed.

Lemma digest_spec (msg : list Z) :
  length (Sha1.digest msg) = 20%nat /\ Forall is_byte (Sha1.digest msg).
Proof.
  unfold Sha1.digest. cbv zeta.
  set (h := Sha1.blocks _ _ _).
  destruct (be_bytes_spec 4 (Sha1.ra h)) as [L1 B1].
  destruct (be_bytes_spec 4 (Sha1.rb h)) as [L2 B2].
  destruct (be_bytes_spec 4 (Sha1.rc h)) as [L3 B3].
  destruct (be_bytes_spec 4 (Sha1.rd h)) as [L4 B4].
  destruct (be_bytes_spec 4 (Sha1.re h)) as [L5 B5].
  split.
  - rewrite !length_app, L1, L2, L3, L4, L5. reflexivity.
  - repeat (apply Forall_app; split; [assumption|]). assumption.
Qed.

Lemma le_num_bound (l : list Z) :
  Forall is_byte l -> 0 <= le_num l < 256 ^ Z.of_nat (length l).
Proof.
  induction 1 as [|b l Hb Hl IH]; [simpl; lia|].
  cbn [le_num length]. rewrite Nat2Z.inj_succ, Z.pow_succ_r by lia.
  unfold is_byte in Hb. lia.
Qed.

Lemma le_num_inj (l l' : list Z) :
  length l = length l' -> Forall is_byte l -> Forall is_byte l' ->
  le_num l = le_num l' -> l = l'.
Proof.
  intros Hlen Hl. revert l' Hlen.
  induction Hl as [|b l Hb Hl IH]; intros [|b' l'] Hlen Hl' E;
    try discriminate; [reflexivity|].
  inversion Hl' as [|? ? Hb' Hl'']; subst. cbn [le_num] in E.
  unfold is_byte in Hb, Hb'.
  pose proof (le_num_bound l Hl). pose proof (le_num_bound l' Hl'').
  assert (b = b' /\ le_num l = le_num l') as [-> E'] by lia.
  f_equal. apply IH; [now inversion Hlen|assumption|assumption].
Qed.

(** Two pages with the same digest number get the same key. *)
Lemma page_digest_key (uid : Z) (fn ln em : option string) (limit a b : Z) :
  page_digest fn ln em limit a = page_digest fn ln em limit b ->
  ContactsCache.make_search_key uid fn ln em a limit
  = ContactsCache.make_search_key uid fn ln em b limit.
Proof.
  unfold page_digest, ContactsCache.make_search_key, Sha1.hexdigest. intros E.
  apply le_num_inj in E.
  - now rewrite E.
  - transitivity 20%nat; [|symmetry]; apply digest_spec.
  - apply digest_spec.
  - apply digest_spec.
Qed.

Lemma page_digest_bound (fn ln em : option string) (limit k : Z) :
  0 <= page_digest fn ln em limit k < 2 ^ 160.
Proof.
  unfold page_digest.
  pose proof (le_num_bound _ (proj2 (digest_spec
    (Sha1.bytes_of_string (ContactsCache.search_payload fn ln em k limit))))) as H.
  rewrite (proj1 (digest_spec _)) in H. exact H.
Qed.



Ltac same_letter :=
  first [ left; reflexivity | right; left; reflexivity | right; right; reflexivity ].


End CacheKeyTheory.

(* ===================================================================== *)
(** ** Birthday range query                                               *)
(* ===================================================================== *)

Module BirthdayTheory.
Import ContactRepository Spec.

Lemma str_leb_total (a b : string) : str_leb a b = false -> str_leb b a = true.
Proof.
  revert b. induction a as [|x a IH]; intros [|y b]; simpl; try discriminate; auto.
  destruct (code x <? code y) eqn:E1; [discriminate|].
  destruct (code y <? code x) eqn:E2; [reflexivity|]. apply IH.
Qed.

Lemma insert_by_key_in (c x : Contact.t) (l : list Contact.t) :
  In x (insert_by_key c l) <-> x = c \/ In x l.
Proof.
  induction l as [|a l IH]; simpl; [intuition|].
  destruct (str_leb (key c) (key a)); simpl; rewrite ?IH; intuition.
Qed.

Lemma order_by_key_in (x : Contact.t) (l : list Contact.t) :
  In x (order_by_key l) <-> In x l.
Proof.
  induction l as [|a l IH]; simpl; [tauto|].
  rewrite insert_by_key_in, IH. intuition.
Qed.

Lemma insert_by_key_sorted (c : Contact.t) (l : list Contact.t) :
  Sorted key_le l -> Sorted key_le (insert_by_key c l).
Proof.
  induction 1 as [|a l Hs IH Hhd]; simpl; [repeat constructor|].
  destruct (str_leb (key c) (key a)) eqn:E.
  - constructor; [now constructor|]. now constructor.
  - constructor; [assumption|].
    destruct l as [|b l]; simpl.
    + constructor. now apply str_leb_total.
    + destruct (str_leb (key c) (key b)); constructor.
      * now apply str_leb_total.
      * now inversion Hhd.
Qed.

Lemma order_by_key_sorted (l : list Contact.t) : Sorted key_le (order_by_key l).
Proof.
  induction l as [|a l IH]; simpl; [constructor|now apply insert_by_key_sorted].
Qed.

(** The rows selected: the owner's contacts with a birthday whose month-day
    key passes the window test, in ascending key order.  The test reads the
    month and the day of the birthday only. *)
Lemma birthday_rows_spec (today : date) (days : Z) (user : User.t)
    (table : list Contact.t) :
  let start_key := Dates.mmdd today in
  let end_key := Dates.mmdd (Dates.add_days today days) in
  (forall c,
      In c (birthday_rows today days user table)
      <-> In c table /\ Contact.user_id c = User.id user
          /\ exists b, Contact.birthday c = Some b
                       /\ in_window start_key end_key (Dates.mmdd b) = true)
  /\ Sorted key_le (birthday_rows today days user table)
  /\ (forall b y, Dates.mmdd (mkDate y (month b) (day b)) = Dates.mmdd b).
Proof.
  intros start_key end_key. split; [|split].
  - intros c. unfold birthday_rows. rewrite order_by_key_in, filter_In.
    fold start_key end_key. unfold key.
    split.
    + intros [Hin H]. apply andb_true_iff in H. destruct H as [H Hw].
      apply andb_true_iff in H. destruct H as [Ho Hb]. apply Z.eqb_eq in Ho.
      destruct (Contact.birthday c) as [b|]; [|discriminate]. eauto 6.
    + intros (Hin & Ho & b & Hb & Hw). split; [assumption|].
      rewrite Hb, Hw. apply Z.eqb_eq in Ho. now rewrite Ho.
  - apply order_by_key_sorted.
  - reflexivity.
Qed.

(** *** The window test and the calendar *)

Lemma mmdd_check_ok : mmdd_check = true.
Proof. vm_compute. reflexivity. Qed.

Lemma in_range (n : nat) (z : Z) : 1 <= z <= Z.of_nat n -> In z (map Z.of_nat (seq 1 n)).
Proof.
  intros H. apply in_map_iff. exists (Z.to_nat z). split; [lia|].
  apply in_seq. lia.
Qed.

Lemma mmdd_order (a b : date) :
  1 <= month a <= 12 -> 1 <= day a <= 31 ->
  1 <= month b <= 12 -> 1 <= day b <= 31 ->
  str_leb (Dates.mmdd a) (Dates.mmdd b) = (nkey a <=? nkey b).
Proof.
  intros Hma Hda Hmb Hdb.
  pose proof mmdd_check_ok as H. unfold mmdd_check in H.
  rewrite forallb_forall in H.
  assert (In (month a, day a) md_range) as Ia
    by (apply in_prod; apply in_range; simpl; lia).
  assert (In (month b, day b) md_range) as Ib
    by (apply in_prod; apply in_range; simpl; lia).
  specialize (H _ Ia). rewrite forallb_forall in H. specialize (H _ Ib).
  apply Bool.eqb_prop in H. exact H.
Qed.

Ltac months m :=
  let H := fresh in
  assert (m = 1 \/ m = 2 \/ m = 3 \/ m = 4 \/ m = 5 \/ m = 6 \/ m = 7 \/ m = 8
          \/ m = 9 \/ m = 10 \/ m = 11 \/ m = 12) as H by lia;
  repeat (destruct H as [H|H]; [subst m|]); [..|subst m].

Lemma valid_day_bound (d : date) : Dates.valid d -> 1 <= day d <= 31.
Proof.
  destruct d as [y m dd]. unfold Dates.valid, Dates.days_in_month. simpl.
  intros (_ & Hm & Hd). months m; simpl in Hd; destruct (Dates.is_leap y); lia.
Qed.

Lemma next_day_position (d : date) :
  Dates.valid d ->
  Dates.valid (Dates.next_day d)
  /\ doy d <= ylen (year d)
  /\ ((year (Dates.next_day d) = year d /\ doy (Dates.next_day d) = doy d + 1)
      \/ (year (Dates.next_day d) = year d + 1 /\ doy (Dates.next_day d) = 1
          /\ doy d = ylen (year d))).
Proof.
  destruct d as [y m dd].
  unfold Dates.valid, Dates.next_day, doy, ylen, Dates.days_in_month. simpl.
  intros (Hy & Hm & Hd).
  months m; simpl in *; destruct (Dates.is_leap y) eqn:L; simpl in *;
    match goal with
    | |- context [dd <? ?n] => destruct (Z.ltb_spec dd n)
    end; simpl; rewrite ?L; unfold cum; simpl; try lia.
  all: destruct (Dates.is_leap (y + 1)); simpl; lia.
Qed.

Lemma add_days_position (d : date) (k : nat) :
  Dates.valid d -> (k <= 365)%nat ->
  let e := Nat.iter k Dates.next_day d in
  Dates.valid e
  /\ ((year e = year d /\ doy e = doy d + Z.of_nat k)
      \/ (year e = year d + 1 /\ doy e = doy d + Z.of_nat k - ylen (year d))).
Proof.
  intros Hv. induction k as [|k IH]; intros Hk; simpl.
  - split; [assumption|]. left. lia.
  - destruct IH as [He IH]; [lia|].
    destruct (next_day_position _ He) as (Hv' & Hb & Hn).
    destruct (next_day_position _ Hv) as (_ & Hbd & _).
    split; [assumption|].
    assert (365 <= ylen (year d + 1)) by (unfold ylen; destruct (Dates.is_leap _); lia).
    destruct IH as [[Ey Ed]|[Ey Ed]], Hn as [[Ny Nd]|(Ny & Nd & Nl)];
      rewrite ?Ey in *; try (left; lia); try (right; lia).
Qed.

Lemma same_year_order (a b : date) :
  Dates.valid a -> Dates.valid b -> year a = year b -> doy a < doy b ->
  nkey a < nkey b.
Proof.
  destruct a as [y m dd], b as [y' m' dd'].
  unfold Dates.valid, doy, nkey, Dates.days_in_month. simpl.
  intros (_ & Hm & Hd) (_ & Hm' & Hd') <-.
  months m; months m'; unfold cum; simpl in *; destruct (Dates.is_leap y); simpl in *; lia.
Qed.

Lemma next_year_order (a b : date) (k : Z) :
  Dates.valid a -> Dates.valid b -> k <= 364 ->
  doy b = doy a + k - ylen (year a) ->
  nkey b < nkey a.
Proof.
  destruct a as [y m dd], b as [y' m' dd'].
  unfold Dates.valid, doy, nkey, ylen, Dates.days_in_month. simpl.
  intros (_ & Hm & Hd) (_ & Hm' & Hd') Hk.
  months m; months m'; unfold cum; simpl in *;
    destruct (Dates.is_leap y), (Dates.is_leap y'); simpl in *; lia.
Qed.

(** For a window of 1 to 364 days the test on the keys is the calendar's:
    the range branch is taken exactly when the last day of the window is in
    the year of [today], the disjunction exactly when it is in the next. *)
Lemma wrap_test_matches_calendar (today : date) (days : Z) :
  Dates.valid today -> 1 <= days <= 364 ->
  let e := Dates.add_days today days in
  (year e = year today /\ str_leb (Dates.mmdd today) (Dates.mmdd e) = true)
  \/ (year e = year today + 1 /\ str_leb (Dates.mmdd today) (Dates.mmdd e) = false).
Proof.
  intros Hv Hd e.
  destruct (add_days_position today (Z.to_nat days) Hv ltac:(lia)) as [He Hpos].
  fold (Dates.add_days today days) in He, Hpos. fold e in He, Hpos.
  pose proof (valid_day_bound _ Hv) as Bt. pose proof (valid_day_bound _ He) as Be.
  assert (1 <= month today <= 12) as Mt by (destruct Hv; tauto).
  assert (1 <= month e <= 12) as Me by (destruct He; tauto).
  rewrite (mmdd_order today e Mt Bt Me Be).
  destruct Hpos as [[Ey Ed]|[Ey Ed]].
  - left. split; [assumption|].
    assert (nkey today < nkey e) by (apply same_year_order; auto; lia).
    apply Z.leb_le. lia.
  - right. split; [assumption|].
    assert (nkey e < nkey today)
      by (apply (next_year_order today e (Z.of_nat (Z.to_nat days))); auto; lia).
    apply Z.leb_gt. lia.
Qed.

(** Membership for a window of 1 to 364 days, by the calendar: a plain range
    of keys when the window ends in the year of [today], the two half-lines
    when it runs into the next year. *)
Lemma birthday_rows_calendar (today : date) (days : Z) (user : User.t)
    (table : list Contact.t) (c : Contact.t) :
  Dates.valid today -> 1 <= days <= 364 ->
  let start_key := Dates.mmdd today in
  let end_ := Dates.add_days today days in
  let end_key := Dates.mmdd end_ in
  In c (birthday_rows today days user table)
  <-> In c table /\ Contact.user_id c = User.id user
      /\ exists b, Contact.birthday c = Some b
           /\ ((year end_ = year today
                /\ str_leb start_key (Dates.mmdd b) = true
                /\ str_leb (Dates.mmdd b) end_key = true)
               \/ (year end_ = year today + 1
                   /\ (str_leb start_key (Dates.mmdd b) = true
                       \/ str_leb (Dates.mmdd b) end_key = true))).
Proof.
  intros Hv Hd start_key end_ end_key.
  rewrite (proj1 (birthday_rows_spec today days user table) c).
  fold start_key end_ end_key. unfold in_window.
  destruct (wrap_test_matches_calendar today days Hv Hd) as [[Ey Hw]|[Ey Hw]];
    fold end_ in Ey, Hw; fold start_key end_key in Hw; rewrite Hw.
  - split; intros (Hin & Ho & b & Hb & H); (split; [assumption|]);
      (split; [assumption|]); exists b; (split; [assumption|]).
    + left. apply andb_true_iff in H. tauto.
    + destruct H as [(_ & H1 & H2)|(Ey' & _)]; [|lia].
      now rewrite H1, H2.
  - split; intros (Hin & Ho & b & Hb & H); (split; [assumption|]);
      (split; [assumption|]); exists b; (split; [assumption|]).
    + right. apply orb_true_iff in H. tauto.
    + destruct H as [(Ey' & _)|(_ & H)]; [lia|].
      apply orb_true_iff. tauto.
Qed.

(** The two windows of the specification, evaluated on the address book:
    from 28 December for 7 days, 01-02 is in and 12-20 is out; from 1 June
    for 7 days, 06-05 is in and 06-09 is out. *)
Example birthday_windows :
  birthday_rows (mkDate 2026 12 28) 7 Scenario.alice Scenario.address_book
  = [Scenario.carol]
  /\ birthday_rows (mkDate 2026 6 1) 7 Scenario.alice Scenario.address_book
     = [Scenario.erin]
  /\ in_window "1228" "0104" "0102" = true /\ in_window "1228" "0104" "1220" = false
  /\ in_window "0601" "0608" "0605" = true /\ in_window "0601" "0608" "0609" = false
  /\ in_window "0601" "0608" "0608" = true /\ in_window "0601" "0608" "0601" = true.
Proof. repeat split. Qed.

(** C7 (defect). On 3 November 2026 with [days = 365] the window runs to
    3 November 2027 and so passes 31 December, but both keys are ["1103"]
    and the test [start_key <= end_key] selects the plain range: of Alice's
    six contacts with a birthday, all within the coming 365 days, only the
    one born on 11-03 is returned.  One day less and all six are listed. *)
Theorem full_year_window_collapses :
  Dates.add_days (mkDate 2026 11 3) 365 = mkDate 2027 11 3
  /\ Dates.mmdd (mkDate 2026 11 3) = "1103"
  /\ Dates.mmdd (Dates.add_days (mkDate 2026 11 3) 365) = "1103"
  /\ fst (upcoming_birthdays (mkDate 2026 11 3) 365 Scenario.alice Scenario.wc)
     = Ok [Scenario.ivan]
  /\ in_window "1103" "1103" (key Scenario.judy) = false
  /\ fst (upcoming_birthdays (mkDate 2026 11 3) 364 Scenario.alice Scenario.wc)
     = Ok [Scenario.carol; Scenario.erin; Scenario.frank; Scenario.ivan;
           Scenario.dave; Scenario.judy].
Proof. repeat split; vm_compute; reflexivity. Qed.

End BirthdayTheory.

(* ===================================================================== *)
(** ** Text normalisation                                              *)
(* ===================================================================== *)

Module TextTheory.
Import CacheKeyTheory.

Lemma lower_idem (s : string) : lower (lower s) = lower s.
Proof.
  induction s as [|c s IH]; simpl; [reflexivity|].
  now rewrite lower_char_idem, IH.
Qed.

Lemma lstrip_idem (s : string) : lstrip (lstrip s) = lstrip s.
Proof.
  induction s as [|c s IH]; simpl; [reflexivity|].
  destruct (is_space c) eqn:E; [assumption|]. simpl. now rewrite E.
Qed.

Lemma rstrip_idem (s : string) : rstrip (rstrip s) = rstrip s.
Proof.
  induction s as [|c s IH]; simpl; [reflexivity|].
  destruct (is_space c && String.eqb (rstrip s) "") eqn:E; [reflexivity|].
  simpl. now rewrite IH, E.
Qed.

Lemma strip_idem (s : string) : strip (strip s) = strip s.
Proof.
  unfold strip. now rewrite lstrip_rstrip, lstrip_idem, rstrip_idem.
Qed.

(** Normalising an email twice is normalising it once. *)
Lemma normalise_idem (s : string) : lower (strip (lower (strip s))) = lower (strip s).
Proof. now rewrite strip_lower, strip_idem, lower_idem. Qed.

End TextTheory.

(* ===================================================================== *)
(** ** Accounts: login, rotation, logout, reset                        *)
(* ===================================================================== *)

Module AccountTheory.
Import SpecExt.

Section Generic.
Variable settings : Settings.
Variable lib : Libs.

Lemma get_user_by_email_frame email w r w' :
  UserRepository.get_user_by_email email w = (r, w') -> w' = w.
Proof. unfold UserRepository.get_user_by_email. now inversion 1. Qed.

Lemma get_user_by_email_found email w u :
  UserRepository.get_user_by_email email w = (Ok (Some u), w) ->
  In u (users w) /\ User.email u = lower (strip email)
  /\ List.filter (fun v => String.eqb (User.email v) (lower (strip email))) (users w) = [u].
Proof.
  unfold UserRepository.get_user_by_email. intros H.
  assert (UserRepository.scalar_one_or_none
            (List.filter (fun v => String.eqb (User.email v) (lower (strip email)))
               (users w)) = Ok (Some u)) as Hs by now inversion H.
  apply ResetTheory.scalar_one_inv in Hs.
  assert (In u (List.filter (fun v => String.eqb (User.email v) (lower (strip email)))
                  (users w))) as Hin by (rewrite Hs; now left).
  apply filter_In in Hin. destruct Hin as [Hin He]. apply String.eqb_eq in He. auto.
Qed.

Lemma login_lookup_normalised (email : string) (w : world) :
  UserRepository.get_user_by_email (lower (strip email)) w
  = UserRepository.get_user_by_email email w.
Proof.
  unfold UserRepository.get_user_by_email. now rewrite TextTheory.normalise_idem.
Qed.

(** A login that fails changes nothing. *)
Lemma login_failure_frame (now : Z) (email password : string) (w : world)
    (e : exn) (w' : world) :
  UserService.login_by_email settings lib now email password w = (Raise e, w') ->
  w' = w.
Proof.
  unfold UserService.login_by_email. unfold bind at 1.
  rewrite login_lookup_normalised.
  destruct (UserRepository.get_user_by_email email w) as [[[u|]|e0] w1] eqn:Hu;
    pose proof (get_user_by_email_frame _ _ _ _ Hu) as ->.
  - unfold bind at 1. unfold lift.
    destruct (Auth.verify_password lib password (User.password_hash u)) as [[|]|e1].
    + simpl. destruct (User.confirmed u); simpl.
      * unfold UserRepository.set_refresh_token, TokenCache.save_refresh_token,
          Redis.set. unfold_m. simpl. discriminate.
      * unfold raise. now inversion 1.
    + simpl. unfold raise. now inversion 1.
    + now inversion 1.
  - unfold raise. now inversion 1.
  - now inversion 1.
Qed.

(** The right password on an unconfirmed account. *)
Lemma login_not_confirmed (now : Z) (email password : string) (w : world) (u : User.t) :
  UserRepository.get_user_by_email email w = (Ok (Some u), w) ->
  Auth.verify_password lib password (User.password_hash u) = Ok true ->
  User.confirmed u = false ->
  UserService.login_by_email settings lib now email password w
  = (Raise (ValueError "Email not confirmed"), w).
Proof.
  intros Hu Hv Hc. unfold UserService.login_by_email. unfold bind at 1.
  rewrite login_lookup_normalised, Hu. unfold bind, lift. rewrite Hv. simpl.
  now rewrite Hc.
Qed.

(** X1. A login that fails changes nothing.  An unknown email and a wrong
    password give the same error, and the password is checked before the
    confirmation flag: a wrong password on an unconfirmed account is
    reported as invalid credentials, a right one as "Email not confirmed". *)
Theorem login_failure_outcomes (now : Z) (email password : string) (w : world) :
  (forall e w', UserService.login_by_email settings lib now email password w
                = (Raise e, w') -> w' = w)
  /\ (UserRepository.get_user_by_email email w = (Ok None, w) ->
      UserService.login_by_email settings lib now email password w
      = (Raise (ValueError "Invalid credentials"), w))
  /\ (forall u, UserRepository.get_user_by_email email w = (Ok (Some u), w) ->
        (Auth.verify_password lib password (User.password_hash u) = Ok false ->
         UserService.login_by_email settings lib now email password w
         = (Raise (ValueError "Invalid credentials"), w))
        /\ (Auth.verify_password lib password (User.password_hash u) = Ok true ->
            User.confirmed u = false ->
            UserService.login_by_email settings lib now email password w
            = (Raise (ValueError "Email not confirmed"), w))).
Proof.
  split; [|split].
  - intros e w'. apply login_failure_frame.
  - intros Hu. unfold UserService.login_by_email. unfold bind at 1.
    now rewrite login_lookup_normalised, Hu.
  - intros u Hu. split.
    + intros Hv. unfold UserService.login_by_email. unfold bind at 1.
      rewrite login_lookup_normalised, Hu. unfold bind, lift. now rewrite Hv.
    + now apply login_not_confirmed.
Qed.

Lemma filter_map_stable {A} (p : A -> bool) (f : A -> A) (l : list A) :
  (forall x, p (f x) = p x) ->
  List.filter p (map f l) = map f (List.filter p l).
Proof.
  intros Hp. induction l as [|a l IH]; simpl; [reflexivity|].
  rewrite Hp. destruct (p a); simpl; now rewrite IH.
Qed.

(** Storing a refresh token rewrites no email. *)
Lemma set_token_email (e : string) (t : option string) (u : User.t) :
  User.email (if String.eqb (User.email u) e then User.with_refresh_token u t else u)
  = User.email u.
Proof. destruct (String.eqb (User.email u) e); reflexivity. Qed.

(** What a successful login leaves behind. *)
Lemma login_success (now : Z) (email password : string) (w : world)
    (tm : UserService.TokenModel) (w' : world) :
  UserService.login_by_email settings lib now email password w = (Ok tm, w') ->
  exists u,
    UserRepository.get_user_by_email email w = (Ok (Some u), w)
    /\ User.confirmed u = true
    /\ Auth.verify_password lib password (User.password_hash u) = Ok true
    /\ tm = UserService.token_model
              (Auth.create_access_token settings lib now {["sub" := JStr (User.email u)]}
                 (Some (JWT_EXPIRATION_SECONDS settings)))
              (Auth.create_refresh_token settings lib now {["sub" := JStr (User.email u)]}
                 (Some (JWT_REFRESH_EXPIRATION_SECONDS settings)))
    /\ w' = set_redis
              (<[TokenCache._rt_key (UserService.refresh_token tm) :=
                   mkEntry (User.email u)
                     (Some (now + JWT_REFRESH_EXPIRATION_SECONDS settings))]> (redis w))
              (set_users
                 (map (fun v => if String.eqb (User.email v) (User.email u)
                                then User.with_refresh_token v
                                       (Some (UserService.refresh_token tm))
                                else v) (users w)) w).
Proof.
  unfold UserService.login_by_email. unfold bind at 1.
  replace (UserRepository.get_user_by_email (lower (strip email)) w)
    with (UserRepository.get_user_by_email email w)
    by (unfold UserRepository.get_user_by_email;
        now rewrite TextTheory.normalise_idem).
  destruct (UserRepository.get_user_by_email email w) as [[[u|]|e0] w1] eqn:Hu;
    pose proof (get_user_by_email_frame _ _ _ _ Hu) as ->.
  - unfold bind at 1. unfold lift.
    destruct (Auth.verify_password lib password (User.password_hash u))
      as [[|]|e1] eqn:Hv; simpl; try (unfold raise; discriminate).
    destruct (User.confirmed u) eqn:Hc; simpl; [|unfold raise; discriminate].
    unfold UserRepository.set_refresh_token, TokenCache.save_refresh_token, Redis.set.
    unfold_m. simpl. intros H. inversion H; subst; clear H.
    exists u. simpl. repeat split; auto.
  - unfold raise. discriminate.
  - discriminate.
Qed.

(** X2. The refresh token returned by a login can be used at once: while
    its Redis entry is live and the codec verifies it with the subject it
    was minted for, a rotation succeeds, returns the same refresh token and
    leaves the world as the login left it. *)
Theorem login_then_refresh (now now' : Z) (email password : string) (w w' : world)
    (tm : UserService.TokenModel) (payload : dict) :
  UserService.login_by_email settings lib now email password w = (Ok tm, w') ->
  now' < now + JWT_REFRESH_EXPIRATION_SECONDS settings ->
  Auth.decode_refresh_token settings lib now' (UserService.refresh_token tm) = Ok payload ->
  payload !! "sub" = Some (JStr (lower (strip email))) ->
  UserService.refresh_access_token settings lib now' (UserService.refresh_token tm) w'
  = (Ok (UserService.token_model
           (Auth.create_access_token settings lib now'
              {["sub" := JStr (lower (strip email))]}
              (Some (JWT_EXPIRATION_SECONDS settings)))
           (UserService.refresh_token tm)),
     w').
Proof.
  intros Hlogin Hlive Hdec Hsub.
  destruct (login_success _ _ _ _ _ _ Hlogin) as (u & Hu & Hc & Hv & Htm & Hw).
  destruct (get_user_by_email_found _ _ _ Hu) as (Hin & He & Hf).
  set (rt := UserService.refresh_token tm) in *.
  unfold UserService.refresh_access_token, TokenCache.is_refresh_token_active,
    Redis.exists_, UserService.try_decode_refresh.
  unfold bind at 1. unfold bind at 1.
  assert (Redis.lookup now' (redis w') (TokenCache._rt_key rt) = Some (User.email u))
    as Hl.
  { rewrite Hw. unfold Redis.lookup, Redis.alive, set_redis, redis.
    rewrite lookup_insert_eq. unfold expire_at, value.
    apply Z.lt_le_incl, Z.leb_le in Hlive. now rewrite Hlive. }
  rewrite Hl. unfold ret at 1. simpl.
  rewrite Hdec. unfold_m. unfold dict_item. rewrite Hsub. simpl.
  unfold UserRepository.get_user_by_email.
  rewrite TextTheory.normalise_idem.
  assert (users w' = map (fun v => if String.eqb (User.email v) (User.email u)
                                   then User.with_refresh_token v (Some rt) else v)
                         (users w)) as Hus by (rewrite Hw; reflexivity).
  rewrite Hus, filter_map_stable by (intros x; now rewrite set_token_email).
  rewrite Hf. simpl. rewrite String.eqb_refl. simpl. now rewrite He.
Qed.

(** What a rotation that succeeds leaves alone. *)
Lemma refresh_success_parts (now : Z) (token : string) (w w' : world)
    (tm : UserService.TokenModel) :
  UserService.refresh_access_token settings lib now token w = (Ok tm, w') ->
  UserService.refresh_token tm = token
  /\ users w' = users w /\ contacts w' = contacts w /\ outbox w' = outbox w
  /\ (Redis.lookup now (redis w) (TokenCache._rt_key token) <> None -> w' = w).
Proof.
  intros H0.
  { revert H0.
    unfold UserService.refresh_access_token, TokenCache.is_refresh_token_active,
      Redis.exists_, UserService.try_decode_refresh,
      UserRepository.get_user_by_email, UserRepository.get_user_by_refresh_token,
      TokenCache.save_refresh_token, Redis.set.
    unfold_m.
    destruct (Redis.lookup now (redis w) (TokenCache._rt_key token)) as [v|] eqn:Hl;
      simpl.
    - destruct (Auth.decode_refresh_token settings lib now token) as [p|e];
        [|destruct e; discriminate].
      destruct (dict_item p "sub") as [s|e]; [|discriminate]. simpl.
      destruct (Auth.as_str s) as [em|e]; [|discriminate]. simpl.
      destruct (UserRepository.scalar_one_or_none _) as [[u|]|e]; try discriminate.
      intros H. inversion H; subst; clear H. simpl. repeat split; auto.
    - destruct (UserRepository.scalar_one_or_none _) as [[u|]|e]; try discriminate.
      destruct (Auth.decode_refresh_token settings lib now token) as [p|e];
        [|destruct e; discriminate].
      simpl. destruct (_ || _); [discriminate|]. simpl.
      intros H. inversion H; subst; clear H. simpl. repeat split; auto.
      intros Hne. now elim Hne. }
Qed.

(** X3. A rotation that succeeds returns the refresh token it was given and
    never writes the user table; when the token is live in Redis it writes
    nothing at all, so repeating the call gives the same answer. *)
Theorem refresh_success_frame (now : Z) (token : string) (w w' : world)
    (tm : UserService.TokenModel) :
  UserService.refresh_access_token settings lib now token w = (Ok tm, w') ->
  UserService.refresh_token tm = token
  /\ users w' = users w /\ contacts w' = contacts w /\ outbox w' = outbox w
  /\ (Redis.lookup now (redis w) (TokenCache._rt_key token) <> None ->
      w' = w
      /\ UserService.refresh_access_token settings lib now token w' = (Ok tm, w')).
Proof.
  intros H0.
  destruct (refresh_success_parts _ _ _ _ _ H0) as (H1 & H2 & H3 & H4 & H5).
  repeat split; auto.
  rewrite (H5 H) in *. exact H0.
Qed.

(** X4. A rotation that goes through the user row registers the token in
    Redis again: for the whole refresh lifetime after it the token is
    reported active. *)
Theorem refresh_fallback_self_heals (now now' : Z) (token : string) (w w' : world)
    (tm : UserService.TokenModel) :
  Redis.lookup now (redis w) (TokenCache._rt_key token) = None ->
  UserService.refresh_access_token settings lib now token w = (Ok tm, w') ->
  now' < now + JWT_REFRESH_EXPIRATION_SECONDS settings ->
  TokenCache.is_refresh_token_active now' token w' = (Ok true, w').
Proof.
  intros Hdead Hrun Hlive.
  destruct (RotationTheory.refresh_fallback_checked _ _ _ _ _ _ _ Hdead Hrun)
    as (u & p & _ & _ & _ & _ & ->).
  unfold TokenCache.is_refresh_token_active, Redis.exists_. unfold_m.
  unfold Redis.lookup, Redis.alive, set_redis, redis.
  rewrite lookup_insert_eq. unfold expire_at, value.
  apply Z.lt_le_incl, Z.leb_le in Hlive. now rewrite Hlive.
Qed.

Lemma filter_none {A} (p : A -> bool) (l : list A) :
  (forall x, In x l -> p x = false) -> List.filter p l = [].
Proof.
  induction l as [|a l IH]; simpl; intros H; [reflexivity|].
  rewrite (H a) by now left. apply IH. intros x Hx. apply H. now right.
Qed.

(** A token that is neither live in Redis nor stored on a row is refused. *)
Lemma refresh_unknown_token (now : Z) (token : string) (w : world) :
  Redis.lookup now (redis w) (TokenCache._rt_key token) = None ->
  (forall u, In u (users w) -> User.refresh_token u <> Some token) ->
  UserService.refresh_access_token settings lib now token w
  = (Raise UserService.invalid_refresh, w).
Proof.
  intros Hdead Hrows.
  unfold UserService.refresh_access_token, TokenCache.is_refresh_token_active,
    Redis.exists_, UserRepository.get_user_by_refresh_token.
  unfold_m. rewrite Hdead. simpl.
  rewrite filter_none; [reflexivity|].
  intros u Hu. specialize (Hrows u Hu).
  destruct (User.refresh_token u) as [t|]; [|reflexivity].
  apply String.eqb_neq. congruence.
Qed.

(** X5. Logout revokes the stored copy: when the token is not live in Redis
    and only rows of the logged-out email held it, a rotation with it after
    the logout is refused and changes nothing. *)
Theorem logout_revokes_fallback (now : Z) (token user_email : string) (w w1 : world) :
  Redis.lookup now (redis w) (TokenCache._rt_key token) = None ->
  (forall u, In u (users w) -> User.refresh_token u = Some token ->
             User.email u = user_email) ->
  UserService.logout user_email w = (Ok tt, w1) ->
  UserService.refresh_access_token settings lib now token w1
  = (Raise UserService.invalid_refresh, w1).
Proof.
  intros Hdead Honly Hout.
  unfold UserService.logout, UserRepository.set_refresh_token in Hout.
  unfold_m. inversion Hout; subst; clear Hout.
  apply refresh_unknown_token; [exact Hdead|].
  simpl. intros u Hu. apply in_map_iff in Hu. destruct Hu as (v & <- & Hv).
  destruct (String.eqb (User.email v) user_email) eqn:E; simpl; [discriminate|].
  intros Ht. apply String.eqb_neq in E. apply E. now apply Honly.
Qed.

(** A reset request for an email nobody registered. *)
Lemma request_unknown (now : Z) (email : string) (w : world) :
  UserRepository.get_user_by_email email w = (Ok None, w) ->
  UserService.request_password_reset settings lib now email w = (Ok tt, w).
Proof.
  intros Hu. unfold UserService.request_password_reset. unfold bind.
  now rewrite login_lookup_normalised, Hu.
Qed.

(** A reset request for a registered email. *)
Lemma request_known (now : Z) (email : string) (w : world) (u : User.t) :
  UserRepository.get_user_by_email email w = (Ok (Some u), w) ->
  let token :=
    Auth.create_reset_token settings lib now {["sub" := JStr (User.email u)]}
      (RESET_TOKEN_EXPIRATION_SECONDS settings) in
  UserService.request_password_reset settings lib now email w
  = (Ok tt,
     set_outbox (outbox w ++ [(User.email u, token)])%list
       (set_redis (<[UserService.pr_key token :=
                       mkEntry (User.email u) (Some (now + 900))]> (redis w)) w)).
Proof.
  intros Hu token. unfold UserService.request_password_reset. unfold bind at 1.
  rewrite login_lookup_normalised, Hu. fold token.
  unfold Redis.setex, Redis.set, UserService.send_password_reset_email.
  unfold_m. reflexivity.
Qed.

(** X6. A reset request for an email nobody registered does nothing and
    reports nothing.  For a registered email it stores the new token under
    [pr:] bound to the account's email for 900 seconds and queues one mail
    with that token, without touching the user table. *)
Theorem request_password_reset_effects (now : Z) (email : string) (w : world) :
  (UserRepository.get_user_by_email email w = (Ok None, w) ->
   UserService.request_password_reset settings lib now email w = (Ok tt, w))
  /\ (forall u, UserRepository.get_user_by_email email w = (Ok (Some u), w) ->
      let token :=
        Auth.create_reset_token settings lib now {["sub" := JStr (User.email u)]}
          (RESET_TOKEN_EXPIRATION_SECONDS settings) in
      UserService.request_password_reset settings lib now email w
      = (Ok tt,
         set_outbox (outbox w ++ [(User.email u, token)])%list
           (set_redis (<[UserService.pr_key token :=
                           mkEntry (User.email u) (Some (now + 900))]> (redis w)) w))).
Proof.
  split; [apply request_unknown|]. intros u Hu. now apply request_known.
Qed.

(** What a successful confirm does to the user table. *)
Lemma reset_password_rows (now : Z) (token pw : string) (w w' : world) :
  UserService.reset_password settings lib now token pw w = (Ok tt, w') ->
  exists email u,
    Redis.lookup now (redis w) (UserService.pr_key token) = Some email
    /\ UserRepository.get_user_by_email email w = (Ok (Some u), w)
    /\ users w'
       = map (clear_token email)
           (map (reset_row (User.email u) (Auth.get_password_hash lib pw)) (users w)).
Proof.
  unfold UserService.reset_password, Redis.get. unfold_m.
  destruct (Redis.lookup now (redis w) (UserService.pr_key token)) as [email|];
    [|discriminate].
  destruct (String.eqb email ""); [discriminate|].
  destruct (Auth.decode_reset_token settings lib now token) as [p|e].
  2:{ destruct e; discriminate. }
  destruct (_ || _); [discriminate|].
  destruct (UserRepository.get_user_by_email email w) as [[[u|]|e] w1] eqn:Hu.
  - pose proof (get_user_by_email_frame _ _ _ _ Hu) as ->.
    destruct (ResetTheory.set_password_hash_found email
                (Auth.get_password_hash lib pw) w u Hu) as [r Hr].
    rewrite Hr. unfold UserRepository.set_refresh_token, Redis.delete. unfold_m.
    simpl. intros H. inversion H; subst; clear H. exists email, u. auto.
  - unfold Redis.delete. unfold_m. discriminate.
  - discriminate.
Qed.

(** X7. Request and confirm compose: within 900 seconds of the request, and
    as long as the codec verifies the mailed token with the account's email
    as subject, the confirm succeeds; the account's row then carries the
    hash of the new password and no refresh token, every other row is as it
    was, and the reset entry is gone. *)
Theorem request_then_reset (now now' : Z) (email pw : string) (w w1 : world)
    (u : User.t) (payload : dict) :
  UserRepository.get_user_by_email email w = (Ok (Some u), w) ->
  User.email u <> "" ->
  UserService.request_password_reset settings lib now email w = (Ok tt, w1) ->
  let token :=
    Auth.create_reset_token settings lib now {["sub" := JStr (User.email u)]}
      (RESET_TOKEN_EXPIRATION_SECONDS settings) in
  now' < now + 900 ->
  Auth.decode_reset_token settings lib now' token = Ok payload ->
  payload !! "sub" = Some (JStr (User.email u)) ->
  exists w2,
    UserService.reset_password settings lib now' token pw w1 = (Ok tt, w2)
    /\ users w2 = map (reset_row (User.email u) (Auth.get_password_hash lib pw)) (users w)
    /\ redis w2 !! UserService.pr_key token = None
    /\ outbox w2 = (outbox w ++ [(User.email u, token)])%list.
Proof.
  intros Hu Hne Hreq token Hlive Hdec Hsub.
  rewrite (request_known now email w u Hu) in Hreq.
  fold token in Hreq. inversion Hreq; subst w1; clear Hreq.
  destruct (get_user_by_email_found _ _ _ Hu) as (Hin & He & Hf).
  pose proof (TokenTheory.decode_reset_token_checks_type _ _ _ _ _ Hdec) as Hty.
  unfold UserService.reset_password, Redis.get. unfold bind at 1.
  unfold Redis.lookup, Redis.alive, set_outbox, set_redis, redis.
  rewrite lookup_insert_eq. unfold expire_at, value.
  apply Z.lt_le_incl, Z.leb_le in Hlive. rewrite Hlive.
  apply String.eqb_neq in Hne. rewrite Hne, Hdec, Hty.
  unfold dict_get. rewrite Hsub. simpl. rewrite String.eqb_refl. simpl.
  unfold bind at 1.
  set (w1 := mkWorld _ _ _ _ _).
  assert (UserRepository.get_user_by_email (User.email u) w1 = (Ok (Some u), w1))
    as Hu1.
  { unfold UserRepository.get_user_by_email. subst w1. simpl.
    rewrite He, TextTheory.normalise_idem, Hf. reflexivity. }
  rewrite Hu1.
  destruct (ResetTheory.set_password_hash_found (User.email u)
              (Auth.get_password_hash lib pw) w1 u Hu1) as [r Hr].
  unfold bind at 1. rewrite Hr.
  unfold UserRepository.set_refresh_token, Redis.delete. unfold_m. simpl.
  eexists. split; [reflexivity|]. simpl. repeat split.
  - rewrite map_map. apply map_ext. intros v. unfold reset_row.
    destruct (String.eqb (User.email v) (User.email u)) eqn:E; simpl; now rewrite E.
  - apply lookup_delete_eq.
Qed.

(** X8. A password reset revokes the stored copy of the refresh token: when
    the token is not live in Redis and only rows of the account's email held
    it, a rotation with it after the confirm is refused. *)
Theorem reset_revokes_fallback (now now' : Z) (token pw rt : string) (w w' : world) :
  UserService.reset_password settings lib now token pw w = (Ok tt, w') ->
  Redis.lookup now' (redis w) (TokenCache._rt_key rt) = None ->
  (forall email v, Redis.lookup now (redis w) (UserService.pr_key token) = Some email ->
                   In v (users w) -> User.refresh_token v = Some rt ->
                   User.email v = email) ->
  UserService.refresh_access_token settings lib now' rt w'
  = (Raise UserService.invalid_refresh, w').
Proof.
  intros Hrun Hdead Honly.
  destruct (reset_password_rows _ _ _ _ _ Hrun) as (email & u & Hl & Hu & Hus).
  apply refresh_unknown_token.
  - unfold Redis.lookup in *.
    rewrite (ResetTheory.reset_password_keeps_rt _ _ _ _ _ _ _ rt Hrun). exact Hdead.
  - rewrite Hus. intros x Hx.
    apply in_map_iff in Hx. destruct Hx as (y & <- & Hy).
    apply in_map_iff in Hy. destruct Hy as (v & <- & Hv).
    unfold clear_token, reset_row.
    destruct (String.eqb (User.email v) (User.email u)) eqn:E1; simpl.
    + destruct (String.eqb (User.email v) email); simpl; discriminate.
    + destruct (String.eqb (User.email v) email) eqn:E2; simpl; [discriminate|].
      intros Ht. apply String.eqb_neq in E2. apply E2.
      now apply (Honly email v Hl Hv).
Qed.

Lemma identities_map (f : User.t -> User.t) (w w' : world) :
  (forall u, User.id (f u) = User.id u /\ User.username (f u) = User.username u
             /\ User.email (f u) = User.email u) ->
  users w' = map f (users w) -> identities w' = identities w.
Proof.
  intros Hf Hus. unfold identities. rewrite Hus, map_map. apply map_ext.
  intros u. destruct (Hf u) as (-> & -> & ->). reflexivity.
Qed.

Lemma clear_token_identity (e : string) (u : User.t) :
  User.id (clear_token e u) = User.id u
  /\ User.username (clear_token e u) = User.username u
  /\ User.email (clear_token e u) = User.email u.
Proof. unfold clear_token. destruct (String.eqb _ _); auto. Qed.

Lemma reset_row_identity (e h : string) (u : User.t) :
  User.id (reset_row e h u) = User.id u
  /\ User.username (reset_row e h u) = User.username u
  /\ User.email (reset_row e h u) = User.email u.
Proof. unfold reset_row. destruct (String.eqb _ _); auto. Qed.

(** The user table after a confirm that raised. *)
Lemma reset_password_raise_users (now : Z) (token pw : string) (w w' : world) (e : exn) :
  UserService.reset_password settings lib now token pw w = (Raise e, w') ->
  users w' = users w.
Proof.
  unfold UserService.reset_password, Redis.get. unfold_m.
  destruct (Redis.lookup now (redis w) (UserService.pr_key token)) as [email|];
    [|now inversion 1].
  destruct (String.eqb email ""); [now inversion 1|].
  destruct (Auth.decode_reset_token settings lib now token) as [p|e0].
  2:{ destruct e0; now inversion 1. }
  destruct (_ || _); [now inversion 1|].
  destruct (UserRepository.get_user_by_email email w) as [[[u|]|e1] w1] eqn:Hu;
    pose proof (get_user_by_email_frame _ _ _ _ Hu) as ->.
  - destruct (ResetTheory.set_password_hash_found email
                (Auth.get_password_hash lib pw) w u Hu) as [r Hr].
    rewrite Hr. unfold UserRepository.set_refresh_token, Redis.delete. unfold_m.
    simpl. discriminate.
  - unfold Redis.delete. unfold_m. simpl. now inversion 1.
  - now inversion 1.
Qed.

(** X9. No operation of the user service rewrites a key, a username or an
    email: whatever the outcome of a login, a rotation, a logout, a reset
    request or a reset confirm, the identity columns of the user table are
    the same afterwards, in the same order. *)
Theorem user_service_keeps_identities (now : Z) (a b : string) (w : world) :
  identities (snd (UserService.login_by_email settings lib now a b w)) = identities w
  /\ identities (snd (UserService.refresh_access_token settings lib now a w))
     = identities w
  /\ identities (snd (UserService.logout a w)) = identities w
  /\ identities (snd (UserService.request_password_reset settings lib now a w))
     = identities w
  /\ identities (snd (UserService.reset_password settings lib now a b w))
     = identities w.
Proof.
  repeat split.
  - destruct (UserService.login_by_email settings lib now a b w) as [[tm|e] w'] eqn:H;
      simpl.
    + destruct (login_success _ _ _ _ _ _ H) as (u & _ & _ & _ & _ & ->).
      eapply identities_map; [|reflexivity].
      intros v. simpl. destruct (String.eqb _ _); auto.
    + now rewrite (login_failure_frame now a b w e w' H).
  - destruct (UserService.refresh_access_token settings lib now a w)
      as [[tm|e] w'] eqn:H; simpl.
    + destruct (refresh_success_parts _ _ _ _ _ H) as (_ & Hus & _).
      unfold identities. now rewrite Hus.
    + now rewrite (RotationTheory.refresh_failure_frame _ _ _ _ _ _ _ H).
  - unfold UserService.logout, UserRepository.set_refresh_token. unfold_m. simpl.
    eapply identities_map; [|reflexivity].
    intros v. simpl. destruct (String.eqb _ _); auto.
  - destruct (UserRepository.get_user_by_email a w) as [[[u|]|e] w1] eqn:Hu;
      pose proof (get_user_by_email_frame _ _ _ _ Hu) as ->.
    + now rewrite (request_known now a w u Hu).
    + now rewrite (request_unknown now a w Hu).
    + unfold UserService.request_password_reset. unfold bind.
      now rewrite login_lookup_normalised, Hu.
  - destruct (UserService.reset_password settings lib now a b w) as [[[]|e] w'] eqn:H;
      simpl.
    + destruct (reset_password_rows _ _ _ _ _ H) as (email & u & _ & _ & Hus).
      unfold identities. rewrite Hus, !map_map. apply map_ext. intros v.
      destruct (clear_token_identity email
                  (reset_row (User.email u) (Auth.get_password_hash lib b) v))
        as (-> & -> & ->).
      destruct (reset_row_identity (User.email u) (Auth.get_password_hash lib b) v)
        as (-> & -> & ->). reflexivity.
    + unfold identities. now rewrite (reset_password_raise_users _ _ _ _ _ _ H).
Qed.

(** [get_current_user] never writes. *)
Lemma get_current_user_frame (now : Z) (token : string) (w : world)
    (r : result User.t) (w' : world) :
  Auth.get_current_user settings lib now token w = (r, w') -> w' = w.
Proof.
  unfold Auth.get_current_user.
  destruct (Auth.jose_decode settings lib now token [JWT_ALGORITHM settings]) as [p|e];
    [|destruct e; unfold raise; now inversion 1].
  destruct (ne_str _ _); [unfold raise; now inversion 1|].
  destruct (negb _); [unfold raise; now inversion 1|].
  unfold_m. destruct (Auth.as_str _) as [s|e]; [|now inversion 1].
  unfold UserRepository.get_user_by_email.
  destruct (UserRepository.scalar_one_or_none _) as [[x|]|e]; now inversion 1.
Qed.

(** X10. [get_current_user] never writes.  The row it returns is in the
    user table, and the token verified as an access token whose subject,
    trimmed and lower-cased, is the email of that row.  A token the codec
    rejects is answered with 401. *)
Theorem get_current_user_sound (now : Z) (token : string) (w : world) :
  (forall r w', Auth.get_current_user settings lib now token w = (r, w') -> w' = w)
  /\ (forall u w', Auth.get_current_user settings lib now token w = (Ok u, w') ->
      In u (users w)
      /\ exists payload sub,
           Auth.jose_decode settings lib now token [JWT_ALGORITHM settings] = Ok payload
           /\ dict_get payload "token_type" = JStr "access"
           /\ dict_get payload "sub" = JStr sub
           /\ User.email u = lower (strip sub))
  /\ (jwt_decode lib token (JWT_SECRET settings) [JWT_ALGORITHM settings] now = None ->
      Auth.get_current_user settings lib now token w = (Raise Auth.cred_exc, w)).
Proof.
  unfold Auth.get_current_user, Auth.jose_decode.
  destruct (jwt_decode lib token (JWT_SECRET settings) [JWT_ALGORITHM settings] now)
    as [p|]; [|repeat split; try discriminate; unfold raise; now inversion 1].
  destruct (ne_str (dict_get p "token_type") "access") eqn:Ht; simpl.
  { repeat split; try discriminate; unfold raise; try now inversion 1. }
  destruct (truthy (dict_get p "sub")) eqn:Hs; simpl.
  2:{ repeat split; try discriminate; unfold raise; try now inversion 1. }
  unfold ne_str in Ht. destruct (dict_get p "token_type") as [| | |ty| |] eqn:Hty;
    try discriminate.
  apply negb_false_iff, String.eqb_eq in Ht. subst ty.
  destruct (dict_get p "sub") as [| | |sub| |] eqn:Hsub; simpl;
    try (repeat split; try discriminate; unfold_m; simpl; now inversion 1).
  unfold_m. simpl.
  destruct (UserRepository.scalar_one_or_none _) as [[u|]|e] eqn:Hq.
  - assert (UserRepository.get_user_by_email sub w = (Ok (Some u), w)) as Hu
      by (unfold UserRepository.get_user_by_email; now rewrite Hq).
    split; [|split].
    + intros r w'. now inversion 1.
    + intros u' w' H. inversion H; subst.
      destruct (get_user_by_email_found _ _ _ Hu) as (Hin & He & _).
      split; [assumption|]. exists p, sub. auto.
    + discriminate.
  - split; [|split]; try discriminate; intros r w'; now inversion 1.
  - split; [|split]; try discriminate; intros r w'; now inversion 1.
Qed.

Lemma filter_map_via {A} (p q : A -> bool) (f : A -> A) (l : list A) :
  (forall x, In x l -> p (f x) = q x) ->
  List.filter p (map f l) = map f (List.filter q l).
Proof.
  induction l as [|a l IH]; simpl; intros H; [reflexivity|].
  rewrite (H a) by now left.
  rewrite IH by (intros x Hx; apply H; now right).
  destruct (q a); reflexivity.
Qed.

(** X24. The new password works after a reset.  When a confirm has
    succeeded for a confirmed account, and bcrypt accepts the new password
    against the hash it made of it, a login with the account's email and
    the new password succeeds. *)
Theorem reset_then_login (now now' : Z) (token pw : string) (w w' : world)
    (email : string) (u : User.t) :
  UserService.reset_password settings lib now token pw w = (Ok tt, w') ->
  Redis.lookup now (redis w) (UserService.pr_key token) = Some email ->
  UserRepository.get_user_by_email email w = (Ok (Some u), w) ->
  User.confirmed u = true ->
  Auth.verify_password lib pw (Auth.get_password_hash lib pw) = Ok true ->
  exists tm w'',
    UserService.login_by_email settings lib now' email pw w' = (Ok tm, w'').
Proof.
  intros Hrun Hl Hu Hc Hv.
  destruct (reset_password_rows _ _ _ _ _ Hrun) as (email' & u' & Hl' & Hu' & Hus).
  rewrite Hl in Hl'. inversion Hl'; subst email'; clear Hl'.
  rewrite Hu in Hu'. inversion Hu'; subst u'; clear Hu'.
  destruct (get_user_by_email_found _ _ _ Hu) as (Hin & He & Hf).
  set (row := clear_token email (reset_row (User.email u)
                                   (Auth.get_password_hash lib pw) u)).
  assert (UserRepository.get_user_by_email email w' = (Ok (Some row), w')) as Hrow.
  { unfold UserRepository.get_user_by_email. rewrite Hus.
    rewrite filter_map_stable
      by (intros x; now rewrite (proj2 (proj2 (clear_token_identity email x)))).
    rewrite filter_map_stable
      by (intros x; now rewrite (proj2 (proj2 (reset_row_identity _ _ x)))).
    rewrite Hf. reflexivity. }
  assert (User.password_hash row = Auth.get_password_hash lib pw
          /\ User.confirmed row = true) as [Hh Hc'].
  { subst row. unfold clear_token, reset_row. rewrite String.eqb_refl. simpl.
    destruct (String.eqb _ _); simpl; auto. }
  unfold UserService.login_by_email. unfold bind at 1.
  rewrite login_lookup_normalised, Hrow. unfold bind at 1. unfold lift.
  rewrite Hh, Hv. simpl. rewrite Hc'. simpl.
  unfold UserRepository.set_refresh_token, TokenCache.save_refresh_token, Redis.set.
  unfold_m. simpl. eauto.
Qed.

(** X25. The copy of the refresh token on the user row keeps a session
    alive when Redis has lost it.  After a login that stored a token no
    other row holds, and with Redis emptied, a rotation with that token
    still succeeds, provided the codec verifies it as a refresh token of the
    account, and the token is registered in Redis again. *)
Theorem login_survives_redis_flush (now now' : Z) (email password : string)
    (w w1 : world) (tm : UserService.TokenModel) (payload : dict) :
  UserService.login_by_email settings lib now email password w = (Ok tm, w1) ->
  (forall v, In v (users w) ->
             User.refresh_token v <> Some (UserService.refresh_token tm)) ->
  Auth.decode_refresh_token settings lib now' (UserService.refresh_token tm)
  = Ok payload ->
  payload !! "token_type" = Some (JStr "refresh") ->
  payload !! "sub" = Some (JStr (lower (strip email))) ->
  UserService.refresh_access_token settings lib now' (UserService.refresh_token tm)
    (set_redis ∅ w1)
  = (Ok (UserService.token_model
           (Auth.create_access_token settings lib now'
              {["sub" := JStr (lower (strip email))]}
              (Some (JWT_EXPIRATION_SECONDS settings)))
           (UserService.refresh_token tm)),
     set_redis
       {[ TokenCache._rt_key (UserService.refresh_token tm) :=
            mkEntry (lower (strip email))
              (Some (now' + JWT_REFRESH_EXPIRATION_SECONDS settings)) ]}
       w1).
Proof.
  intros Hlogin Hfresh Hdec Hty Hsub.
  destruct (login_success _ _ _ _ _ _ Hlogin) as (u & Hu & Hc & Hv & Htm & Hw).
  destruct (get_user_by_email_found _ _ _ Hu) as (Hin & He & Hf).
  set (rt := UserService.refresh_token tm) in *.
  assert (users w1 = map (fun v => if String.eqb (User.email v) (User.email u)
                                   then User.with_refresh_token v (Some rt) else v)
                         (users w)) as Hus by (rewrite Hw; reflexivity).
  unfold UserService.refresh_access_token, TokenCache.is_refresh_token_active,
    Redis.exists_, UserService.try_decode_refresh,
    UserRepository.get_user_by_refresh_token, TokenCache.save_refresh_token, Redis.set.
  unfold_m. simpl. unfold Redis.lookup. rewrite lookup_empty. simpl.
  rewrite Hus.
  rewrite (filter_map_via _ (fun v => String.eqb (User.email v) (User.email u))).
  2:{ intros v Hvin. specialize (Hfresh v Hvin).
      destruct (String.eqb (User.email v) (User.email u)); simpl.
      - apply String.eqb_refl.
      - destruct (User.refresh_token v) as [t|]; [|reflexivity].
        apply String.eqb_neq. congruence. }
  rewrite He, Hf. simpl.
  rewrite He, String.eqb_refl. simpl. rewrite Hdec.
  unfold dict_get. rewrite Hty, Hsub. simpl.
  rewrite ?He, ?String.eqb_refl. simpl. rewrite ?He.
  rewrite insert_empty. reflexivity.
Qed.

End Generic.
End AccountTheory.

(* ===================================================================== *)
(** ** Registration and confirmation                                   *)
(* ===================================================================== *)

Module RegistrationTheory.
Import SpecExt SpecExt2 AccountTheory.

Lemma fresh_id_above (us : list User.t) (u : User.t) :
  In u us -> User.id u < UserRepositoryExt.fresh_id us.
Proof.
  unfold UserRepositoryExt.fresh_id.
  induction us as [|a us IH]; simpl; intros H; [contradiction|].
  destruct H as [->|H]; [lia|]. specialize (IH H). lia.
Qed.

Lemma fresh_id_new (us : list User.t) :
  ~ In (UserRepositoryExt.fresh_id us) (map User.id us).
Proof.
  intros H. apply in_map_iff in H. destruct H as (u & E & Hu).
  apply fresh_id_above in Hu. lia.
Qed.

Lemma existsb_false_not_in {A} (f : A -> bool) (l : list A) :
  existsb f l = false -> forall x, In x l -> f x = false.
Proof.
  intros H x Hx. destruct (f x) eqn:E; [|reflexivity].
  assert (existsb f l = true) by (apply existsb_exists; eauto). congruence.
Qed.

Lemma nodup_snoc {A} (l : list A) (x : A) :
  List.NoDup l -> ~ In x l -> List.NoDup (l ++ [x]).
Proof.
  induction l as [|a l IH]; simpl; intros Hnd Hx.
  - constructor; [intros []|constructor].
  - inversion Hnd as [|? ? Ha Hl]; subst. constructor.
    + rewrite in_app_iff. simpl. intros [H|[H|[]]]; [auto|]. subst. apply Hx. now left.
    + apply IH; [assumption|]. intros H. apply Hx. now right.
Qed.

Lemma unique_by_email (l : list User.t) (a b : User.t) :
  List.NoDup (map User.email l) -> In a l -> In b l ->
  User.email a = User.email b -> a = b.
Proof.
  induction l as [|x l IH]; simpl; intros Hnd Ha Hb E; [contradiction|].
  inversion Hnd as [|? ? Hn Hn']; subst.
  destruct Ha as [->|Ha], Hb as [->|Hb]; auto.
  - exfalso. apply Hn. rewrite E. now apply in_map.
  - exfalso. apply Hn. rewrite <- E. now apply in_map.
Qed.

(** In a table with unique emails a lookup by email never finds two rows. *)
Lemma get_user_by_email_unique (email : string) (w : world) :
  List.NoDup (map User.email (users w)) ->
  (exists u, UserRepository.get_user_by_email email w = (Ok (Some u), w))
  \/ (UserRepository.get_user_by_email email w = (Ok None, w)
      /\ forall u, In u (users w) -> User.email u <> lower (strip email)).
Proof.
  intros Hem. unfold UserRepository.get_user_by_email.
  destruct (List.filter _ (users w)) as [|a [|b l]] eqn:F; simpl.
  - right. split; [reflexivity|]. intros u Hu E.
    assert (In u (List.filter (fun v => String.eqb (User.email v) (lower (strip email)))
                    (users w))) as H
      by (apply filter_In; split; [assumption|now apply String.eqb_eq]).
    rewrite F in H. contradiction.
  - left. eauto.
  - exfalso.
    assert (In a (List.filter (fun v => String.eqb (User.email v) (lower (strip email)))
                    (users w))) as Ha by (rewrite F; now left).
    assert (In b (List.filter (fun v => String.eqb (User.email v) (lower (strip email)))
                    (users w))) as Hb by (rewrite F; right; now left).
    apply filter_In in Ha, Hb. destruct Ha as [Ha Ea], Hb as [Hb Eb].
    apply String.eqb_eq in Ea, Eb.
    assert (a = b) as -> by (eapply unique_by_email; eauto; congruence).
    (* the filtered list keeps the order of a duplicate-free table *)
    assert (List.NoDup (map User.email (List.filter
              (fun v => String.eqb (User.email v) (lower (strip email))) (users w))))
      as Hnd.
    { clear - Hem. induction (users w) as [|x l IH]; simpl; [constructor|].
      inversion Hem as [|? ? Hn Hn']; subst.
      destruct (String.eqb _ _); simpl; [|auto].
      constructor; [|auto]. intros H. apply Hn.
      apply in_map_iff in H. destruct H as (y & E & Hy).
      apply filter_In in Hy. rewrite <- E. apply in_map. tauto. }
    rewrite F in Hnd. simpl in Hnd. inversion Hnd as [|? ? Hn _]; subst.
    apply Hn. now left.
Qed.

Section Generic.
Variable lib : Libs.
Variable Response : Type.
Variable model_validate : User.t -> result Response.

(** What the table is after a registration attempt. *)
Lemma create_user_table (body : UserModel) (w : world) :
  let out := UserServiceExt.create_user lib Response model_validate body w in
  (users (snd out) = users w
   /\ (exists e, fst out = Raise e))
  \/ (users (snd out) = (users w ++ [new_row lib (users w) body])%list
      /\ fst out = model_validate (new_row lib (users w) body)
      /\ (forall u, In u (users w) ->
                    User.email u <> lower (strip (um_email body))
                    /\ User.username u <> strip (um_username body))).
Proof.
  intros out. subst out.
  unfold UserServiceExt.create_user, UserRepositoryExt.create_user.
  unfold_m.
  destruct (UserRepository.get_user_by_email (lower (strip (um_email body))) w)
    as [[[u|]|e] w1] eqn:Hu;
    pose proof (get_user_by_email_frame _ _ _ _ Hu) as ->; simpl.
  - left. split; eauto.
  - rewrite TextTheory.normalise_idem, TextTheory.strip_idem.
    destruct (existsb _ (users w)) eqn:Hex; simpl.
    + left. split; eauto.
    + right. split; [reflexivity|]. split; [reflexivity|].
      intros u Hin. pose proof (existsb_false_not_in _ _ Hex u Hin) as Hf.
      simpl in Hf. apply orb_false_iff in Hf. destruct Hf as [H1 H2].
      apply String.eqb_neq in H1, H2. auto.
  - left. split; eauto.
Qed.

(** X12. Registration keeps the user table well formed.  Whatever the
    outcome (a refusal, or a new row whose response the validator then
    rejects), keys, emails and usernames stay unique and every stored email
    is trimmed and lower-case. *)
Theorem create_user_keeps_wellformed (body : UserModel) (w : world) :
  wellformed (users w) ->
  wellformed (users (snd (UserServiceExt.create_user lib Response model_validate body w))).
Proof.
  intros (Hid & Hem & Hun & Hno).
  destruct (create_user_table body w) as [[-> _]|(-> & _ & Hnew)].
  - repeat split; assumption.
  - unfold wellformed. rewrite !map_app. simpl.
    repeat split.
    + apply nodup_snoc; [assumption|]. apply fresh_id_new.
    + apply nodup_snoc; [assumption|]. intros Hx. apply in_map_iff in Hx.
      destruct Hx as (u & E & Hu). destruct (Hnew u Hu); auto.
    + apply nodup_snoc; [assumption|]. intros Hx. apply in_map_iff in Hx.
      destruct Hx as (u & E & Hu). destruct (Hnew u Hu); auto.
    + apply Forall_app. split; [assumption|]. constructor; [|constructor].
      unfold normal. simpl. apply TextTheory.normalise_idem.
Qed.

(** X13. A second registration with an email or a username that is taken,
    up to surrounding white space and (for the email) letter case, is
    refused with "User already exists" and leaves the world as it was. *)
Theorem create_user_duplicate (body : UserModel) (w : world) (u : User.t) :
  wellformed (users w) ->
  In u (users w) ->
  User.email u = lower (strip (um_email body))
  \/ User.username u = strip (um_username body) ->
  UserServiceExt.create_user lib Response model_validate body w
  = (Raise (ValueError "User already exists"), w).
Proof.
  intros (Hid & Hem & Hun & Hno) Hin Hdup.
  unfold UserServiceExt.create_user. unfold bind at 1.
  destruct (get_user_by_email_unique (lower (strip (um_email body))) w Hem)
    as [[v ->]|[-> Hnone]]; [reflexivity|].
  unfold UserRepositoryExt.create_user. unfold_m. simpl.
  rewrite TextTheory.normalise_idem, TextTheory.strip_idem.
  assert (existsb (fun u0 => String.eqb (User.email u0) (lower (strip (um_email body)))
                             || String.eqb (User.username u0)
                                  (strip (um_username body))) (users w) = true) as ->.
  { apply existsb_exists. exists u. split; [assumption|].
    apply orb_true_iff. destruct Hdup as [E|E]; [left|right];
      now apply String.eqb_eq. }
  reflexivity.
Qed.

End Generic.

Lemma confirm_row_email (i : Z) (u : User.t) :
  User.email (confirm_row i u) = User.email u.
Proof. unfold confirm_row. destruct (Z.eqb _ _); reflexivity. Qed.

(** What confirming does to the world. *)
Lemma confirmed_email_found (email : string) (w : world) (u : User.t) :
  UserRepository.get_user_by_email email w = (Ok (Some u), w) ->
  UserServiceExt.confirmed_email email w
  = (Ok tt, set_users (map (confirm_row (User.id u)) (users w)) w)
  /\ UserRepository.get_user_by_email email
       (set_users (map (confirm_row (User.id u)) (users w)) w)
     = (Ok (Some (User.with_confirmed u true)),
        set_users (map (confirm_row (User.id u)) (users w)) w).
Proof.
  intros Hu. split.
  - unfold UserServiceExt.confirmed_email, UserRepository.confirmed_email.
    unfold bind. rewrite Hu. reflexivity.
  - destruct (get_user_by_email_found _ _ _ Hu) as (_ & _ & Hf).
    unfold UserRepository.get_user_by_email. simpl.
    rewrite filter_map_stable by (intros x; now rewrite confirm_row_email).
    rewrite Hf. simpl. unfold confirm_row. now rewrite Z.eqb_refl.
Qed.

(** X14. Confirming an email that is not registered raises
    [AttributeError] and writes nothing.  Confirming a registered one sets
    the flag of its row and nothing else in that row, and a second
    confirmation leaves the world exactly as the first one left it. *)
Theorem confirmed_email_outcomes (email : string) (w : world) :
  (UserRepository.get_user_by_email email w = (Ok None, w) ->
   UserServiceExt.confirmed_email email w
   = (Raise (AttributeError "'NoneType' object has no attribute 'confirmed'"), w))
  /\ (forall u, UserRepository.get_user_by_email email w = (Ok (Some u), w) ->
      exists w1,
        UserServiceExt.confirmed_email email w = (Ok tt, w1)
        /\ UserRepository.get_user_by_email email w1
           = (Ok (Some (User.with_confirmed u true)), w1)
        /\ identities w1 = identities w
        /\ UserServiceExt.confirmed_email email w1 = (Ok tt, w1)).
Proof.
  split.
  - intros Hu. unfold UserServiceExt.confirmed_email, UserRepository.confirmed_email.
    unfold bind. now rewrite Hu.
  - intros u Hu. destruct (confirmed_email_found email w u Hu) as [H1 H2].
    eexists. split; [exact H1|]. split; [exact H2|]. split.
    + eapply identities_map; [|reflexivity].
      intros v. unfold confirm_row. destruct (Z.eqb _ _); auto.
    + destruct (confirmed_email_found email _ _ H2) as [H3 _].
      rewrite H3. f_equal. simpl. unfold set_users. simpl. f_equal.
      rewrite map_map. apply map_ext. intros v. unfold confirm_row.
      destruct (User.id v =? User.id u) eqn:E; simpl; now rewrite E.
Qed.

Section Flow.
Variable settings : Settings.
Variable lib : Libs.
Variable Response : Type.
Variable model_validate : User.t -> result Response.

(** X15. A registered account cannot log in until it is confirmed, and can
    afterwards.  After a successful registration, and provided bcrypt
    accepts the password against the hash it made of it, a login with the
    registered email and password fails with "Email not confirmed" and
    writes nothing; once the email is confirmed the same login succeeds. *)
Theorem register_confirm_login (now : Z) (body : UserModel) (w w1 : world)
    (r : Response) :
  UserServiceExt.create_user lib Response model_validate body w = (Ok r, w1) ->
  Auth.verify_password lib (um_password body)
    (Auth.get_password_hash lib (um_password body)) = Ok true ->
  UserService.login_by_email settings lib now (um_email body) (um_password body) w1
  = (Raise (ValueError "Email not confirmed"), w1)
  /\ exists w2 tm w3,
       UserServiceExt.confirmed_email (um_email body) w1 = (Ok tt, w2)
       /\ UserService.login_by_email settings lib now (um_email body)
            (um_password body) w2 = (Ok tm, w3).
Proof.
  intros Hreg Hv.
  assert (users w1 = (users w ++ [new_row lib (users w) body])%list
          /\ forall u, In u (users w) -> User.email u <> lower (strip (um_email body)))
    as [Hus Hold].
  { pose proof (create_user_table lib Response model_validate body w) as Ht.
    simpl in Ht. rewrite Hreg in Ht. simpl in Ht.
    destruct Ht as [[_ [e He]]|(H1 & _ & H3)]; [discriminate|].
    split; [assumption|]. intros u Hu. now destruct (H3 u Hu). }
  assert (UserRepository.get_user_by_email (um_email body) w1
          = (Ok (Some (new_row lib (users w) body)), w1)) as Hu.
  { unfold UserRepository.get_user_by_email. rewrite Hus, List.filter_app.
    rewrite filter_none.
    - simpl. now rewrite String.eqb_refl.
    - intros u Hin. apply String.eqb_neq. now apply Hold. }
  split.
  - apply (login_not_confirmed settings lib now _ _ _ _ Hu); [exact Hv|reflexivity].
  - destruct (confirmed_email_found _ _ _ Hu) as [H1 H2].
    assert (exists tm w3,
               UserService.login_by_email settings lib now (um_email body)
                 (um_password body)
                 (set_users (map (confirm_row (User.id (new_row lib (users w) body)))
                               (users w1)) w1) = (Ok tm, w3)) as (tm & w3 & Hl).
    { unfold UserService.login_by_email. unfold bind at 1.
      rewrite (login_lookup_normalised (um_email body)), H2. unfold bind at 1. unfold lift. simpl. rewrite Hv. simpl.
      unfold UserRepository.set_refresh_token, TokenCache.save_refresh_token, Redis.set.
      unfold_m. simpl. eauto. }
    eexists. exists tm, w3. split; [exact H1|exact Hl].
Qed.

End Flow.
End RegistrationTheory.

(* ===================================================================== *)
(** ** Roles                                                           *)
(* ===================================================================== *)

Module RoleTheory.
Import SpecExt SpecExt2 AccountTheory.

Lemma with_role_id (r : string) (u : User.t) (i : Z) :
  User.id (if Z.eqb (User.id u) i then UserRepositoryExt.with_role u r else u)
  = User.id u.
Proof. destruct (Z.eqb _ _); reflexivity. Qed.

(** X16. Changing a role writes one column of one key.  For a key nobody
    has the call raises 404 and writes nothing; when the row already has the
    role nothing is written; otherwise exactly the rows with that key get
    the new role, every other column and row is untouched, and the updated
    row is returned. *)
Theorem change_user_role_effects (target : Z) (new_role : UserRole) (w : world) :
  (UserRepository.get_user_by_id target w = (Ok None, w) ->
   UserServiceExt.change_user_role target new_role w
   = (Raise (HTTPException 404 "User not found"), w))
  /\ (forall u, UserRepository.get_user_by_id target w = (Ok (Some u), w) ->
      (User.role u = role_value new_role ->
       UserServiceExt.change_user_role target new_role w = (Ok (Some u), w))
      /\ (User.role u <> role_value new_role ->
          UserServiceExt.change_user_role target new_role w
          = (Ok (Some (UserRepositoryExt.with_role u (role_value new_role))),
             set_users
               (map (fun v => if Z.eqb (User.id v) target
                              then UserRepositoryExt.with_role v (role_value new_role)
                              else v) (users w)) w))).
Proof.
  split.
  - intros Hu. unfold UserServiceExt.change_user_role. unfold bind. now rewrite Hu.
  - intros u Hu.
    assert (List.filter (fun v => Z.eqb (User.id v) target) (users w) = [u]) as Hf.
    { unfold UserRepository.get_user_by_id in Hu.
      apply ResetTheory.scalar_one_inv. now inversion Hu. }
    assert (User.id u = target) as Hid.
    { assert (In u (List.filter (fun v => Z.eqb (User.id v) target) (users w))) as Hin
        by (rewrite Hf; now left).
      apply filter_In in Hin. now apply Z.eqb_eq. }
    split; intros Hr; unfold UserServiceExt.change_user_role; unfold bind at 1;
      rewrite Hu.
    + apply String.eqb_eq in Hr. now rewrite Hr.
    + apply String.eqb_neq in Hr. rewrite Hr.
      unfold UserRepositoryExt.set_role, UserRepository.get_user_by_id.
      unfold_m. simpl. rewrite Hid.
      rewrite filter_map_stable by (intros x; now rewrite with_role_id).
      rewrite Hf. simpl. now rewrite Hid, Z.eqb_refl.
Qed.

Section Generic.
Variable settings : Settings.
Variable lib : Libs.

(** X17. Only an administrator changes roles through the endpoint: unless
    the bearer token resolves to a row whose role is ["admin"], the call
    raises and the world is left as it was. *)
Theorem change_role_requires_admin (now : Z) (token : string) (role : UserRole)
    (user_id : Z) (w : world) (r : result (option User.t)) (w' : world) :
  Api.change_role settings lib now token role user_id w = (r, w') ->
  (forall u, Auth.get_current_user settings lib now token w = (Ok u, w) ->
             User.role u <> "admin") ->
  w' = w /\ exists e, r = Raise e.
Proof.
  unfold Api.change_role. unfold bind at 1.
  destruct (Auth.get_current_user settings lib now token w) as [[u|e] w1] eqn:Hu;
    pose proof (get_current_user_frame settings lib now token w _ _ Hu) as ->.
  - intros H Hna. specialize (Hna u eq_refl).
    unfold Deps.admin_required, bind in H. simpl in H.
    apply String.eqb_neq in Hna. rewrite Hna in H. simpl in H.
    unfold raise in H. inversion H; subst. eauto.
  - intros H _. inversion H; subst. eauto.
Qed.

End Generic.
End RoleTheory.

(* ===================================================================== *)
(** ** Contacts: scoping, deletion, cache, birthdays                   *)
(* ===================================================================== *)

Module ContactsTheory.
Import SpecExt AccountTheory.

Lemma firstn_in {A} (n : nat) (l : list A) (x : A) : In x (firstn n l) -> In x l.
Proof.
  revert l. induction n as [|n IH]; intros [|a l]; simpl; try tauto.
  intros [H|H]; auto.
Qed.

Lemma skipn_in {A} (n : nat) (l : list A) (x : A) : In x (skipn n l) -> In x l.
Proof.
  revert l. induction n as [|n IH]; intros [|a l]; simpl; try tauto.
  intros H. right. now apply IH.
Qed.

Lemma firstn_skipn_in {A} (n m : nat) (l : list A) (x : A) :
  In x (firstn n (skipn m l)) -> In x l.
Proof. intros H. eapply skipn_in, firstn_in, H. Qed.

(** X18. Every read of the contacts repository is scoped to the caller:
    the rows returned by the page, lookup, search and birthday queries are
    rows of the table owned by the given user, and a page or a search holds
    at most [limit] rows. *)
Theorem reads_are_owner_scoped (eng : Engine) (user : User.t) (w : world) :
  (forall skip limit rows w',
      ContactRepositoryExt.get_contacts user skip limit w = (Ok rows, w') ->
      (forall c, In c rows -> In c (contacts w) /\ Contact.user_id c = User.id user)
      /\ (0 <= limit -> Z.of_nat (length rows) <= limit))
  /\ (forall cid c w',
      ContactRepository.get_contact_by_id cid user w = (Ok (Some c), w') ->
      In c (contacts w) /\ Contact.user_id c = User.id user /\ Contact.id c = cid)
  /\ (forall fn ln em skip limit rows w',
      ContactRepository.search_contacts eng fn ln em skip limit user w = (Ok rows, w') ->
      (forall c, In c rows -> In c (contacts w) /\ Contact.user_id c = User.id user)
      /\ (0 <= limit -> Z.of_nat (length rows) <= limit))
  /\ (forall today days rows w',
      ContactRepository.upcoming_birthdays today days user w = (Ok rows, w') ->
      forall c, In c rows -> In c (contacts w) /\ Contact.user_id c = User.id user).
Proof.
  split; [|split; [|split]].
  - intros skip limit rows w'. unfold ContactRepositoryExt.get_contacts. unfold_m.
    intros H. inversion H; subst; clear H. split.
    + intros c Hc. apply firstn_skipn_in, filter_In in Hc.
      destruct Hc as [Hin Ho]. apply Z.eqb_eq in Ho. auto.
    + intros Hl. rewrite length_firstn. lia.
  - intros cid c w'. unfold ContactRepository.get_contact_by_id, ContactRepository.log.
    unfold_m. simpl.
    destruct (UserRepository.scalar_one_or_none _) as [[x|]|e] eqn:Hs; try discriminate.
    intros H. inversion H; subst; clear H.
    apply ResetTheory.scalar_one_inv in Hs.
    assert (In c (List.filter (fun c => (Contact.id c =? cid)
                                        && (Contact.user_id c =? User.id user))
                    (contacts w))) as Hin by (rewrite Hs; now left).
    apply filter_In in Hin. destruct Hin as [Hin Hb].
    apply andb_true_iff in Hb. destruct Hb as [H1 H2].
    apply Z.eqb_eq in H1, H2. auto.
  - intros fn ln em skip limit rows w'.
    unfold ContactRepository.search_contacts, ContactRepository.log. unfold_m. simpl.
    intros H. inversion H; subst; clear H. split.
    + intros c Hc. apply firstn_skipn_in, filter_In in Hc.
      destruct Hc as [Hin Hb]. split; [assumption|].
      repeat (apply andb_true_iff in Hb; destruct Hb as [Hb _]).
      now apply Z.eqb_eq.
    + intros Hl. rewrite length_firstn. lia.
  - intros today days rows w'.
    unfold ContactRepository.upcoming_birthdays, ContactRepository.log. unfold_m. simpl.
    intros H. inversion H; subst; clear H. intros c Hc.
    apply (proj1 (BirthdayTheory.birthday_rows_spec today days user (contacts w))) in Hc.
    tauto.
Qed.

(** Who the caller is depends on the user table only. *)
Lemma get_current_user_users (settings : Settings) (lib : Libs) (now : Z)
    (token : string) (w w1 : world) (u : User.t) :
  users w1 = users w ->
  Auth.get_current_user settings lib now token w = (Ok u, w) ->
  Auth.get_current_user settings lib now token w1 = (Ok u, w1).
Proof.
  intros Hus. unfold Auth.get_current_user.
  destruct (Auth.jose_decode settings lib now token [JWT_ALGORITHM settings]) as [p|e];
    [|destruct e; unfold raise; discriminate].
  destruct (ne_str _ _); [unfold raise; discriminate|].
  destruct (negb _); [unfold raise; discriminate|].
  unfold_m. destruct (Auth.as_str _) as [s|e]; [|discriminate].
  unfold UserRepository.get_user_by_email. rewrite Hus.
  destruct (UserRepository.scalar_one_or_none _) as [[x|]|e]; try discriminate.
  intros H. inversion H; subst. reflexivity.
Qed.

Lemma filter_filter_neg {A} (p : A -> bool) (l : list A) :
  List.filter p (List.filter (fun x => negb (p x)) l) = [].
Proof.
  apply filter_none. intros x Hx. apply filter_In in Hx.
  destruct Hx as [_ Hx]. now apply negb_true_iff.
Qed.

Section Generic.
Variable settings : Settings.
Variable lib : Libs.

(** X19. The delete endpoint never answers 404.  For an authenticated
    caller, a key that passes the route's validation (at least 1) and
    unique contact keys it succeeds whether or not the caller owns such a
    contact; afterwards the caller owns no contact with that key, and
    repeating the request succeeds again without changing the table. *)
Theorem delete_endpoint_idempotent (now : Z) (token : string) (cid : Z)
    (w : world) (u : User.t) :
  1 <= cid ->
  List.NoDup (map Contact.id (contacts w)) ->
  Auth.get_current_user settings lib now token w = (Ok u, w) ->
  exists w1 w2,
    Api.remove_contact settings lib now token cid w = (Ok tt, w1)
    /\ (forall c, In c (contacts w1) ->
                  ~ (Contact.id c = cid /\ Contact.user_id c = User.id u))
    /\ Api.remove_contact settings lib now token cid w1 = (Ok tt, w2)
    /\ contacts w2 = contacts w1.
Proof.
  intros Hcid Hnd Hu.
  assert ((cid <? 1) = false) as Hval by (apply Z.ltb_ge; lia).
  assert (forall w0, users w0 = users w ->
            (forall c, In c (contacts w0) ->
                       ~ (Contact.id c = cid /\ Contact.user_id c = User.id u)) ->
            exists w2, Api.remove_contact settings lib now token cid w0 = (Ok tt, w2)
                       /\ contacts w2 = contacts w0) as Hsecond.
  { intros w0 Hus Hgone.
    unfold Api.remove_contact. unfold bind at 1.
    rewrite (get_current_user_users settings lib now token w w0 u Hus Hu).
    rewrite Hval.
    unfold ContactService.remove_contact, ContactRepository.remove_contact,
      ContactRepository.get_contact_by_id, ContactRepository.log.
    unfold_m. simpl.
    rewrite filter_none.
    - simpl. eexists. split; reflexivity.
    - intros c Hc. specialize (Hgone c Hc).
      destruct (Contact.id c =? cid) eqn:E1; [|reflexivity].
      destruct (Contact.user_id c =? User.id u) eqn:E2; [|reflexivity].
      apply Z.eqb_eq in E1, E2. tauto. }
  unfold Api.remove_contact at 1. unfold bind at 1. rewrite Hu, Hval.
  unfold ContactService.remove_contact, ContactRepository.remove_contact,
    ContactRepository.get_contact_by_id, ContactRepository.delete_row,
    ContactRepository.log.
  unfold_m. simpl.
  pose proof (RemovalTheory.at_most_one_by_id (contacts w) cid
                (fun c => Contact.user_id c =? User.id u) Hnd) as Hlen.
  destruct (List.filter _ (contacts w)) as [|c [|c2 r]] eqn:F; simpl in *; try lia.
  - match goal with |- exists _ _, (_, ?W) = _ /\ _ => set (w1 := W) end.
    assert (forall c, In c (contacts w1) ->
                      ~ (Contact.id c = cid /\ Contact.user_id c = User.id u)) as Hg.
    { subst w1. simpl. intros c Hc [E1 E2].
      assert (In c (List.filter (fun c => (Contact.id c =? cid)
                                          && (Contact.user_id c =? User.id u))
                      (contacts w))) as Hin.
      { apply filter_In. split; [assumption|].
        apply andb_true_iff. split; now apply Z.eqb_eq. }
      rewrite F in Hin. contradiction. }
    destruct (Hsecond w1 eq_refl Hg) as (w2 & H2 & H3).
    exists w1, w2. auto.
  - match goal with |- exists _ _, (_, ?W) = _ /\ _ => set (w1 := W) end.
    assert (In c (List.filter (fun c => (Contact.id c =? cid)
                                        && (Contact.user_id c =? User.id u))
                    (contacts w))) as Hc by (rewrite F; now left).
    apply filter_In in Hc. destruct Hc as [_ Hc].
    apply andb_true_iff in Hc. destruct Hc as [Hid _]. apply Z.eqb_eq in Hid.
    assert (forall x, In x (contacts w1) ->
                      ~ (Contact.id x = cid /\ Contact.user_id x = User.id u)) as Hg.
    { subst w1. simpl. intros x Hx [E1 _].
      apply filter_In in Hx. destruct Hx as [_ Hx].
      apply negb_true_iff, Z.eqb_neq in Hx. congruence. }
    destruct (Hsecond w1 eq_refl Hg) as (w2 & H2 & H3).
    exists w1, w2. auto.
Qed.

End Generic.

(** *** The cache between writes *)

Lemma remove_contact_redis (cid : Z) (user : User.t) (w : world) :
  redis (snd (ContactService.remove_contact cid user w)) = redis w.
Proof.
  unfold ContactService.remove_contact, ContactRepository.remove_contact,
    ContactRepository.get_contact_by_id, ContactRepository.delete_row,
    ContactRepository.log.
  unfold_m. simpl.
  destruct (UserRepository.scalar_one_or_none _) as [[c|]|e]; reflexivity.
Qed.

Section Cache.
Variable eng : Engine.

(** A search that misses the cache. *)
Lemma search_miss (now : Z) (fn ln em : option string) (skip limit : Z)
    (user : User.t) (w : world) :
  Redis.lookup now (redis w)
    (ContactsCache.make_search_key (User.id user) fn ln em skip limit) = None ->
  let rows := fst (ContactRepository.search_contacts eng fn ln em skip limit user w) in
  exists rs,
    rows = Ok rs
    /\ ContactService.search_contacts eng now fn ln em skip limit user w
       = (Ok (ContactService.Rows rs),
          set_redis
            (<[ContactsCache.make_search_key (User.id user) fn ln em skip limit :=
                 mkEntry (dumps_contacts eng rs) (Some (now + 60))]> (redis w))
            (set_sql_log
               (sql_log w ++ [SqlSearch fn ln em skip limit (User.id user)])%list w)).
Proof.
  intros Hl rows. subst rows.
  unfold ContactService.search_contacts. unfold bind at 1.
  rewrite (proj1 (QueryCacheTheory.get_cached_miss eng _ _ _ Hl)).
  unfold ContactRepository.search_contacts, ContactRepository.log,
    ContactsCache.set_search_contacts, Redis.set, ContactsCache.SEARCH_TTL.
  unfold_m. simpl. eexists. split; reflexivity.
Qed.

(** X20. Contact writes do not invalidate the search cache.  After a search
    that went to the table, removing any contact (also one that was among
    the rows found) leaves the cached document in place: for the next 60
    seconds the same search is answered with the document stored before the
    removal, and no SQL search is issued. *)
Theorem cached_search_survives_removal (now now' : Z) (fn ln em : option string)
    (skip limit cid : Z) (user : User.t) (w w1 : world) (rows : list Contact.t)
    (doc : json) :
  Redis.lookup now (redis w)
    (ContactsCache.make_search_key (User.id user) fn ln em skip limit) = None ->
  ContactService.search_contacts eng now fn ln em skip limit user w
  = (Ok (ContactService.Rows rows), w1) ->
  Spec.usable eng (dumps_contacts eng rows) doc ->
  now' < now + 60 ->
  let w2 := snd (ContactService.remove_contact cid user w1) in
  ContactService.search_contacts eng now' fn ln em skip limit user w2
  = (Ok (ContactService.Cached doc), w2).
Proof.
  intros Hmiss Hrun Hdoc Hlive w2.
  destruct (search_miss now fn ln em skip limit user w Hmiss) as (rs & _ & Hs).
  rewrite Hs in Hrun. inversion Hrun; subst rs w1; clear Hrun.
  assert (Redis.lookup now' (redis w2)
            (ContactsCache.make_search_key (User.id user) fn ln em skip limit)
          = Some (dumps_contacts eng rows)) as Hl.
  { subst w2. rewrite remove_contact_redis. simpl.
    rewrite QueryCacheTheory.lookup_after_set.
    apply Z.lt_le_incl, Z.leb_le in Hlive. now rewrite Hlive. }
  unfold ContactService.search_contacts. unfold bind.
  now rewrite (proj1 (QueryCacheTheory.get_cached_hit eng _ _ _ _ _ Hl Hdoc)).
Qed.

(** X21. A cached search lives 60 seconds.  Once more than 60 seconds have
    passed since the search that stored it, the same search goes to the
    table again: one more SQL search is logged and the entry is rewritten
    with a new expiry. *)
Theorem cached_search_expires (now now' : Z) (fn ln em : option string)
    (skip limit : Z) (user : User.t) (w w1 : world) (rows : list Contact.t) :
  Redis.lookup now (redis w)
    (ContactsCache.make_search_key (User.id user) fn ln em skip limit) = None ->
  ContactService.search_contacts eng now fn ln em skip limit user w
  = (Ok (ContactService.Rows rows), w1) ->
  now + 60 < now' ->
  exists rows' w2,
    ContactService.search_contacts eng now' fn ln em skip limit user w1
    = (Ok (ContactService.Rows rows'), w2)
    /\ sql_log w2
       = (sql_log w ++ [SqlSearch fn ln em skip limit (User.id user);
                        SqlSearch fn ln em skip limit (User.id user)])%list
    /\ redis w2 !! ContactsCache.make_search_key (User.id user) fn ln em skip limit
       = Some (mkEntry (dumps_contacts eng rows') (Some (now' + 60))).
Proof.
  intros Hmiss Hrun Hlate.
  destruct (search_miss now fn ln em skip limit user w Hmiss) as (rs & _ & Hs).
  rewrite Hs in Hrun. inversion Hrun; subst rs w1; clear Hrun.
  match goal with |- context [ContactService.search_contacts _ _ _ _ _ _ _ _ ?W] =>
    set (w1 := W) end.
  assert (Redis.lookup now' (redis w1)
            (ContactsCache.make_search_key (User.id user) fn ln em skip limit) = None)
    as Hl.
  { subst w1. simpl. rewrite QueryCacheTheory.lookup_after_set.
    apply Z.leb_gt in Hlate. now rewrite Hlate. }
  destruct (search_miss now' fn ln em skip limit user w1 Hl) as (rs' & _ & Hs').
  rewrite Hs'. eexists _, _. split; [reflexivity|]. split.
  - subst w1. simpl. now rewrite <- app_assoc.
  - simpl. apply lookup_insert_eq.
Qed.

End Cache.

(** *** Key spaces *)

(** X22. The four kinds of Redis keys never meet: a refresh-token key, a
    reset-token key, a search key and a birthdays key are pairwise different
    whatever their arguments, and a birthdays key determines the owner and
    the number of days. *)
Theorem redis_key_spaces_disjoint (t t' : string) (uid uid' d d' skip limit : Z)
    (fn ln em : option string) :
  TokenCache._rt_key t <> UserService.pr_key t'
  /\ TokenCache._rt_key t <> ContactsCache.make_search_key uid fn ln em skip limit
  /\ TokenCache._rt_key t <> ContactsCache.make_birthdays_key uid d
  /\ UserService.pr_key t <> ContactsCache.make_search_key uid fn ln em skip limit
  /\ UserService.pr_key t <> ContactsCache.make_birthdays_key uid d
  /\ ContactsCache.make_search_key uid fn ln em skip limit
     <> ContactsCache.make_birthdays_key uid' d
  /\ (ContactsCache.make_birthdays_key uid d = ContactsCache.make_birthdays_key uid' d'
      -> uid = uid' /\ d = d').
Proof.
  unfold TokenCache._rt_key, UserService.pr_key, ContactsCache.make_search_key,
    ContactsCache.make_birthdays_key.
  split; [|split; [|split; [|split; [|split; [|split]]]]]; try discriminate.
  intros H. apply CacheKeyTheory.append_inv_head in H.
  change (":" +:+ ?x) with (String ":" x) in H.
  apply CacheKeyTheory.str_then in H; [|reflexivity].
  destruct H as [-> H]. split; [reflexivity|]. now apply CacheKeyTheory.str_inj.
Qed.

(** *** Birthdays *)

Lemma str_leb_refl (s : string) : str_leb s s = true.
Proof.
  induction s as [|c s IH]; simpl; [reflexivity|].
  now rewrite Z.ltb_irrefl.
Qed.

(** X23. The two ends of the window are always inside it: whatever the
    number of days, a contact of the user whose birthday falls on today's
    month and day, or on the month and day of the last day of the window,
    is listed. *)
Theorem birthday_on_window_end_is_listed (today : date) (days : Z) (user : User.t)
    (table : list Contact.t) (c : Contact.t) (b : date) :
  In c table -> Contact.user_id c = User.id user -> Contact.birthday c = Some b ->
  Dates.mmdd b = Dates.mmdd today
  \/ Dates.mmdd b = Dates.mmdd (Dates.add_days today days) ->
  In c (ContactRepository.birthday_rows today days user table).
Proof.
  intros Hin Ho Hb Hend.
  apply (proj1 (BirthdayTheory.birthday_rows_spec today days user table)).
  split; [assumption|]. split; [assumption|]. exists b. split; [assumption|].
  unfold ContactRepository.in_window.
  destruct (str_leb (Dates.mmdd today) (Dates.mmdd (Dates.add_days today days)))
    eqn:E; destruct Hend as [->| ->]; rewrite ?str_leb_refl, ?E; simpl;
    try reflexivity; apply orb_true_r.
Qed.

(** X26. For a window of 1 to 364 days the birthday query is the calendar's.
    With valid dates in the table, the rows returned are exactly the
    caller's contacts whose birthday, as a month and a day, lies between
    today and the last day of the window (running over 31 December when the
    window ends in the next year), in ascending order of month and day; the
    query changes no contact. *)
Theorem upcoming_birthdays_by_calendar (today : date) (days : Z) (user : User.t)
    (w : world) :
  Dates.valid today -> 1 <= days <= 364 ->
  (forall c b, In c (contacts w) -> Contact.birthday c = Some b -> Dates.valid b) ->
  let end_ := Dates.add_days today days in
  exists rows w',
    ContactRepository.upcoming_birthdays today days user w = (Ok rows, w')
    /\ contacts w' = contacts w
    /\ Sorted Spec.key_le rows
    /\ forall c,
         In c rows
         <-> In c (contacts w) /\ Contact.user_id c = User.id user
             /\ exists b, Contact.birthday c = Some b
                  /\ ((year end_ = year today
                       /\ Spec.nkey today <= Spec.nkey b <= Spec.nkey end_)
                      \/ (year end_ = year today + 1
                          /\ (Spec.nkey today <= Spec.nkey b
                              \/ Spec.nkey b <= Spec.nkey end_))).
Proof.
  intros Hv Hd Hdates end_.
  unfold ContactRepository.upcoming_birthdays, ContactRepository.log. unfold_m. simpl.
  eexists _, _. split; [reflexivity|]. split; [reflexivity|]. split.
  - apply (BirthdayTheory.birthday_rows_spec today days user (contacts w)).
  - intros c.
    rewrite (BirthdayTheory.birthday_rows_calendar today days user (contacts w) c Hv Hd).
    fold end_.
    destruct (BirthdayTheory.add_days_position today (Z.to_nat days) Hv ltac:(lia))
      as [He _].
    fold (Dates.add_days today days) in He. fold end_ in He.
    pose proof (BirthdayTheory.valid_day_bound _ Hv) as Bt.
    pose proof (BirthdayTheory.valid_day_bound _ He) as Be.
    assert (1 <= month today <= 12) as Mt by (destruct Hv; tauto).
    assert (1 <= month end_ <= 12) as Me by (destruct He; tauto).
    assert (forall b, Dates.valid b ->
              (str_leb (Dates.mmdd today) (Dates.mmdd b) = true
               <-> Spec.nkey today <= Spec.nkey b)
              /\ (str_leb (Dates.mmdd b) (Dates.mmdd end_) = true
                  <-> Spec.nkey b <= Spec.nkey end_)) as Hord.
    { intros b Hb. pose proof (BirthdayTheory.valid_day_bound _ Hb) as Bb.
      assert (1 <= month b <= 12) as Mb by (destruct Hb; tauto).
      rewrite (BirthdayTheory.mmdd_order today b Mt Bt Mb Bb).
      rewrite (BirthdayTheory.mmdd_order b end_ Mb Bb Me Be).
      split; apply Z.leb_le. }
    split; intros (Hin & Ho & b & Hb & H); (split; [assumption|]);
      (split; [assumption|]); exists b; (split; [assumption|]);
      destruct (Hord b (Hdates c b Hin Hb)) as [H1 H2];
      rewrite H1, H2 in *; tauto.
Qed.

End ContactsTheory.

(* ===================================================================== *)
(** ** Sessions: what a rotation checks                                *)
(* ===================================================================== *)

Module SessionTheory.
Import SpecExt AccountTheory.

Lemma rt_key_inj (t t' : string) : TokenCache._rt_key t = TokenCache._rt_key t' -> t = t'.
Proof. unfold TokenCache._rt_key. apply CacheKeyTheory.append_inv_head. Qed.

Lemma scalar_one_raise {A} (l : list A) (e : exn) :
  UserRepository.scalar_one_or_none l = Raise e ->
  e = MultipleResultsFound /\ (2 <= length l)%nat.
Proof.
  destruct l as [|a [|b l]]; simpl; intros H; try discriminate.
  inversion H. split; [reflexivity|lia].
Qed.

Section Generic.
Variable settings : Settings.
Variable lib : Libs.

Lemma decode_refresh_raise (now : Z) (t : string) (e : exn) :
  Auth.decode_refresh_token settings lib now t = Raise e -> exists m, e = JWTError m.
Proof.
  unfold Auth.decode_refresh_token, Auth.jose_decode.
  destruct (jwt_decode _ _ _ _ _); [discriminate|]. intros H. inversion H. eauto.
Qed.

(** A live entry is an entry. *)
Lemma lookup_present (now : Z) (r : gmap string entry) (k v : string) :
  Redis.lookup now r k = Some v -> exists ent, r !! k = Some ent.
Proof. unfold Redis.lookup. destruct (r !! k); [eauto|discriminate]. Qed.

(** The Redis path of a rotation, for a token whose claims are those of a
    refresh token. *)
Lemma refresh_fast_path (now : Z) (token : string) (w : world) (v : string) (p : dict)
    (s : string) :
  Redis.lookup now (redis w) (TokenCache._rt_key token) = Some v ->
  Auth.decode_refresh_token settings lib now token = Ok p ->
  dict_get p "sub" = JStr s ->
  UserService.refresh_access_token settings lib now token w
  = match UserRepository.scalar_one_or_none
            (List.filter (fun u => String.eqb (User.email u) (lower (strip s)))
               (users w)) with
    | Ok (Some u) =>
        (Ok (UserService.token_model
               (Auth.create_access_token settings lib now
                  {["sub" := JStr (User.email u)]}
                  (Some (JWT_EXPIRATION_SECONDS settings))) token), w)
    | Ok None => (Raise UserService.invalid_refresh, w)
    | Raise e => (Raise e, w)
    end.
Proof.
  intros Hl Hd Hsub.
  unfold UserService.refresh_access_token, TokenCache.is_refresh_token_active,
    Redis.exists_, UserService.try_decode_refresh, UserRepository.get_user_by_email.
  unfold_m. rewrite Hl. simpl. rewrite Hd.
  unfold dict_item. unfold dict_get in Hsub.
  destruct (p !! "sub") as [x|]; [|discriminate]. subst x. simpl.
  destruct (UserRepository.scalar_one_or_none _) as [[u|]|e]; reflexivity.
Qed.

(** The fallback path of a rotation. *)
Lemma refresh_fallback_path (now : Z) (token : string) (w : world) :
  Redis.lookup now (redis w) (TokenCache._rt_key token) = None ->
  UserService.refresh_access_token settings lib now token w
  = match UserRepository.scalar_one_or_none (holders token w) with
    | Raise e => (Raise e, w)
    | Ok None => (Raise UserService.invalid_refresh, w)
    | Ok (Some u) =>
        match Auth.decode_refresh_token settings lib now token with
        | Raise _ => (Raise UserService.invalid_refresh, w)
        | Ok p =>
            if ne_str (dict_get p "token_type") "refresh"
               || ne_str (dict_get p "sub") (User.email u)
            then (Raise UserService.invalid_refresh, w)
            else
              (Ok (UserService.token_model
                     (Auth.create_access_token settings lib now
                        {["sub" := JStr (User.email u)]}
                        (Some (JWT_EXPIRATION_SECONDS settings))) token),
               set_redis
                 (<[TokenCache._rt_key token :=
                      mkEntry (User.email u)
                        (Some (now + JWT_REFRESH_EXPIRATION_SECONDS settings))]>
                    (redis w)) w)
        end
    end.
Proof.
  intros Hl.
  unfold UserService.refresh_access_token, TokenCache.is_refresh_token_active,
    Redis.exists_, UserService.try_decode_refresh,
    UserRepository.get_user_by_refresh_token, TokenCache.save_refresh_token,
    Redis.set, holders.
  unfold_m. rewrite Hl. simpl.
  destruct (UserRepository.scalar_one_or_none _) as [[u|]|e]; try reflexivity.
  destruct (Auth.decode_refresh_token settings lib now token) as [p|e] eqn:Hd.
  - simpl. destruct (_ || _); reflexivity.
  - destruct (decode_refresh_raise _ _ _ Hd) as [m ->]. reflexivity.
Qed.

Lemma ne_str_false (v : json) (s : string) : ne_str v s = false -> v = JStr s.
Proof.
  unfold ne_str. destruct v; try discriminate.
  intros H. apply negb_false_iff, String.eqb_eq in H. now subst.
Qed.

Lemma filter_email_unique (email : string) (w : world) :
  List.NoDup (map User.email (users w)) ->
  forall e,
    UserRepository.scalar_one_or_none
      (List.filter (fun u => String.eqb (User.email u) (lower (strip email))) (users w))
    <> Raise e.
Proof.
  intros Hnd e H.
  destruct (RegistrationTheory.get_user_by_email_unique email w Hnd) as [[u Hu]|[Hu _]];
    unfold UserRepository.get_user_by_email in Hu; inversion Hu; congruence.
Qed.


(** *** The code keeps [rt_sound] *)

Lemma rt_sound_step (w w' : world) :
  rt_sound settings lib w ->
  (forall t ent,
      redis w' !! TokenCache._rt_key t = Some ent ->
      (exists ent0, redis w !! TokenCache._rt_key t = Some ent0)
      \/ (forall now p, Auth.decode_refresh_token settings lib now t = Ok p ->
                        refresh_claims_ok p)) ->
  rt_sound settings lib w'.
Proof.
  intros H Hs t ent now p Hk Hd.
  destruct (Hs t ent Hk) as [[e0 H0]|Hn]; [eapply H; eauto|eauto].
Qed.

Lemma rt_sound_same (w w' : world) :
  redis w' = redis w -> rt_sound settings lib w -> rt_sound settings lib w'.
Proof.
  intros E H. apply (rt_sound_step w w' H). intros t ent Hk. left.
  rewrite E in Hk. eauto.
Qed.

Lemma rt_sound_empty (w : world) : redis w = ∅ -> rt_sound settings lib w.
Proof. intros E t ent now p Hk. rewrite E, lookup_empty in Hk. discriminate. Qed.

(** Writing or deleting a key outside [rt:]. *)
Lemma rt_sound_other_key (w w' : world) (k : string) (v : entry) :
  (forall t, k <> TokenCache._rt_key t) ->
  redis w' = <[k := v]> (redis w) ->
  rt_sound settings lib w -> rt_sound settings lib w'.
Proof.
  intros Hk E H. apply (rt_sound_step w w' H). intros t ent Ht. left.
  rewrite E, lookup_insert_ne in Ht by apply Hk. eauto.
Qed.

Lemma rt_sound_delete_key (w w' : world) (k : string) :
  (forall t, k <> TokenCache._rt_key t) ->
  redis w' = base.delete k (redis w) ->
  rt_sound settings lib w -> rt_sound settings lib w'.
Proof.
  intros Hk E H. apply (rt_sound_step w w' H). intros t ent Ht. left.
  rewrite E, lookup_delete_ne in Ht by apply Hk. eauto.
Qed.

(** Writing the key of a token that verifies as a refresh token. *)
Lemma rt_sound_good_key (w w' : world) (token : string) (v : entry) :
  (forall now p, Auth.decode_refresh_token settings lib now token = Ok p ->
                 refresh_claims_ok p) ->
  redis w' = <[TokenCache._rt_key token := v]> (redis w) ->
  rt_sound settings lib w -> rt_sound settings lib w'.
Proof.
  intros Hgood E H. apply (rt_sound_step w w' H). intros t ent Ht.
  rewrite E in Ht. apply lookup_insert_Some in Ht.
  destruct Ht as [[Hk _]|[_ Ht]]; [|eauto].
  right. apply rt_key_inj in Hk. now subst t.
Qed.

Lemma search_key_not_rt uid fn ln em skip limit t :
  ContactsCache.make_search_key uid fn ln em skip limit <> TokenCache._rt_key t.
Proof. unfold ContactsCache.make_search_key, TokenCache._rt_key. discriminate. Qed.

Lemma birthdays_key_not_rt uid d t :
  ContactsCache.make_birthdays_key uid d <> TokenCache._rt_key t.
Proof. unfold ContactsCache.make_birthdays_key, TokenCache._rt_key. discriminate. Qed.

Lemma pr_key_not_rt k t : UserService.pr_key k <> TokenCache._rt_key t.
Proof. unfold UserService.pr_key, TokenCache._rt_key. discriminate. Qed.

(** What a confirm does to Redis, whatever its outcome. *)
Lemma reset_password_redis (now : Z) (token pw : string) (w : world) :
  let w' := snd (UserService.reset_password settings lib now token pw w) in
  redis w' = redis w \/ redis w' = base.delete (UserService.pr_key token) (redis w).
Proof.
  intros w'. subst w'.
  unfold UserService.reset_password, Redis.get. unfold_m.
  destruct (Redis.lookup now (redis w) (UserService.pr_key token)) as [email|];
    [|now left].
  destruct (String.eqb email ""); [now left|].
  destruct (Auth.decode_reset_token settings lib now token) as [p|e0].
  2:{ destruct e0; now left. }
  destruct (_ || _); [now left|].
  destruct (UserRepository.get_user_by_email email w) as [[[u|]|e1] w1] eqn:Hu;
    pose proof (get_user_by_email_frame _ _ _ _ Hu) as ->.
  - destruct (ResetTheory.set_password_hash_found email
                (Auth.get_password_hash lib pw) w u Hu) as [r Hr].
    rewrite Hr. unfold UserRepository.set_refresh_token, Redis.delete. unfold_m.
    simpl. now right.
  - unfold Redis.delete. unfold_m. simpl. now right.
  - now left.
Qed.

Section Kept.
Hypothesis Hstable : codec_stable settings lib.
Hypothesis Hmint : codec_mints_refresh settings lib.

Lemma login_keeps_rt_sound (now : Z) (email pw : string) (w : world) :
  rt_sound settings lib w -> emails_normal w ->
  rt_sound settings lib (snd (UserService.login_by_email settings lib now email pw w)).
Proof.
  intros H Hn.
  destruct (UserService.login_by_email settings lib now email pw w) as [[tm|e] w']
    eqn:Hrun; simpl.
  - destruct (login_success _ _ _ _ _ _ _ _ Hrun) as (u & Hu & _ & _ & Htm & Hw).
    destruct (get_user_by_email_found _ _ _ Hu) as (Hin & _ & _).
    apply (rt_sound_good_key w w' (UserService.refresh_token tm)
             (mkEntry (User.email u)
                (Some (now + JWT_REFRESH_EXPIRATION_SECONDS settings)))); auto.
    + intros now' p Hd. rewrite Htm in Hd. simpl in Hd.
      apply (Hmint now now' (User.email u) p); [|exact Hd].
      unfold emails_normal in Hn. rewrite List.Forall_forall in Hn. now apply Hn.
    + now rewrite Hw.
  - now rewrite (login_failure_frame _ _ _ _ _ _ _ _ Hrun).
Qed.

Lemma refresh_keeps_rt_sound (now : Z) (token : string) (w : world) :
  rt_sound settings lib w -> emails_normal w ->
  rt_sound settings lib (snd (UserService.refresh_access_token settings lib now token w)).
Proof.
  intros H Hn.
  destruct (UserService.refresh_access_token settings lib now token w) as [[tm|e] w']
    eqn:Hrun; simpl.
  - destruct (Redis.lookup now (redis w) (TokenCache._rt_key token)) as [v|] eqn:Hl.
    + destruct (refresh_success_parts _ _ _ _ _ _ _ Hrun) as (_ & _ & _ & _ & Hw).
      rewrite Hw; [assumption|]. now rewrite Hl.
    + destruct (RotationTheory.refresh_fallback_checked _ _ _ _ _ _ _ Hl Hrun)
        as (u & p & Hu & Hd & Hty & Hsub & Hw).
      apply (rt_sound_good_key w w' token
               (mkEntry (User.email u)
                  (Some (now + JWT_REFRESH_EXPIRATION_SECONDS settings)))); auto.
      * intros now' p' Hd'. rewrite <- (Hstable _ _ _ _ _ Hd Hd').
        split; [assumption|]. exists (User.email u). split; [assumption|].
        unfold UserRepository.get_user_by_refresh_token in Hu.
        assert (UserRepository.scalar_one_or_none (holders token w) = Ok (Some u))
          as Hq by (unfold holders; now inversion Hu).
        apply ResetTheory.scalar_one_inv in Hq.
        assert (In u (holders token w)) as Hin by (rewrite Hq; now left).
        apply filter_In in Hin. destruct Hin as [Hin _].
        unfold emails_normal in Hn. rewrite List.Forall_forall in Hn. now apply Hn.
      * now rewrite Hw.
  - now rewrite (RotationTheory.refresh_failure_frame _ _ _ _ _ _ _ Hrun).
Qed.

(** Every operation that writes Redis keeps the tokens under [rt:] refresh
    tokens: a login and a rotation store one, a reset request and a confirm
    write and delete under [pr:], a search and a birthday query write under
    [contacts:]; a logout writes no key. *)
Lemma rt_sound_kept (eng : Engine) (w : world) :
  rt_sound settings lib w -> emails_normal w ->
  (forall now email pw,
      rt_sound settings lib (snd (UserService.login_by_email settings lib now email pw w)))
  /\ (forall now token,
      rt_sound settings lib
        (snd (UserService.refresh_access_token settings lib now token w)))
  /\ (forall email, rt_sound settings lib (snd (UserService.logout email w)))
  /\ (forall now email,
      rt_sound settings lib
        (snd (UserService.request_password_reset settings lib now email w)))
  /\ (forall now token pw,
      rt_sound settings lib (snd (UserService.reset_password settings lib now token pw w)))
  /\ (forall now fn ln em skip limit user,
      rt_sound settings lib
        (snd (ContactService.search_contacts eng now fn ln em skip limit user w)))
  /\ (forall now today days user,
      rt_sound settings lib
        (snd (ContactService.upcoming_birthdays eng now today days user w))).
Proof.
  intros H Hn.
  split; [|split; [|split; [|split; [|split; [|split]]]]].
  - intros. now apply login_keeps_rt_sound.
  - intros. now apply refresh_keeps_rt_sound.
  - intros email. apply (rt_sound_same w); [reflexivity|assumption].
  - intros now email.
    destruct (UserRepository.get_user_by_email email w) as [[[u|]|e] w1] eqn:Hu;
      pose proof (get_user_by_email_frame _ _ _ _ Hu) as ->.
    + rewrite (request_known settings lib now email w u Hu). simpl.
      eapply (rt_sound_other_key w); [apply pr_key_not_rt|reflexivity|assumption].
    + now rewrite (request_unknown settings lib now email w Hu).
    + unfold UserService.request_password_reset. unfold bind.
      now rewrite login_lookup_normalised, Hu.
  - intros now token pw.
    destruct (reset_password_redis now token pw w) as [E|E].
    + now apply (rt_sound_same w).
    + eapply (rt_sound_delete_key w); [apply pr_key_not_rt|exact E|assumption].
  - intros now fn ln em skip limit user.
    unfold ContactService.search_contacts, ContactsCache.get_search_contacts,
      ContactsCache.loads, ContactsCache.set_search_contacts,
      ContactRepository.search_contacts, ContactRepository.log, Redis.get, Redis.set.
    unfold_m.
    destruct (Redis.lookup now (redis w) _) as [d|]; simpl.
    + destruct (String.eqb d ""); simpl.
      * eapply (rt_sound_other_key w);
          [apply search_key_not_rt|reflexivity|assumption].
      * destruct (json_loads eng d) as [[]|]; simpl; try assumption.
        eapply (rt_sound_other_key w);
          [apply search_key_not_rt|reflexivity|assumption].
    + eapply (rt_sound_other_key w);
        [apply search_key_not_rt|reflexivity|assumption].
  - intros now today days user.
    unfold ContactService.upcoming_birthdays, ContactsCache.get_birthdays,
      ContactsCache.loads, ContactsCache.set_birthdays,
      ContactRepository.upcoming_birthdays, ContactRepository.log, Redis.get, Redis.set.
    unfold_m.
    destruct (Redis.lookup now (redis w) _) as [d|]; simpl.
    + destruct (String.eqb d ""); simpl.
      * eapply (rt_sound_other_key w);
          [apply birthdays_key_not_rt|reflexivity|assumption].
      * destruct (json_loads eng d) as [[]|]; simpl; try assumption.
        eapply (rt_sound_other_key w);
          [apply birthdays_key_not_rt|reflexivity|assumption].
    + eapply (rt_sound_other_key w);
        [apply birthdays_key_not_rt|reflexivity|assumption].
Qed.

End Kept.
End Generic.

(** *** The codec of the scenarios meets the two requirements *)

Lemma contains_unfold (p s : string) :
  Scenario.contains p s
  = startswith p s
    || match s with
       | EmptyString => false
       | String _ s' => Scenario.contains p s'
       end.
Proof. destruct s; reflexivity. Qed.

Lemma contains_here (p b : string) : Scenario.contains p (p +:+ b) = true.
Proof. now rewrite contains_unfold, CacheKeyTheory.startswith_append. Qed.

Lemma contains_skip (p a s : string) :
  Scenario.contains p s = true -> Scenario.contains p (a +:+ s) = true.
Proof.
  intros H. induction a as [|c a IH]; [exact H|].
  rewrite CacheKeyTheory.append_cons, contains_unfold, IH. apply orb_true_r.
Qed.

Lemma jose_codec_stable : codec_stable JoseModel.settings Scenario.lib.
Proof.
  intros t now now' p p'.
  unfold Auth.decode_refresh_token, Auth.jose_decode, Scenario.lib, JoseModel.libs,
    jwt_decode, JoseModel.decode.
  destruct (find _ Scenario.issued) as [sg|]; [|discriminate].
  destruct (_ && _); [|discriminate].
  destruct (JoseModel.s_claims sg !! "exp") as [[]|]; try discriminate;
    repeat match goal with |- context [?a <? ?b] => destruct (a <? b) end;
    try discriminate; intros H1 H2; inversion H1; inversion H2; congruence.
Qed.

(** The text of a refresh token carries its type between two commas, and
    of the tokens issued in the scenarios only the refresh token does. *)
Lemma jose_codec_mints : codec_mints_refresh JoseModel.settings Scenario.lib.
Proof.
  intros now now' e p _.
  unfold Auth.decode_refresh_token, Auth.jose_decode, Auth.create_refresh_token,
    Auth.create_token, Scenario.lib, JoseModel.libs, jwt_decode, jwt_encode.
  match goal with
  | |- context [JoseModel.decode _ ?T] => remember T as tok eqn:Htok
  end.
  assert (Scenario.contains ",refresh," tok = true) as Hc.
  { rewrite Htok. unfold JoseModel.encode, JoseModel.claim_text.
    rewrite lookup_insert_eq.
    do 3 (apply contains_skip).
    match goal with
    | |- Scenario.contains _ ("," +:+ "refresh" +:+ "," +:+ ?x) = true =>
        change ("," +:+ "refresh" +:+ "," +:+ x) with (",refresh," +:+ x)
    end.
    apply contains_here. }
  assert (forall t, Scenario.contains ",refresh," t = false -> String.eqb t tok = false)
    as Hne.
  { intros t Ht. apply String.eqb_neq. intros ->. congruence. }
  clear Htok.
  unfold JoseModel.decode, Scenario.issued. cbn [find JoseModel.sign JoseModel.s_token].
  rewrite (Hne (JoseModel.encode Scenario.access_claims "testsecret" "HS256"))
    by (vm_compute; reflexivity).
  destruct (String.eqb (JoseModel.encode Scenario.refresh_claims "testsecret" "HS256")
              tok).
  - cbn [JoseModel.s_key JoseModel.s_alg JoseModel.s_claims].
    destruct (_ && _); [|discriminate].
    replace (Scenario.refresh_claims !! "exp") with (Some (JInt 87400))
      by (vm_compute; reflexivity).
    destruct (87400 <? now'); cbv beta iota; [discriminate|].
    intros H. injection H as <-.
    split; [vm_compute; reflexivity|]. exists "alice@example.com".
    split; vm_compute; reflexivity.
  - rewrite (Hne (JoseModel.encode Scenario.reset_claims "testsecret" "HS256"))
      by (vm_compute; reflexivity).
    rewrite (Hne (JoseModel.encode Scenario.ghost_reset_claims "testsecret" "HS256"))
      by (vm_compute; reflexivity).
    discriminate.
Qed.

Lemma w0_emails_normal : emails_normal Scenario.w0.
Proof. constructor; [vm_compute; reflexivity|constructor]. Qed.

(** The state a login leaves has only refresh tokens under [rt:]. *)
Lemma after_login_rt_sound : rt_sound JoseModel.settings Scenario.lib Scenario.after_login.
Proof.
  apply (login_keeps_rt_sound JoseModel.settings Scenario.lib jose_codec_mints).
  - now apply rt_sound_empty.
  - exact w0_emails_normal.
Qed.


End SessionTheory.

(* ===================================================================== *)
(** ** Runs on the scenario worlds                                     *)
(* ===================================================================== *)

Module Runs.
Import Scenario JoseModel ScenarioExt SpecExt SpecExt2.

Ltac run := vm_compute; reflexivity.

Lemma login_failure_outcomes_witness :
  UserService.login_by_email settings lib 1000 "nobody@example.com" "x" w_zoe
  = (Raise (ValueError "Invalid credentials"), w_zoe)
  /\ UserService.login_by_email settings lib 1000 "zoe@example.com" "wrong" w_zoe
     = (Raise (ValueError "Invalid credentials"), w_zoe)
  /\ UserService.login_by_email settings lib 1000 "zoe@example.com" "zoe-pass" w_zoe
     = (Raise (ValueError "Email not confirmed"), w_zoe).
Proof.
  split; [|split].
  - apply (proj1 (proj2 (AccountTheory.login_failure_outcomes settings lib 1000
                           "nobody@example.com" "x" w_zoe))). run.
  - apply (proj1 (proj2 (proj2 (AccountTheory.login_failure_outcomes settings lib 1000
                                  "zoe@example.com" "wrong" w_zoe)) zoe ltac:(run))).
    run.
  - apply (proj2 (proj2 (proj2 (AccountTheory.login_failure_outcomes settings lib 1000
                                  "zoe@example.com" "zoe-pass" w_zoe)) zoe ltac:(run)));
      run.
Defined.

Lemma login_then_refresh_witness :
  UserService.refresh_access_token settings lib 1500 refresh_tok after_login
  = (Ok (UserService.token_model
           (Auth.create_access_token settings lib 1500
              {["sub" := JStr (lower (strip " Alice@Example.com "))]} (Some 3600))
           refresh_tok),
     after_login).
Proof.
  apply (AccountTheory.login_then_refresh settings lib 1000 1500 " Alice@Example.com "
           "old-password" w0 after_login
           (UserService.token_model access_tok refresh_tok) refresh_claims);
    run.
Defined.

Lemma refresh_success_frame_witness :
  users after_login = users after_login
  /\ UserService.refresh_access_token settings lib 1500 refresh_tok after_login
     = (Ok (UserService.token_model
              (JoseModel.encode (claims alice_email "access" 1500 3600)
                 "testsecret" "HS256") refresh_tok),
        after_login).
Proof.
  destruct (AccountTheory.refresh_success_frame settings lib 1500 refresh_tok
              after_login after_login
              (UserService.token_model
                 (JoseModel.encode (claims alice_email "access" 1500 3600)
                    "testsecret" "HS256") refresh_tok) ltac:(run))
    as (_ & H2 & _ & _ & H5).
  split; [exact H2|]. apply H5. vm_compute. discriminate.
Defined.

Lemma refresh_fallback_self_heals_witness :
  TokenCache.is_refresh_token_active 80000 refresh_tok
    (snd (UserService.refresh_access_token settings lib 1500 refresh_tok w_row))
  = (Ok true,
     snd (UserService.refresh_access_token settings lib 1500 refresh_tok w_row)).
Proof.
  apply (AccountTheory.refresh_fallback_self_heals settings lib 1500 80000 refresh_tok
           w_row _
           (UserService.token_model
              (JoseModel.encode (claims alice_email "access" 1500 3600)
                 "testsecret" "HS256") refresh_tok)); run.
Defined.

Lemma logout_revokes_fallback_witness :
  UserService.refresh_access_token settings lib 1500 refresh_tok
    (snd (UserService.logout alice_email w_row))
  = (Raise UserService.invalid_refresh, snd (UserService.logout alice_email w_row)).
Proof.
  apply (AccountTheory.logout_revokes_fallback settings lib 1500 refresh_tok
           alice_email w_row); try run.
  intros u [<-|[]] _. reflexivity.
Defined.

Lemma request_password_reset_effects_witness :
  UserService.request_password_reset settings lib 2000 "nobody@example.com" w0
  = (Ok tt, w0)
  /\ UserService.request_password_reset settings lib 2000 " Alice@Example.com " w0
     = (Ok tt,
        set_outbox [(alice_email, reset_tok)]
          (set_redis {[ UserService.pr_key reset_tok := mkEntry alice_email (Some 2900) ]}
             w0)).
Proof.
  split.
  - apply (proj1 (AccountTheory.request_password_reset_effects settings lib 2000
                    "nobody@example.com" w0)). run.
  - rewrite (proj2 (AccountTheory.request_password_reset_effects settings lib 2000
                      " Alice@Example.com " w0) alice ltac:(run)). run.
Defined.

Lemma request_then_reset_witness :
  exists w2,
    UserService.reset_password settings lib 2100 reset_tok "new-password"
      (snd (UserService.request_password_reset settings lib 2000 alice_email w0))
    = (Ok tt, w2)
    /\ map User.password_hash (users w2) = [hash "new-password"].
Proof.
  destruct (AccountTheory.request_then_reset settings lib 2000 2100 alice_email
              "new-password" w0
              (snd (UserService.request_password_reset settings lib 2000 alice_email w0))
              alice reset_claims ltac:(run) ltac:(discriminate) ltac:(run)
              ltac:(lia) ltac:(run) ltac:(run))
    as (w2 & Hrun & Hus & _).
  exists w2. split; [exact Hrun|]. rewrite Hus. run.
Defined.

Lemma reset_revokes_fallback_witness :
  UserService.refresh_access_token settings lib 2200 refresh_tok
    (snd (UserService.reset_password settings lib 2100 reset_tok "new-password"
            w_row_reset))
  = (Raise UserService.invalid_refresh,
     snd (UserService.reset_password settings lib 2100 reset_tok "new-password"
            w_row_reset)).
Proof.
  apply (AccountTheory.reset_revokes_fallback settings lib 2100 2200 reset_tok
           "new-password" refresh_tok w_row_reset); try run.
  intros email v Hl [<-|[]] _. vm_compute in Hl. now inversion Hl.
Defined.

Lemma get_current_user_sound_witness :
  Auth.get_current_user settings lib 1500 access_tok w0 = (Ok alice, w0)
  /\ In alice (users w0)
  /\ Auth.get_current_user settings lib 1500 "forged" w0 = (Raise Auth.cred_exc, w0).
Proof.
  assert (Auth.get_current_user settings lib 1500 access_tok w0 = (Ok alice, w0)) as H
    by run.
  split; [exact H|]. split.
  - exact (proj1 (proj1 (proj2 (AccountTheory.get_current_user_sound settings lib 1500
                                  access_tok w0)) alice w0 H)).
  - apply (proj2 (proj2 (AccountTheory.get_current_user_sound settings lib 1500
                           "forged" w0))). run.
Defined.

Lemma reset_then_login_witness :
  exists tm w'',
    UserService.login_by_email settings lib 2200 alice_email "new-password"
      w_reset_done = (Ok tm, w'').
Proof.
  apply (AccountTheory.reset_then_login settings lib 2100 2200 reset_tok "new-password"
           w_reset w_reset_done alice_email alice); run.
Defined.

Lemma login_survives_redis_flush_witness :
  UserService.refresh_access_token settings lib 1500 refresh_tok
    (set_redis ∅ after_login)
  = (Ok (UserService.token_model
           (Auth.create_access_token settings lib 1500
              {["sub" := JStr (lower (strip " Alice@Example.com "))]} (Some 3600))
           refresh_tok),
     set_redis
       {[ TokenCache._rt_key refresh_tok :=
            mkEntry (lower (strip " Alice@Example.com ")) (Some (1500 + 86400)) ]}
       after_login).
Proof.
  apply (AccountTheory.login_survives_redis_flush settings lib 1000 1500
           " Alice@Example.com " "old-password" w0 after_login
           (UserService.token_model access_tok refresh_tok) refresh_claims);
    try run.
  intros v [<-|[]]. discriminate.
Defined.

Lemma w0_wellformed : wellformed (users w0).
Proof.
  repeat split.
  - repeat constructor. intros [].
  - repeat constructor. intros [].
  - repeat constructor. intros [].
  - repeat constructor.
Defined.

Lemma create_user_keeps_wellformed_witness :
  wellformed (users (snd (UserServiceExt.create_user lib User.t keep zed_form w0))).
Proof.
  apply (RegistrationTheory.create_user_keeps_wellformed lib User.t keep zed_form w0).
  exact w0_wellformed.
Defined.

Lemma create_user_duplicate_witness :
  UserServiceExt.create_user lib User.t keep alice_again w0
  = (Raise (ValueError "User already exists"), w0).
Proof.
  apply (RegistrationTheory.create_user_duplicate lib User.t keep alice_again w0 alice).
  - exact w0_wellformed.
  - left. reflexivity.
  - left. vm_compute. reflexivity.
Defined.

Lemma confirmed_email_outcomes_witness :
  UserServiceExt.confirmed_email "nobody@example.com" w_zoe
  = (Raise (AttributeError "'NoneType' object has no attribute 'confirmed'"), w_zoe)
  /\ exists w1,
       UserServiceExt.confirmed_email " Zoe@example.com" w_zoe = (Ok tt, w1)
       /\ UserRepository.get_user_by_email " Zoe@example.com" w1
          = (Ok (Some (User.with_confirmed zoe true)), w1)
       /\ identities w1 = identities w_zoe
       /\ UserServiceExt.confirmed_email " Zoe@example.com" w1 = (Ok tt, w1).
Proof.
  split.
  - apply (proj1 (RegistrationTheory.confirmed_email_outcomes "nobody@example.com"
                    w_zoe)). run.
  - apply (proj2 (RegistrationTheory.confirmed_email_outcomes " Zoe@example.com"
                    w_zoe) zoe). run.
Defined.

Lemma register_confirm_login_witness :
  UserService.login_by_email settings lib 1000 (um_email zed_form)
    (um_password zed_form)
    (snd (UserServiceExt.create_user lib User.t keep zed_form w0))
  = (Raise (ValueError "Email not confirmed"),
     snd (UserServiceExt.create_user lib User.t keep zed_form w0))
  /\ exists w2 tm w3,
       UserServiceExt.confirmed_email (um_email zed_form)
         (snd (UserServiceExt.create_user lib User.t keep zed_form w0)) = (Ok tt, w2)
       /\ UserService.login_by_email settings lib 1000 (um_email zed_form)
            (um_password zed_form) w2 = (Ok tm, w3).
Proof.
  apply (RegistrationTheory.register_confirm_login settings lib User.t keep 1000
           zed_form w0 _ (new_row lib (users w0) zed_form)); run.
Defined.

Lemma change_user_role_effects_witness :
  UserServiceExt.change_user_role 7 ADMIN w0
  = (Raise (HTTPException 404 "User not found"), w0)
  /\ UserServiceExt.change_user_role 1 USER w0 = (Ok (Some alice), w0)
  /\ UserServiceExt.change_user_role 1 ADMIN w0
     = (Ok (Some (UserRepositoryExt.with_role alice "admin")),
        set_users [UserRepositoryExt.with_role alice "admin"] w0).
Proof.
  split; [|split].
  - apply (proj1 (RoleTheory.change_user_role_effects 7 ADMIN w0)). run.
  - apply (proj1 (proj2 (RoleTheory.change_user_role_effects 1 USER w0) alice
                    ltac:(run))). run.
  - apply (proj2 (proj2 (RoleTheory.change_user_role_effects 1 ADMIN w0) alice
                    ltac:(run))). vm_compute. discriminate.
Defined.

Lemma change_role_requires_admin_witness :
  snd (Api.change_role settings lib 1500 access_tok ADMIN 1 w0) = w0
  /\ exists e, fst (Api.change_role settings lib 1500 access_tok ADMIN 1 w0) = Raise e.
Proof.
  apply (RoleTheory.change_role_requires_admin settings lib 1500 access_tok ADMIN 1 w0
           _ _ (surjective_pairing _)).
  intros u H. vm_compute in H. inversion H. vm_compute. discriminate.
Defined.

Lemma wc_ids_unique : List.NoDup (map Contact.id (contacts wc)).
Proof.
  simpl. repeat (constructor; [simpl; intuition discriminate|]). constructor.
Defined.

Lemma reads_are_owner_scoped_witness :
  (forall c, In c [carol; dave] ->
             In c (contacts wc) /\ Contact.user_id c = User.id alice)
  /\ Contact.user_id grace = User.id bob
  /\ (forall c, In c [carol] -> In c (contacts wc) /\ Contact.user_id c = User.id alice)
  /\ (forall c, In c [erin] -> In c (contacts wc) /\ Contact.user_id c = User.id alice).
Proof.
  split; [|split; [|split]].
  - apply (proj1 (proj1 (ContactsTheory.reads_are_owner_scoped eng alice wc)
                    0 2 [carol; dave] _ ltac:(run))).
  - apply (proj1 (proj2 (ContactsTheory.reads_are_owner_scoped eng bob wc))
             5 grace _ ltac:(run)).
  - apply (proj1 (proj1 (proj2 (proj2 (ContactsTheory.reads_are_owner_scoped eng alice
                                         wc)))
                    (Some " car ") None None 0 100 [carol] _ ltac:(run))).
  - apply (proj2 (proj2 (proj2 (ContactsTheory.reads_are_owner_scoped eng alice wc)))
             (mkDate 2026 6 1) 7 [erin] _ ltac:(run)).
Defined.

Lemma delete_endpoint_idempotent_witness :
  exists w1 w2,
    Api.remove_contact settings lib 1500 access_tok 5 wc = (Ok tt, w1)
    /\ (forall c, In c (contacts w1) ->
                  ~ (Contact.id c = 5 /\ Contact.user_id c = User.id alice))
    /\ Api.remove_contact settings lib 1500 access_tok 5 w1 = (Ok tt, w2)
    /\ contacts w2 = contacts w1.
Proof.
  apply (ContactsTheory.delete_endpoint_idempotent settings lib 1500 access_tok 5 wc
           alice ltac:(lia) wc_ids_unique). run.
Defined.

Lemma cached_search_survives_removal_witness :
  ContactService.search_contacts eng 130 (Some " car ") None None 0 100 alice
    (snd (ContactService.remove_contact 1 alice w_searched))
  = (Ok (ContactService.Cached (JArr [JStr "[1]"])),
     snd (ContactService.remove_contact 1 alice w_searched)).
Proof.
  apply (ContactsTheory.cached_search_survives_removal eng 100 130 (Some " car ") None
           None 0 100 1 alice wc w_searched [carol] (JArr [JStr "[1]"])).
  - run.
  - run.
  - repeat split; discriminate.
  - lia.
Defined.

Lemma cached_search_expires_witness :
  exists rows' w2,
    ContactService.search_contacts eng 161 (Some " car ") None None 0 100 alice
      w_searched = (Ok (ContactService.Rows rows'), w2)
    /\ sql_log w2
       = (sql_log wc ++ [SqlSearch (Some " car ") None None 0 100 (User.id alice);
                         SqlSearch (Some " car ") None None 0 100 (User.id alice)])%list
    /\ redis w2 !! ContactsCache.make_search_key (User.id alice) (Some " car ") None
                     None 0 100
       = Some (mkEntry (dumps_contacts eng rows') (Some (161 + 60))).
Proof.
  apply (ContactsTheory.cached_search_expires eng 100 161 (Some " car ") None None 0 100
           alice wc w_searched [carol]).
  - run.
  - run.
  - lia.
Defined.

Lemma redis_key_spaces_disjoint_witness : 1 = 1 /\ 7 = 7.
Proof.
  apply (proj2 (proj2 (proj2 (proj2 (proj2 (proj2
           (ContactsTheory.redis_key_spaces_disjoint "a" "b" 1 1 7 7 0 100
              None None None))))))).
  reflexivity.
Defined.

Lemma birthday_on_window_end_is_listed_witness :
  In carol (ContactRepository.birthday_rows (mkDate 2026 12 26) 7 alice address_book)
  /\ In erin (ContactRepository.birthday_rows (mkDate 2026 6 5) 400 alice address_book).
Proof.
  split.
  - apply (ContactsTheory.birthday_on_window_end_is_listed (mkDate 2026 12 26) 7 alice
             address_book carol (mkDate 1990 1 2)).
    + left. reflexivity.
    + reflexivity.
    + reflexivity.
    + right. vm_compute. reflexivity.
  - apply (ContactsTheory.birthday_on_window_end_is_listed (mkDate 2026 6 5) 400 alice
             address_book erin (mkDate 2001 6 5)).
    + right. right. left. reflexivity.
    + reflexivity.
    + reflexivity.
    + left. vm_compute. reflexivity.
Defined.

Lemma wc_birthdays_valid (c : Contact.t) (b : date) :
  In c (contacts wc) -> Contact.birthday c = Some b -> Dates.valid b.
Proof.
  simpl. intros H Hb.
  repeat (destruct H as [<-|H];
          [vm_compute in Hb; inversion Hb; subst; unfold Dates.valid; vm_compute;
           intuition discriminate|]).
  contradiction.
Defined.

Lemma upcoming_birthdays_by_calendar_witness :
  exists rows w',
    ContactRepository.upcoming_birthdays (mkDate 2026 12 28) 7 alice wc = (Ok rows, w')
    /\ contacts w' = contacts wc
    /\ Sorted Spec.key_le rows
    /\ forall c,
         In c rows
         <-> In c (contacts wc) /\ Contact.user_id c = User.id alice
             /\ exists b, Contact.birthday c = Some b
                  /\ ((year (Dates.add_days (mkDate 2026 12 28) 7) = year (mkDate 2026 12 28)
                       /\ Spec.nkey (mkDate 2026 12 28) <= Spec.nkey b
                          <= Spec.nkey (Dates.add_days (mkDate 2026 12 28) 7))
                      \/ (year (Dates.add_days (mkDate 2026 12 28) 7)
                          = year (mkDate 2026 12 28) + 1
                          /\ (Spec.nkey (mkDate 2026 12 28) <= Spec.nkey b
                              \/ Spec.nkey b
                                 <= Spec.nkey (Dates.add_days (mkDate 2026 12 28) 7)))).
Proof.
  apply (ContactsTheory.upcoming_birthdays_by_calendar (mkDate 2026 12 28) 7 alice wc).
  - unfold Dates.valid. vm_compute. intuition discriminate.
  - lia.
  - exact wc_birthdays_valid.
Defined.

End Runs.
